(** * Passport / G-28 document pipeline: a shallow embedding and its properties

    The development follows the Python sources of the repository:

    - [models/passport_data.py], [models/g28_data.py]  (records)
    - [utils/data_mapper.py]                           (module [DataMapper])
    - [extractors/combined_extraction.py]              (module [Extraction])
    - [utils/pdf_handler.py], [utils/ocr_handler.py]   (module [Ocr])
    - [automation/form_filler.py]                      (module [FormFiller])
    - [utils/validators.py]                            (module [Validators])
    - [app.py]                                         (module [App])

    Conventions.

    - A Python [str] is a [string]; one [ascii] stands for one code point, so
      the model covers text whose code points are below 256.  On that range
      [str.strip], [str.lower] and the digit class of [strptime] are exactly
      the functions written below.
    - A Python [dict] is an insertion-ordered association list ([dict_set]
      overwrites in place, appends a new key at the end), because
      [_fill_page] iterates over [fields.items()].
    - Code that can raise returns a [result]; [try]/[except] is [try_except].
    - What the program obtains from collaborators outside the repository (the
      remote model, the JSON decoder, pydantic's lax coercions, the PDF
      library, the OCR engine, the browser) is a parameter of the function
      that uses it.  Calls to [logger] are not modelled. *)

From Stdlib Require Import String Ascii List Bool Arith ZArith Lia Floats.
Import ListNotations.
Local Open Scope string_scope.
Local Open Scope nat_scope.
Set Warnings "-register-all,-abstract-large-number,-inexact-float".

(* ===================================================================== *)
(** * Python runtime: exceptions, results, strings, dictionaries          *)
(* ===================================================================== *)

Module Py.

(** Exceptions, by the classes the program distinguishes.  [JSONDecodeError]
    and pydantic's [ValidationError] are subclasses of [ValueError]. *)
Inductive exception : Type :=
| ValueError (msg : string)
| JSONDecodeError (msg : string) (doc : string) (pos : nat)
| ValidationError (title : string)
| AttributeError (msg : string)
| TypeError (msg : string)
| OtherError (msg : string).

(** [isinstance(e, ValueError)] *)
Definition is_ValueError (e : exception) : bool :=
  match e with
  | ValueError _ | JSONDecodeError _ _ _ | ValidationError _ => true
  | AttributeError _ | TypeError _ | OtherError _ => false
  end.

(** The outcome of code that can raise.  [E] is what the surrounding code
    observes of an exception: its class and text ([exception]) or only its
    text. *)
Inductive outcome (E A : Type) : Type :=
| Ok (a : A)
| Raise (e : E).
Arguments Ok {E A} a.
Arguments Raise {E A} e.

Definition result : Type -> Type := outcome exception.

Definition bind {E A B : Type} (c : outcome E A) (k : A -> outcome E B)
  : outcome E B :=
  match c with
  | Ok a => k a
  | Raise e => Raise e
  end.

(** [try: body  except Exception as e: handler(e)] *)
Definition try_except {E A : Type} (body : outcome E A)
  (handler : E -> outcome E A) : outcome E A :=
  match body with
  | Ok a => Ok a
  | Raise e => handler e
  end.

Definition is_Ok {E A : Type} (c : outcome E A) : bool :=
  match c with Ok _ => true | Raise _ => false end.

(** Code that also acts on a state [S] (the outside world, module globals):
    the state is threaded through, and survives a raised exception. *)
Definition io (E S A : Type) : Type := S -> outcome E A * S.

Definition io_ret {E S A : Type} (a : A) : io E S A := fun s => (Ok a, s).

Definition io_raise {E S A : Type} (e : E) : io E S A := fun s => (Raise e, s).

Definition io_bind {E S A B : Type} (c : io E S A) (k : A -> io E S B)
  : io E S B :=
  fun s =>
    match c s with
    | (Ok a, s') => k a s'
    | (Raise e, s') => (Raise e, s')
    end.

(** [try: body  except Exception as e: handler(e)] over a state. *)
Definition io_try {E S A : Type} (body : io E S A) (handler : E -> io E S A)
  : io E S A :=
  fun s =>
    match body s with
    | (Ok a, s') => (Ok a, s')
    | (Raise e, s') => handler e s'
    end.

(** ** Decimal rendering of naturals ([str(n)], [%d]) *)

Definition digit_char (n : nat) : ascii := ascii_of_nat (48 + n mod 10).

Fixpoint str_nat_aux (fuel n : nat) (acc : string) : string :=
  match fuel with
  | O => acc
  | S fuel' =>
      let acc' := String (digit_char n) acc in
      if n <? 10 then acc' else str_nat_aux fuel' (n / 10) acc'
  end.

Definition str_nat (n : nat) : string := str_nat_aux (S n) n "".

Fixpoint repeat_char (c : ascii) (n : nat) : string :=
  match n with
  | O => ""
  | S n' => String c (repeat_char c n')
  end.

(** [s.zfill(w)] for a string of digits: the format [%0wd]. *)
Definition zfill (w : nat) (s : string) : string :=
  repeat_char "0" (w - String.length s) ++ s.

(** ** [str] methods *)

(** [c.isspace()] on code points below 256. *)
Definition isspace (c : ascii) : bool :=
  let n := nat_of_ascii c in
  ((9 <=? n) && (n <=? 13)) || ((28 <=? n) && (n <=? 32))
  || (n =? 133) || (n =? 160).

Fixpoint lstrip (s : string) : string :=
  match s with
  | String c s' => if isspace c then lstrip s' else s
  | EmptyString => EmptyString
  end.

Fixpoint rstrip (s : string) : string :=
  match s with
  | EmptyString => EmptyString
  | String c s' =>
      match rstrip s' with
      | EmptyString => if isspace c then EmptyString else String c EmptyString
      | t => String c t
      end
  end.

Definition strip (s : string) : string := rstrip (lstrip s).

(** [c.lower()] on code points below 256: A-Z and the Latin-1 capitals. *)
Definition lower_char (c : ascii) : ascii :=
  let n := nat_of_ascii c in
  if ((65 <=? n) && (n <=? 90))
     || ((192 <=? n) && (n <=? 222) && negb (n =? 215))
  then ascii_of_nat (n + 32) else c.

Fixpoint lower (s : string) : string :=
  match s with
  | EmptyString => EmptyString
  | String c s' => String (lower_char c) (lower s')
  end.

(** [s.startswith(p)] *)
Fixpoint startswith (p s : string) : bool :=
  match p, s with
  | EmptyString, _ => true
  | String a p', String b s' => Ascii.eqb a b && startswith p' s'
  | String _ _, EmptyString => false
  end.

(** [s[n:]] *)
Fixpoint drop (n : nat) (s : string) : string :=
  match n, s with
  | O, _ => s
  | S n', String _ s' => drop n' s'
  | S _, EmptyString => EmptyString
  end.

(** [s[:n]] *)
Fixpoint take (n : nat) (s : string) : string :=
  match n, s with
  | O, _ => EmptyString
  | S n', String c s' => String c (take n' s')
  | S _, EmptyString => EmptyString
  end.

(** [s.endswith(p)] *)
Definition endswith (p s : string) : bool :=
  (String.length p <=? String.length s)
  && String.eqb (drop (String.length s - String.length p) s) p.

(** [s[:-n]] for [n > 0] *)
Definition drop_last (n : nat) (s : string) : string :=
  take (String.length s - n) s.

(** [p in s] *)
Fixpoint contains (p s : string) : bool :=
  startswith p s
  || match s with
     | EmptyString => false
     | String _ s' => contains p s'
     end.

(** [sep.join(parts)] *)
Fixpoint join (sep : string) (parts : list string) : string :=
  match parts with
  | [] => ""
  | [x] => x
  | x :: rest => x ++ sep ++ join sep rest
  end.

(** The double-quote character, for texts that contain it. *)
Definition dquote : string := String (ascii_of_nat 34) EmptyString.
Definition quoted (s : string) : string := dquote ++ s ++ dquote.
Definition newline : string := String (ascii_of_nat 10) EmptyString.

(** [str(json_err)]: [JSONDecodeError] renders its message with the line,
    the column and the offset of the error in the document. *)
Fixpoint count_newlines (s : string) : nat :=
  match s with
  | EmptyString => 0
  | String c s' => (if Ascii.eqb c (ascii_of_nat 10) then 1 else 0) + count_newlines s'
  end.

(** [doc.rfind(newline, 0, pos)], with [None] for -1. *)
Fixpoint rfind_newline (s : string) (idx : nat) (last : option nat) : option nat :=
  match s with
  | EmptyString => last
  | String c s' =>
      rfind_newline s' (S idx)
        (if Ascii.eqb c (ascii_of_nat 10) then Some idx else last)
  end.

Definition str_JSONDecodeError (msg doc : string) (pos : nat) : string :=
  let before := take pos doc in
  let lineno := count_newlines before + 1 in
  let colno :=
    match rfind_newline before 0 None with
    | Some i => pos - i
    | None => pos + 1
    end in
  msg ++ ": line " ++ str_nat lineno ++ " column " ++ str_nat colno
      ++ " (char " ++ str_nat pos ++ ")".

(** [str(e)].  For a [ValidationError] pydantic renders a report; the model
    keeps its title only, and the program never reads it. *)
Definition str_exception (e : exception) : string :=
  match e with
  | ValueError msg | AttributeError msg | TypeError msg | OtherError msg => msg
  | JSONDecodeError msg doc pos => str_JSONDecodeError msg doc pos
  | ValidationError title => title
  end.

(** ** Insertion-ordered dictionaries with string keys *)

Definition dict (V : Type) : Type := list (string * V).

(** [d.get(k)] *)
Fixpoint dict_get {V : Type} (k : string) (d : dict V) : option V :=
  match d with
  | [] => None
  | (k', v) :: d' => if String.eqb k k' then Some v else dict_get k d'
  end.

(** [d[k] = v] *)
Fixpoint dict_set {V : Type} (k : string) (v : V) (d : dict V) : dict V :=
  match d with
  | [] => [(k, v)]
  | (k', v') :: d' =>
      if String.eqb k k' then (k', v) :: d' else (k', v') :: dict_set k v d'
  end.

End Py.

Export Py.

Declare Scope py_scope.
Notation "x <- c ;; k" := (bind c (fun x => k))
  (at level 61, c at next level, right associativity) : py_scope.
Declare Scope io_scope.
Notation "x <- c ;; k" := (io_bind c (fun x => k))
  (at level 61, c at next level, right associativity) : io_scope.
Notation "c ;;; k" := (io_bind c (fun _ => k))
  (at level 61, right associativity) : io_scope.
Delimit Scope io_scope with io.
Local Open Scope py_scope.

(* ===================================================================== *)
(** * models/passport_data.py and models/g28_data.py                      *)
(* ===================================================================== *)

(** [datetime.date]: a calendar date, no time component. *)
Record date : Type := mkdate { year : nat; month : nat; day : nat }.

Definition is_leap (y : nat) : bool :=
  ((y mod 4 =? 0) && negb (y mod 100 =? 0)) || (y mod 400 =? 0).

Definition days_in_month (y m : nat) : nat :=
  match m with
  | 2 => if is_leap y then 29 else 28
  | 4 | 6 | 9 | 11 => 30
  | _ => 31
  end.

(** The dates [datetime.date(y, m, d)] constructs (MINYEAR = 1, MAXYEAR = 9999). *)
Definition valid_date (d : date) : bool :=
  (1 <=? year d) && (year d <=? 9999)
  && (1 <=? month d) && (month d <=? 12)
  && (1 <=? day d) && (day d <=? days_in_month (year d) (month d)).

(** [str(d)], i.e. [d.isoformat()]: [%04d-%02d-%02d]. *)
Definition date_str (d : date) : string :=
  zfill 4 (str_nat (year d)) ++ "-" ++ zfill 2 (str_nat (month d))
  ++ "-" ++ zfill 2 (str_nat (day d)).

(** [d.strftime("%m/%d/%Y")] *)
Definition date_strftime_mdY (d : date) : string :=
  zfill 2 (str_nat (month d)) ++ "/" ++ zfill 2 (str_nat (day d))
  ++ "/" ++ zfill 4 (str_nat (year d)).

Record PassportData : Type := mkPassportData {
  surname : option string;
  given_names : option string;
  middle_names : option string;
  passport_number : option string;
  country_of_issue : option string;
  nationality : option string;
  date_of_birth : option date;
  place_of_birth : option string;
  sex : option string;
  issue_date : option date;
  expiry_date : option date
}.

Record AttorneyInfo : Type := mkAttorneyInfo {
  a_first_name : option string;
  a_middle_name : option string;
  a_last_name : option string;
  a_street : option string;
  a_city : option string;
  a_state : option string;
  a_zip : option string;
  a_country : option string;
  a_phone : option string;
  a_email : option string;
  a_fax : option string;
  a_online_account : option string
}.

Record EligibilityInfo : Type := mkEligibilityInfo {
  licensing_authority : option string;
  bar_number : option string;
  law_firm : option string;
  is_not_subject_to_orders : option bool
}.

Record ClientInfo : Type := mkClientInfo {
  c_first_name : option string;
  c_middle_name : option string;
  c_last_name : option string;
  c_street : option string;
  c_city : option string;
  c_state : option string;
  c_zip : option string;
  c_country : option string;
  c_phone : option string;
  c_email : option string;
  c_a_number : option string
}.

Record G28Data : Type := mkG28Data {
  attorney : option AttorneyInfo;
  eligibility : option EligibilityInfo;
  client : option ClientInfo
}.

(** [PassportData()] and [G28Data()]: every field at its default [None]. *)
Definition empty_passport : PassportData :=
  mkPassportData None None None None None None None None None None None.

Definition empty_g28 : G28Data := mkG28Data None None None.

(* ===================================================================== *)
(** * utils/data_mapper.py                                                *)
(* ===================================================================== *)

Module DataMapper.

(** Attribute access through an [Optional[...]] group: on [None] Python
    raises [AttributeError]. *)
Definition deref {A : Type} (o : option A) : result A :=
  match o with
  | Some a => Ok a
  | None => Raise (AttributeError "'NoneType' object has no attribute")
  end.

(** Truth value of an optional model object or date: [None] is false, an
    instance is true (neither class defines [__bool__] or [__len__]). *)
Definition truthy_obj {A : Type} (o : option A) : bool :=
  match o with Some _ => true | None => false end.

(** The local helper [format_date] of [map_to_form_fields]; the function
    defines it and never calls it. *)
Definition format_date (date_obj : option date) : string :=
  match date_obj with
  | Some d => date_strftime_mdY d
  | None => ""
  end.

(** The local helper [get_value]. *)
Definition get_value (val : option string) : string :=
  match val with
  | Some v => v
  | None => ""
  end.

(** [str(x) if x else ""] for a date attribute. *)
Definition str_date_or_empty (x : option date) : result string :=
  if truthy_obj x then d <- deref x ;; Ok (date_str d) else Ok "".

Definition map_to_form_fields (passport_data : PassportData) (g28_data : G28Data)
  : result (dict string) :=
  let fields : dict string := [] in
  let fields := dict_set "passport-surname" (get_value (surname passport_data)) fields in
  let fields := dict_set "passport-given-names" (get_value (given_names passport_data)) fields in
  let fields := dict_set "passport-middle-name" (get_value (middle_names passport_data)) fields in
  let fields := dict_set "passport-number" (get_value (passport_number passport_data)) fields in
  let fields := dict_set "passport-country" (get_value (country_of_issue passport_data)) fields in
  let fields := dict_set "passport-nationality" (get_value (nationality passport_data)) fields in
  dob <- str_date_or_empty (date_of_birth passport_data) ;;
  let fields := dict_set "passport-dob" dob fields in
  let fields := dict_set "passport-pob" (get_value (place_of_birth passport_data)) fields in
  let fields := dict_set "passport-sex" (get_value (sex passport_data)) fields in
  issue <- str_date_or_empty (issue_date passport_data) ;;
  let fields := dict_set "passport-issue-date" issue fields in
  expiry <- str_date_or_empty (expiry_date passport_data) ;;
  let fields := dict_set "passport-expiry-date" expiry fields in
  fields <-
    (if truthy_obj (attorney g28_data) then
       a <- deref (attorney g28_data) ;;
       let fields := dict_set "online-account" (get_value (a_online_account a)) fields in
       let fields := dict_set "family-name" (get_value (a_last_name a)) fields in
       let fields := dict_set "given-name" (get_value (a_first_name a)) fields in
       let fields := dict_set "middle-name" (get_value (a_middle_name a)) fields in
       let fields := dict_set "street-number" (get_value (a_street a)) fields in
       let fields := dict_set "city" (get_value (a_city a)) fields in
       let fields := dict_set "state" (get_value (a_state a)) fields in
       let fields := dict_set "zip" (get_value (a_zip a)) fields in
       let fields := dict_set "country" (get_value (a_country a)) fields in
       let fields := dict_set "daytime-phone" (get_value (a_phone a)) fields in
       let fields := dict_set "email" (get_value (a_email a)) fields in
       Ok fields
     else Ok fields) ;;
  fields <-
    (if truthy_obj (eligibility g28_data) then
       e <- deref (eligibility g28_data) ;;
       let fields := dict_set "licensing-authority" (get_value (licensing_authority e)) fields in
       let fields := dict_set "bar-number" (get_value (bar_number e)) fields in
       let fields := dict_set "law-firm" (get_value (law_firm e)) fields in
       Ok fields
     else Ok fields) ;;
  Ok fields.

Definition get_checkbox_fields (g28_data : G28Data) : result (dict bool) :=
  let checkboxes : dict bool := [] in
  checkboxes <-
    (if truthy_obj (eligibility g28_data) then
       e <- deref (eligibility g28_data) ;;
       match is_not_subject_to_orders e with
       | Some b => Ok (dict_set "not-subject" b checkboxes)
       | None => Ok checkboxes
       end
     else Ok checkboxes) ;;
  Ok checkboxes.

(** ** The identifiers of the destination form

    Each table pairs an identifier with the attribute written under it. *)

Definition passport_text_slots : list (string * (PassportData -> option string)) :=
  [ ("passport-surname", surname);
    ("passport-given-names", given_names);
    ("passport-middle-name", middle_names);
    ("passport-number", passport_number);
    ("passport-country", country_of_issue);
    ("passport-nationality", nationality);
    ("passport-pob", place_of_birth);
    ("passport-sex", sex) ].

Definition passport_date_slots : list (string * (PassportData -> option date)) :=
  [ ("passport-dob", date_of_birth);
    ("passport-issue-date", issue_date);
    ("passport-expiry-date", expiry_date) ].

Definition attorney_slots : list (string * (AttorneyInfo -> option string)) :=
  [ ("online-account", a_online_account);
    ("family-name", a_last_name);
    ("given-name", a_first_name);
    ("middle-name", a_middle_name);
    ("street-number", a_street);
    ("city", a_city);
    ("state", a_state);
    ("zip", a_zip);
    ("country", a_country);
    ("daytime-phone", a_phone);
    ("email", a_email) ].

Definition eligibility_slots : list (string * (EligibilityInfo -> option string)) :=
  [ ("licensing-authority", licensing_authority);
    ("bar-number", bar_number);
    ("law-firm", law_firm) ].

(** Every value of a field map is the empty string. *)
Definition all_empty (fields : dict string) : Prop :=
  Forall (fun kv => snd kv = "") fields.

End DataMapper.

(* ===================================================================== *)
(** * extractors/combined_extraction.py                                   *)
(* ===================================================================== *)

Module Extraction.

(** ** Python values as [json.loads] returns them

    [PDate] is the [datetime.date] that [extract_data] stores back into the
    passport dictionary.  A float keeps its literal and whether it is zero
    (its truth value); nothing else of a float is used by the program. *)
Inductive pyvalue : Type :=
| PNone
| PBool (b : bool)
| PInt (z : Z)
| PFloat (is_zero : bool) (literal : string)
| PStr (s : string)
| PList (items : list pyvalue)
| PDict (pairs : list (string * pyvalue))
| PDate (d : date).

(** [bool(v)] *)
Definition truthy (v : pyvalue) : bool :=
  match v with
  | PNone => false
  | PBool b => b
  | PInt z => negb (Z.eqb z 0)
  | PFloat is_zero _ => negb is_zero
  | PStr s => negb (String.eqb s "")
  | PList items => match items with [] => false | _ => true end
  | PDict pairs => match pairs with [] => false | _ => true end
  | PDate _ => true
  end.

(** [isinstance(v, str)] *)
Definition isinstance_str (v : pyvalue) : bool :=
  match v with PStr _ => true | _ => false end.

(** [type(v).__name__] as it appears in error messages. *)
Definition type_name (v : pyvalue) : string :=
  match v with
  | PNone => "NoneType"
  | PBool _ => "bool"
  | PInt _ => "int"
  | PFloat _ _ => "float"
  | PStr _ => "str"
  | PList _ => "list"
  | PDict _ => "dict"
  | PDate _ => "datetime.date"
  end.

(** Looking up the method [get] on a value: only a [dict] has one. *)
Definition get_method (v : pyvalue) : result (dict pyvalue) :=
  match v with
  | PDict pairs => Ok pairs
  | _ => Raise (AttributeError
                  ("'" ++ type_name v ++ "' object has no attribute 'get'"))
  end.

(** [d.get(k)] and [d.get(k, default)] *)
Definition py_get (k : string) (d : dict pyvalue) : pyvalue :=
  match dict_get k d with Some v => v | None => PNone end.

Definition py_get_default (k : string) (default : pyvalue) (d : dict pyvalue)
  : pyvalue :=
  match dict_get k d with Some v => v | None => default end.

(** ** [datetime.strptime(s, '%Y-%m-%d').date()]

    [_strptime] compiles the format to the regular expression
    [(\d\d\d\d)-(1[0-2]|0[1-9]|[1-9])-(3[01]|[12]\d|0[1-9]|[1-9]| [1-9])],
    matches a prefix with the alternatives tried in that order, rejects
    unconverted trailing data, and builds the date, which rejects year 0
    and a day past the end of the month.  [None] stands for the
    [ValueError] raised in each of those cases. *)

Definition is_digit (c : ascii) : bool :=
  let n := nat_of_ascii c in (48 <=? n) && (n <=? 57).

Definition digit_val (c : ascii) : nat := nat_of_ascii c - 48.

Definition in_range (lo hi : nat) (c : ascii) : bool :=
  let n := nat_of_ascii c in (lo <=? n) && (n <=? hi).

(** [\d\d\d\d]: the year and what follows it. *)
Definition match_Y (s : string) : option (nat * string) :=
  match s with
  | String a (String b (String c (String d rest))) =>
      if is_digit a && is_digit b && is_digit c && is_digit d
      then Some (1000 * digit_val a + 100 * digit_val b
                 + 10 * digit_val c + digit_val d, rest)
      else None
  | _ => None
  end.

(** [1[0-2]|0[1-9]|[1-9]] *)
Definition match_m (s : string) : option (nat * string) :=
  match s with
  | String a rest =>
      match rest with
      | String b rest' =>
          if Ascii.eqb a "1" && in_range 48 50 b
          then Some (10 + digit_val b, rest')
          else if Ascii.eqb a "0" && in_range 49 57 b
          then Some (digit_val b, rest')
          else if in_range 49 57 a then Some (digit_val a, rest)
          else None
      | EmptyString =>
          if in_range 49 57 a then Some (digit_val a, rest) else None
      end
  | EmptyString => None
  end.

(** [3[01]|[12]\d|0[1-9]|[1-9]| [1-9]] *)
Definition match_d (s : string) : option (nat * string) :=
  match s with
  | String a rest =>
      match rest with
      | String b rest' =>
          if Ascii.eqb a "3" && in_range 48 49 b
          then Some (30 + digit_val b, rest')
          else if in_range 49 50 a && is_digit b
          then Some (10 * digit_val a + digit_val b, rest')
          else if Ascii.eqb a "0" && in_range 49 57 b
          then Some (digit_val b, rest')
          else if in_range 49 57 a then Some (digit_val a, rest)
          else if Ascii.eqb a " " && in_range 49 57 b
          then Some (digit_val b, rest')
          else None
      | EmptyString =>
          if in_range 49 57 a then Some (digit_val a, rest) else None
      end
  | EmptyString => None
  end.

Definition expect_char (c : ascii) (s : string) : option string :=
  match s with
  | String a rest => if Ascii.eqb a c then Some rest else None
  | EmptyString => None
  end.

Definition strptime_ymd (s : string) : option date :=
  match match_Y s with
  | None => None
  | Some (y, s1) =>
      match expect_char "-" s1 with
      | None => None
      | Some s2 =>
          match match_m s2 with
          | None => None
          | Some (m, s3) =>
              match expect_char "-" s3 with
              | None => None
              | Some s4 =>
                  match match_d s4 with
                  | None => None
                  | Some (d, s5) =>
                      match s5 with
                      | EmptyString =>
                          let dt := mkdate y m d in
                          if valid_date dt then Some dt else None
                      | String _ _ => None
                      end
                  end
              end
          end
      end
  end.

(** ** What [extract_data] takes from outside the repository *)

Record Services : Type := mkServices {
  (** [GenerativeModel(GEMINI_MODEL_NAME).generate_content(prompt).text]:
      the response text, or the exception the client raised. *)
  generate_content : string -> result string;
  (** [json.loads]: the value, or the message and position of the
      [JSONDecodeError]. *)
  json_loads : string -> (string * nat) + pyvalue;
  (** pydantic's lax coercion to [date] of a value that is neither [None],
      a [date], a list nor a dict ([None]: not coercible). *)
  lax_date : pyvalue -> option date;
  (** pydantic's lax coercion to [bool] of a value that is neither [None],
      a [bool], a list nor a dict. *)
  lax_bool : pyvalue -> option bool;
  (** [config.GEMINI_MODEL_NAME] *)
  GEMINI_MODEL_NAME : string
}.

(** ** pydantic validation of the models' fields *)

Definition validation_error {A : Type} (model : string) : result A :=
  Raise (ValidationError model).

(** A field declared [Optional[str]]: [None] or a [str]; pydantic does not
    coerce other values to [str]. *)
Definition field_str (model : string) (kw : dict pyvalue) (name : string)
  : result (option string) :=
  match dict_get name kw with
  | None => Ok None
  | Some PNone => Ok None
  | Some (PStr s) => Ok (Some s)
  | Some _ => validation_error model
  end.

(** A field declared [Optional[date]]. *)
Definition field_date (env : Services) (model : string) (kw : dict pyvalue)
  (name : string) : result (option date) :=
  match dict_get name kw with
  | None => Ok None
  | Some PNone => Ok None
  | Some (PDate d) => Ok (Some d)
  | Some (PList _) | Some (PDict _) => validation_error model
  | Some v =>
      match lax_date env v with
      | Some d => Ok (Some d)
      | None => validation_error model
      end
  end.

(** A field declared [Optional[bool]]. *)
Definition field_bool (env : Services) (model : string) (kw : dict pyvalue)
  (name : string) : result (option bool) :=
  match dict_get name kw with
  | None => Ok None
  | Some PNone => Ok None
  | Some (PBool b) => Ok (Some b)
  | Some (PList _) | Some (PDict _) | Some (PDate _) => validation_error model
  | Some v =>
      match lax_bool env v with
      | Some b => Ok (Some b)
      | None => validation_error model
      end
  end.

(** [PassportData] called with the keyword arguments [kw]: unknown keys are ignored, missing ones default to
    [None]. *)
Definition PassportData_init (env : Services) (kw : dict pyvalue)
  : result PassportData :=
  let m := "PassportData" in
  f1 <- field_str m kw "surname" ;;
  f2 <- field_str m kw "given_names" ;;
  f3 <- field_str m kw "middle_names" ;;
  f4 <- field_str m kw "passport_number" ;;
  f5 <- field_str m kw "country_of_issue" ;;
  f6 <- field_str m kw "nationality" ;;
  f7 <- field_date env m kw "date_of_birth" ;;
  f8 <- field_str m kw "place_of_birth" ;;
  f9 <- field_str m kw "sex" ;;
  f10 <- field_date env m kw "issue_date" ;;
  f11 <- field_date env m kw "expiry_date" ;;
  Ok (mkPassportData f1 f2 f3 f4 f5 f6 f7 f8 f9 f10 f11).

Definition AttorneyInfo_init (kw : dict pyvalue) : result AttorneyInfo :=
  let m := "AttorneyInfo" in
  f1 <- field_str m kw "first_name" ;;
  f2 <- field_str m kw "middle_name" ;;
  f3 <- field_str m kw "last_name" ;;
  f4 <- field_str m kw "street" ;;
  f5 <- field_str m kw "city" ;;
  f6 <- field_str m kw "state" ;;
  f7 <- field_str m kw "zip" ;;
  f8 <- field_str m kw "country" ;;
  f9 <- field_str m kw "phone" ;;
  f10 <- field_str m kw "email" ;;
  f11 <- field_str m kw "fax" ;;
  f12 <- field_str m kw "online_account" ;;
  Ok (mkAttorneyInfo f1 f2 f3 f4 f5 f6 f7 f8 f9 f10 f11 f12).

Definition EligibilityInfo_init (env : Services) (kw : dict pyvalue)
  : result EligibilityInfo :=
  let m := "EligibilityInfo" in
  f1 <- field_str m kw "licensing_authority" ;;
  f2 <- field_str m kw "bar_number" ;;
  f3 <- field_str m kw "law_firm" ;;
  f4 <- field_bool env m kw "is_not_subject_to_orders" ;;
  Ok (mkEligibilityInfo f1 f2 f3 f4).

Definition ClientInfo_init (kw : dict pyvalue) : result ClientInfo :=
  let m := "ClientInfo" in
  f1 <- field_str m kw "first_name" ;;
  f2 <- field_str m kw "middle_name" ;;
  f3 <- field_str m kw "last_name" ;;
  f4 <- field_str m kw "street" ;;
  f5 <- field_str m kw "city" ;;
  f6 <- field_str m kw "state" ;;
  f7 <- field_str m kw "zip" ;;
  f8 <- field_str m kw "country" ;;
  f9 <- field_str m kw "phone" ;;
  f10 <- field_str m kw "email" ;;
  f11 <- field_str m kw "a_number" ;;
  Ok (mkClientInfo f1 f2 f3 f4 f5 f6 f7 f8 f9 f10 f11).

(** Unpacking [v] as keyword arguments of [callee]: [v] must be a mapping. *)
Definition unpack_mapping (callee : string) (v : pyvalue) : result (dict pyvalue) :=
  match v with
  | PDict pairs => Ok pairs
  | _ => Raise (TypeError (callee ++ "() argument after ** must be a mapping, not "
                           ++ type_name v))
  end.

(** ** The prompt (an f-string over the two input texts) *)

Definition build_prompt (passport_text g28_text : string) : string :=
  join newline [
    "Extract structured data from passport and G-28 form text.";
    "";
    "IMPORTANT: Cross-validate data - the client name in G-28 should match ";
    "the passport holder name. If there are discrepancies, give the passport data and note them in validation_notes, ";
    "";
    "Passport Text:";
    passport_text;
    "";
    "G-28 Form Text:";
    g28_text;
    "";
    "Return ONLY valid JSON with no additional text, comments, or markdown formatting.";
    "";
    "The JSON must have this exact structure:";
    "{";
    "  " ++ quoted "passport" ++ ": {";
    "    " ++ quoted "surname" ++ ": " ++ quoted "string or null" ++ ",";
    "    " ++ quoted "given_names" ++ ": " ++ quoted "string or null" ++ ",";
    "    " ++ quoted "middle_names" ++ ": " ++ quoted "string or null" ++ ",";
    "    " ++ quoted "passport_number" ++ ": " ++ quoted "string or null" ++ ",";
    "    " ++ quoted "country_of_issue" ++ ": " ++ quoted "string or null" ++ ",";
    "    " ++ quoted "nationality" ++ ": " ++ quoted "string or null" ++ ",";
    "    " ++ quoted "date_of_birth" ++ ": " ++ quoted "YYYY-MM-DD or null" ++ ",";
    "    " ++ quoted "place_of_birth" ++ ": " ++ quoted "string or null" ++ ",";
    "    " ++ quoted "sex" ++ ": " ++ quoted "M/F/X or null" ++ ",";
    "    " ++ quoted "issue_date" ++ ": " ++ quoted "YYYY-MM-DD or null" ++ ",";
    "    " ++ quoted "expiry_date" ++ ": " ++ quoted "YYYY-MM-DD or null";
    "  },";
    "  " ++ quoted "g28" ++ ": {";
    "    " ++ quoted "attorney" ++ ": {";
    "      " ++ quoted "first_name" ++ ": " ++ quoted "string or null" ++ ",";
    "      " ++ quoted "middle_name" ++ ": " ++ quoted "string or null" ++ ",";
    "      " ++ quoted "last_name" ++ ": " ++ quoted "string or null" ++ ",";
    "      " ++ quoted "street" ++ ": " ++ quoted "string or null" ++ ",";
    "      " ++ quoted "city" ++ ": " ++ quoted "string or null" ++ ",";
    "      " ++ quoted "state" ++ ": " ++ quoted "string or null (use state abbreviation if available)" ++ ",";
    "      " ++ quoted "zip" ++ ": " ++ quoted "string or null" ++ ",";
    "      " ++ quoted "country" ++ ": " ++ quoted "string or null" ++ ",";
    "      " ++ quoted "phone" ++ ": " ++ quoted "string or null" ++ ",";
    "      " ++ quoted "email" ++ ": " ++ quoted "string or null" ++ ",";
    "      " ++ quoted "fax" ++ ": " ++ quoted "string or null" ++ ",";
    "      " ++ quoted "online_account" ++ ": " ++ quoted "string or null";
    "    },";
    "    " ++ quoted "eligibility" ++ ": {";
    "      " ++ quoted "licensing_authority" ++ ": " ++ quoted "string or null" ++ ",";
    "      " ++ quoted "bar_number" ++ ": " ++ quoted "string or null" ++ ",";
    "      " ++ quoted "law_firm" ++ ": " ++ quoted "string or null" ++ ",";
    "      " ++ quoted "is_not_subject_to_orders" ++ ": true or false or null";
    "    },";
    "    " ++ quoted "client" ++ ": {";
    "      " ++ quoted "first_name" ++ ": " ++ quoted "string or null" ++ ",";
    "      " ++ quoted "middle_name" ++ ": " ++ quoted "string or null" ++ ",";
    "      " ++ quoted "last_name" ++ ": " ++ quoted "string or null" ++ ",";
    "      " ++ quoted "street" ++ ": " ++ quoted "string or null" ++ ",";
    "      " ++ quoted "city" ++ ": " ++ quoted "string or null" ++ ",";
    "      " ++ quoted "state" ++ ": " ++ quoted "string or null" ++ ",";
    "      " ++ quoted "zip" ++ ": " ++ quoted "string or null" ++ ",";
    "      " ++ quoted "country" ++ ": " ++ quoted "string or null" ++ ",";
    "      " ++ quoted "phone" ++ ": " ++ quoted "string or null" ++ ",";
    "      " ++ quoted "email" ++ ": " ++ quoted "string or null" ++ ",";
    "      " ++ quoted "a_number" ++ ": " ++ quoted "string or null";
    "    }";
    "  },";
    "  " ++ quoted "validation_notes" ++ ": " ++ quoted "string or null - any discrepancies or validation issues";
    "}"
  ].

(** ** The body of [extract_data] *)

(** Removal of a markdown code fence around the response:
    [response.text.strip()], the three prefix and suffix tests, [strip()]. *)
Definition strip_fences (response_text : string) : string :=
  let response_text := strip response_text in
  let response_text :=
    if startswith "```json" response_text then drop 7 response_text
    else response_text in
  let response_text :=
    if startswith "```" response_text then drop 3 response_text
    else response_text in
  let response_text :=
    if endswith "```" response_text then drop_last 3 response_text
    else response_text in
  strip response_text.

(** The parse step and its handler: a [JSONDecodeError] becomes a
    [ValueError] whose message embeds the decoder's diagnostic. *)
Definition parse_response (env : Services) (response_text : string)
  : result pyvalue :=
  match json_loads env response_text with
  | inr data => Ok data
  | inl (msg, pos) =>
      Raise (ValueError
               ("Gemini API returned invalid JSON format. "
                ++ "JSON parsing error: "
                ++ str_JSONDecodeError msg response_text pos))
  end.

Definition date_fields : list string :=
  ["date_of_birth"; "issue_date"; "expiry_date"].

(** One round of the loop over the date fields: a value that is true and a
    [str] is replaced by the parsed date, or by [None] when [strptime]
    raises; any other value is left as it is. *)
Definition convert_date_field (passport_dict : dict pyvalue) (date_field : string)
  : dict pyvalue :=
  let v := py_get date_field passport_dict in
  if truthy v && isinstance_str v then
    match v with
    | PStr s =>
        match strptime_ymd s with
        | Some d => dict_set date_field (PDate d) passport_dict
        | None => dict_set date_field PNone passport_dict
        end
    | _ => passport_dict
    end
  else passport_dict.

(** An optional group of the G-28 object: absent or false gives [None],
    otherwise the group's model is built from it. *)
Definition build_group {A : Type} (callee key : string)
  (init : dict pyvalue -> result A) (g28_dict : dict pyvalue)
  : result (option A) :=
  if truthy (py_get key g28_dict) then
    kw <- unpack_mapping callee (py_get_default key (PDict []) g28_dict) ;;
    a <- init kw ;;
    Ok (Some a)
  else Ok None.

(** From the parsed document to the two records (the statements after the
    parse step).  Reading and logging [validation_notes] has no effect on
    the result. *)
Definition build_records (env : Services) (data : pyvalue)
  : result (PassportData * G28Data) :=
  data_dict <- get_method data ;;
  passport_dict <- get_method (py_get_default "passport" (PDict []) data_dict) ;;
  let passport_dict := fold_left convert_date_field date_fields passport_dict in
  passport_data <- PassportData_init env passport_dict ;;
  g28_dict <- get_method (py_get_default "g28" (PDict []) data_dict) ;;
  attorney <- build_group "models.g28_data.AttorneyInfo" "attorney"
                AttorneyInfo_init g28_dict ;;
  eligibility <- build_group "models.g28_data.EligibilityInfo" "eligibility"
                   (EligibilityInfo_init env) g28_dict ;;
  client <- build_group "models.g28_data.ClientInfo" "client"
              ClientInfo_init g28_dict ;;
  Ok (passport_data, mkG28Data attorney eligibility client).

(** The messages of the last handler. *)
Definition auth_message : string :=
  "Gemini API authentication failed. "
  ++ "Please verify your GEMINI_API_KEY in .env file.".

Definition quota_message : string :=
  "Gemini API quota exceeded or rate limit reached. "
  ++ "Please try again later.".

Definition model_message (env : Services) : string :=
  "Invalid Gemini model name: " ++ GEMINI_MODEL_NAME env ++ ". "
  ++ "Please check GEMINI_MODEL_NAME in .env file.".

Definition generic_message (error_msg : string) : string :=
  "LLM extraction error: " ++ error_msg ++ ". "
  ++ "Please check your API key and model configuration.".

(** The [if]/[elif] chain over [error_msg = str(e)]. *)
Definition classify_error (env : Services) (error_msg : string) : string :=
  if contains "API key" error_msg || contains "authentication" (lower error_msg)
  then auth_message
  else if contains "quota" (lower error_msg) || contains "rate limit" (lower error_msg)
  then quota_message
  else if contains "model" (lower error_msg)
  then model_message env
  else generic_message error_msg.

(** The two handlers of the outer [try]: a [ValueError] (or a subclass) is
    raised again unchanged; any other exception is classified by its text. *)
Definition outer_handler {A : Type} (env : Services) (e : exception) : result A :=
  if is_ValueError e then Raise e
  else
    let error_msg := str_exception e in
    Raise (ValueError (classify_error env error_msg)).

Definition extract_data (env : Services) (passport_text g28_text : string)
  : result (PassportData * G28Data) :=
  try_except
    (let prompt := build_prompt passport_text g28_text in
     response_text <- generate_content env prompt ;;
     let response_text := strip_fences response_text in
     data <- parse_response env response_text ;;
     build_records env data)
    (outer_handler env).

(** ** Vocabulary for the properties of [extract_data] *)

(** The call raised an exception that is a [ValueError] (the extraction
    error of the program). *)
Definition raises_ValueError {A : Type} (r : result A) : Prop :=
  exists e, r = Raise e /\ is_ValueError e = true.

(** A JSON object. *)
Definition is_object (v : pyvalue) : bool :=
  match v with PDict _ => true | _ => false end.

(** [p] occurs in [s] as written. *)
Definition occurs (p s : string) : Prop :=
  exists pre post, s = pre ++ p ++ post.

(** [p] occurs in [s] in some letter case. *)
Definition occurs_ignoring_case (p s : string) : Prop :=
  exists pre mid post, s = pre ++ mid ++ post /\ lower mid = lower p.

(** The date attribute of a passport record, by the name of its field. *)
Definition passport_date (date_field : string) (p : PassportData) : option date :=
  if String.eqb date_field "date_of_birth" then date_of_birth p
  else if String.eqb date_field "issue_date" then issue_date p
  else expiry_date p.

(** A non-empty string that [strptime] rejects. *)
Definition unparseable (s : string) : Prop :=
  s <> "" /\ strptime_ymd s = None.

(** The document [pairs] with the field [f] of its passport object [pd]
    set to [null]. *)
Definition with_null_date (f : string) (pairs pd : dict pyvalue) : pyvalue :=
  PDict (dict_set "passport" (PDict (dict_set f PNone pd)) pairs).

End Extraction.

(* ===================================================================== *)
(** * A JSON decoder                                                      *)
(* ===================================================================== *)

(** [extract_data] is parametric in the decoder ([json_loads] of
    [Services]).  The decoder below instantiates it where a statement is
    evaluated on a concrete response text.  It follows the scanner of
    CPython's [json] package (its grammar, its acceptance of [NaN] and
    [Infinity], its error messages and positions), on the model's
    character range: a [\u] escape above [00ff] is reported as an error. *)

Module JsonDecoder.
Import Extraction.

Inductive scan (A : Type) : Type :=
| Scanned (a : A) (rest : string) (idx : nat)
| ScanError (msg : string) (pos : nat).
Arguments Scanned {A} a rest idx.
Arguments ScanError {A} msg pos.

Definition is_ws (c : ascii) : bool :=
  let n := nat_of_ascii c in
  (n =? 32) || (n =? 9) || (n =? 10) || (n =? 13).

Fixpoint skip_ws (s : string) (idx : nat) : string * nat :=
  match s with
  | String c s' => if is_ws c then skip_ws s' (S idx) else (s, idx)
  | EmptyString => (s, idx)
  end.

Definition backslash : ascii := ascii_of_nat 92.
Definition dq : ascii := ascii_of_nat 34.

Definition hex_val (c : ascii) : option nat :=
  let n := nat_of_ascii c in
  if (48 <=? n) && (n <=? 57) then Some (n - 48)
  else if (97 <=? n) && (n <=? 102) then Some (n - 87)
  else if (65 <=? n) && (n <=? 70) then Some (n - 55)
  else None.

Definition hex4 (a b c d : ascii) : option nat :=
  match hex_val a, hex_val b, hex_val c, hex_val d with
  | Some x, Some y, Some z, Some w => Some (4096 * x + 256 * y + 16 * z + w)
  | _, _, _, _ => None
  end.

(** The one-letter escapes. *)
Definition unescape (e : ascii) : option ascii :=
  let n := nat_of_ascii e in
  if n =? 34 then Some dq
  else if n =? 92 then Some backslash
  else if n =? 47 then Some "/"%char
  else if n =? 98 then Some (ascii_of_nat 8)
  else if n =? 102 then Some (ascii_of_nat 12)
  else if n =? 110 then Some (ascii_of_nat 10)
  else if n =? 114 then Some (ascii_of_nat 13)
  else if n =? 116 then Some (ascii_of_nat 9)
  else None.

Definition scan_cons (c : ascii) (r : scan string) : scan string :=
  match r with
  | Scanned a rest idx => Scanned (String c a) rest idx
  | ScanError msg pos => ScanError msg pos
  end.

(** The content of a string literal; [s] starts after the opening quote,
    which stands at [begin]. *)
Fixpoint scanstring (s : string) (idx begin : nat) : scan string :=
  match s with
  | EmptyString => ScanError "Unterminated string starting at" begin
  | String c rest =>
      if Ascii.eqb c dq then Scanned "" rest (S idx)
      else if Ascii.eqb c backslash then
        match rest with
        | EmptyString => ScanError "Unterminated string starting at" begin
        | String e rest2 =>
            if Ascii.eqb e "u" then
              match rest2 with
              | String h1 (String h2 (String h3 (String h4 (String _ _ as rest3)))) =>
                  match hex4 h1 h2 h3 h4 with
                  | Some n =>
                      if n <? 256
                      then scan_cons (ascii_of_nat n)
                             (scanstring rest3 (idx + 6) begin)
                      else ScanError "escape outside the modelled character range" (S idx)
                  | None => ScanError "Invalid \uXXXX escape" (S idx)
                  end
              | _ => ScanError "Invalid \uXXXX escape" (S idx)
              end
            else
              match unescape e with
              | Some ch => scan_cons ch (scanstring rest2 (idx + 2) begin)
              | None => ScanError "Invalid \escape" idx
              end
        end
      else if nat_of_ascii c <? 32 then ScanError "Invalid control character at" idx
      else scan_cons c (scanstring rest (S idx) begin)
  end.

Fixpoint span_digits (s : string) : string * string :=
  match s with
  | String c s' =>
      if is_digit c then let (ds, rest) := span_digits s' in (String c ds, rest)
      else ("", s)
  | EmptyString => ("", s)
  end.

Fixpoint Z_of_digits (s : string) (acc : Z) : Z :=
  match s with
  | EmptyString => acc
  | String c s' => Z_of_digits s' (10 * acc + Z.of_nat (digit_val c))%Z
  end.

Fixpoint all_zero (s : string) : bool :=
  match s with
  | EmptyString => true
  | String c s' => Ascii.eqb c "0" && all_zero s'
  end.

(** The number pattern: an optional minus sign, then 0 or a digit string
    with no leading zero, an optional fraction (a dot and digits) and an
    optional exponent (e or E, an optional sign, digits).  The result is the
    value and the number of characters matched. *)
Definition match_number (s : string) : option (pyvalue * nat) :=
  let (sign, s1) :=
    match s with
    | String c r => if Ascii.eqb c "-" then ("-", r) else ("", s)
    | EmptyString => ("", s)
    end in
  let int_part :=
    match s1 with
    | String c r =>
        if Ascii.eqb c "0" then Some ("0", r)
        else if in_range 49 57 c
        then let (ds, rest) := span_digits r in Some (String c ds, rest)
        else None
    | EmptyString => None
    end in
  match int_part with
  | None => None
  | Some (integer, s2) =>
      let (frac, s3) :=
        match s2 with
        | String c r =>
            if Ascii.eqb c "." then
              let (ds, rest) := span_digits r in
              if String.eqb ds "" then ("", s2) else (String c ds, rest)
            else ("", s2)
        | EmptyString => ("", s2)
        end in
      let (exp, s4) :=
        match s3 with
        | String c r =>
            if Ascii.eqb c "e" || Ascii.eqb c "E" then
              let (sg, r') :=
                match r with
                | String c' r'' =>
                    if Ascii.eqb c' "-" || Ascii.eqb c' "+"
                    then (String c' "", r'') else ("", r)
                | EmptyString => ("", r)
                end in
              let (ds, rest) := span_digits r' in
              if String.eqb ds "" then ("", s3) else (String c (sg ++ ds), rest)
            else ("", s3)
        | EmptyString => ("", s3)
        end in
      let matched := sign ++ integer ++ frac ++ exp in
      let v :=
        if String.eqb frac "" && String.eqb exp ""
        then PInt (if String.eqb sign "" then Z_of_digits integer 0
                   else Z.opp (Z_of_digits integer 0))
        else PFloat (all_zero integer && all_zero (drop 1 frac)) matched in
      Some (v, String.length matched)
  end.

Definition head_is (c : ascii) (s : string) : bool :=
  match s with
  | String a _ => Ascii.eqb a c
  | EmptyString => false
  end.

(** [scan_once] with the loops of [JSONObject] and [JSONArray].  [fuel]
    bounds the nesting of calls; a text of length [n] needs at most [n + 1]. *)
Fixpoint scan_once (fuel : nat) (s : string) (idx : nat) {struct fuel}
  : scan pyvalue :=
  match fuel with
  | O => ScanError "Expecting value" idx
  | S fuel' =>
      match s with
      | EmptyString => ScanError "Expecting value" idx
      | String c rest =>
          if Ascii.eqb c dq then
            match scanstring rest (S idx) idx with
            | Scanned str rest' idx' => Scanned (PStr str) rest' idx'
            | ScanError msg pos => ScanError msg pos
            end
          else if Ascii.eqb c "{" then
            let (r, i) := skip_ws rest (S idx) in
            if head_is "}" r then Scanned (PDict []) (drop 1 r) (S i)
            else if head_is dq r then object_loop fuel' (drop 1 r) (S i) []
            else ScanError "Expecting property name enclosed in double quotes" i
          else if Ascii.eqb c "[" then
            let (r, i) := skip_ws rest (S idx) in
            if head_is "]" r then Scanned (PList []) (drop 1 r) (S i)
            else array_loop fuel' r i []
          else if startswith "null" s then Scanned PNone (drop 4 s) (idx + 4)
          else if startswith "true" s then Scanned (PBool true) (drop 4 s) (idx + 4)
          else if startswith "false" s then Scanned (PBool false) (drop 5 s) (idx + 5)
          else
            match match_number s with
            | Some (v, n) => Scanned v (drop n s) (idx + n)
            | None =>
                if startswith "NaN" s
                then Scanned (PFloat false "NaN") (drop 3 s) (idx + 3)
                else if startswith "Infinity" s
                then Scanned (PFloat false "Infinity") (drop 8 s) (idx + 8)
                else if startswith "-Infinity" s
                then Scanned (PFloat false "-Infinity") (drop 9 s) (idx + 9)
                else ScanError "Expecting value" idx
            end
      end
  end

with object_loop (fuel : nat) (s : string) (idx : nat) (pairs : dict pyvalue)
  {struct fuel} : scan pyvalue :=
  match fuel with
  | O => ScanError "Expecting value" idx
  | S fuel' =>
      match scanstring s idx (idx - 1) with
      | ScanError msg pos => ScanError msg pos
      | Scanned key r0 i0 =>
          let (r1, i1) := if head_is ":" r0 then (r0, i0) else skip_ws r0 i0 in
          if negb (head_is ":" r1) then ScanError "Expecting ':' delimiter" i1
          else
            let (r2, i2) := skip_ws (drop 1 r1) (S i1) in
            match scan_once fuel' r2 i2 with
            | ScanError msg pos => ScanError msg pos
            | Scanned value r3 i3 =>
                let pairs := dict_set key value pairs in
                let (r4, i4) := skip_ws r3 i3 in
                if head_is "}" r4 then Scanned (PDict pairs) (drop 1 r4) (S i4)
                else if negb (head_is "," r4)
                then ScanError "Expecting ',' delimiter" i4
                else
                  let (r5, i5) := skip_ws (drop 1 r4) (S i4) in
                  if head_is dq r5 then object_loop fuel' (drop 1 r5) (S i5) pairs
                  else ScanError
                         "Expecting property name enclosed in double quotes" i5
            end
      end
  end

with array_loop (fuel : nat) (s : string) (idx : nat) (values : list pyvalue)
  {struct fuel} : scan pyvalue :=
  match fuel with
  | O => ScanError "Expecting value" idx
  | S fuel' =>
      match scan_once fuel' s idx with
      | ScanError msg pos => ScanError msg pos
      | Scanned value r0 i0 =>
          let values := (values ++ [value])%list in
          let (r1, i1) := skip_ws r0 i0 in
          if head_is "]" r1 then Scanned (PList values) (drop 1 r1) (S i1)
          else if negb (head_is "," r1)
          then ScanError "Expecting ',' delimiter" i1
          else
            let (r2, i2) := skip_ws (drop 1 r1) (S i1) in
            array_loop fuel' r2 i2 values
      end
  end.

(** [json.loads(s)]: one value between optional white space, then the end
    of the text. *)
Definition loads (s : string) : (string * nat) + pyvalue :=
  let (r, i) := skip_ws s 0 in
  match scan_once (S (String.length s)) r i with
  | ScanError msg pos => inl (msg, pos)
  | Scanned v rest idx =>
      let (rest', idx') := skip_ws rest idx in
      match rest' with
      | EmptyString => inr v
      | String _ _ => inl ("Extra data", idx')
      end
  end.

End JsonDecoder.

(* ===================================================================== *)
(** * utils/pdf_handler.py and utils/ocr_handler.py                       *)
(* ===================================================================== *)

Module Ocr.

(** A [pathlib.Path], by the two attributes the code reads. *)
Record Path : Type := mkPath { path_name : string; path_suffix : string }.

(** The calls that leave the process, tagged with the function of the
    repository that makes them. *)
Inductive call : Type :=
| OpenForText (file_path : Path)
| OpenForPageCount (file_path : Path)
| OpenForRender (file_path : Path) (page_num : nat)
| OpenImage (file_path : Path)
| InitOcr
| RunOcr
| GeminiConfigure
| GeminiUpload (file_path : Path)
| GeminiGenerate
| GeminiDelete (name : string).

(** One entry of PaddleOCR's result for a page: [bbox, (text, confidence)],
    [bbox, text], or something else; [None] stands for a line that is false
    or shorter than two items. *)
Inductive text_info : Type :=
| TextConf (text : string) (confidence : float)
| TextOnly (text : string)
| OtherInfo.

Definition ocr_line : Type := option text_info.

Section WithWorld.

Variables W Image : Type.

(** A page of an opened PDF: the outcome of [page.get_text()] and of
    rendering it ([get_pixmap], [Image.frombytes]). *)
Record Page : Type := mkPage {
  get_text : outcome string string;
  get_pixmap : outcome string Image
}.

(** The libraries behind the two modules, acting on a world [W]. *)
Record World : Type := mkWorld {
  fitz_open : Path -> W -> outcome string (list Page) * W;
  image_open : Path -> W -> outcome string Image * W;
  image_is_RGB : Image -> bool;
  image_convert_RGB : Image -> Image;
  enhance_contrast : float -> Image -> Image;
  enhance_sharpness : float -> Image -> Image;
  paddle_init : W -> outcome string unit * W;
  paddle_ocr : Image -> W -> outcome string (list (option (list ocr_line))) * W;
  gemini_configure : W -> outcome string unit * W;
  gemini_upload : Path -> W -> outcome string string * W;
  (** [model.generate_content([prompt, file_or_image])]: the outcome of
      reading [response.text] ([None] or a string). *)
  gemini_generate_file : string -> string -> W
                         -> outcome string (outcome string (option string)) * W;
  gemini_generate_image : string -> Image -> W
                          -> outcome string (outcome string (option string)) * W;
  gemini_delete : string -> W -> outcome string unit * W
}.

Variable world : World.

(** The state: the world, the calls made so far, and the module global
    [_ocr_reader] (whether the engine has been constructed). *)
Record state : Type := mkState {
  the_world : W;
  trace : list call;
  ocr_reader : bool
}.

Definition prog (A : Type) : Type := io string state A.

Definition perform {A : Type} (c : call) (op : W -> outcome string A * W)
  : prog A :=
  fun s =>
    let (r, w') := op (the_world s) in
    (r, mkState w' (trace s ++ [c])%list (ocr_reader s)).

Definition lift {A : Type} (r : outcome string A) : prog A := fun s => (r, s).

Local Open Scope io_scope.

(** ** pdf_handler.py *)

Definition page_marker (page_num : nat) : string :=
  "[Page " ++ str_nat (page_num + 1) ++ "]" ++ newline.

Fixpoint page_text_parts (pages : list Page) (page_num : nat)
  : outcome string (list string) :=
  match pages with
  | [] => Ok []
  | page :: rest =>
      bind (get_text page) (fun text =>
      bind (page_text_parts rest (S page_num)) (fun parts =>
      Ok (if String.eqb text "" then parts
          else (page_marker page_num ++ text) :: parts)))
  end.

Definition extract_text_from_pdf (file_path : Path) : prog (option string) :=
  io_try
    (doc <- perform (OpenForText file_path) (fitz_open world file_path) ;;
     text_parts <- lift (page_text_parts doc 0) ;;
     match text_parts with
     | [] => io_ret None
     | _ => io_ret (Some (join (newline ++ newline) text_parts))
     end)
    (fun _ => io_ret None).

Definition convert_pdf_page_to_image (file_path : Path) (page_num : nat)
  : prog (option Image) :=
  io_try
    (doc <- perform (OpenForRender file_path page_num) (fitz_open world file_path) ;;
     if length doc <=? page_num then io_ret None
     else
       match nth_error doc page_num with
       | Some page => img <- lift (get_pixmap page) ;; io_ret (Some img)
       | None => io_ret None
       end)
    (fun _ => io_ret None).

Definition get_pdf_page_count (file_path : Path) : prog nat :=
  io_try
    (doc <- perform (OpenForPageCount file_path) (fitz_open world file_path) ;;
     io_ret (length doc))
    (fun _ => io_ret 0).

(** ** ocr_handler.py *)

Definition _get_ocr_reader : prog unit :=
  fun s =>
    if ocr_reader s then (Ok tt, s)
    else
      match perform InitOcr (paddle_init world) s with
      | (Ok _, s') => (Ok tt, mkState (the_world s') (trace s') true)
      | (Raise e, s') => (Raise e, s')
      end.

Definition preprocess_image (image : Image) : Image :=
  let image := if image_is_RGB world image then image
               else image_convert_RGB world image in
  let image := enhance_contrast world 1.2%float image in
  let image := enhance_sharpness world 1.1%float image in
  image.

(** The loop over [results[0]]: the texts whose confidence is above 0.3. *)
Fixpoint confident_texts (lines : list ocr_line) : list string :=
  match lines with
  | [] => []
  | line :: rest =>
      match line with
      | Some (TextConf text confidence) =>
          if PrimFloat.ltb 0.3%float confidence
          then text :: confident_texts rest else confident_texts rest
      | Some (TextOnly text) =>
          if PrimFloat.ltb 0.3%float 1.0%float
          then text :: confident_texts rest else confident_texts rest
      | Some OtherInfo | None => confident_texts rest
      end
  end.

Definition extract_text_from_image (image : Image) : prog (option string) :=
  io_try
    (let image := preprocess_image image in
     _get_ocr_reader ;;;
     results <- perform RunOcr (paddle_ocr world image) ;;
     match results with
     | [] | None :: _ | Some [] :: _ => io_ret None
     | Some lines :: _ =>
         match confident_texts lines with
         | [] => io_ret None
         | text_parts => io_ret (Some (join " " text_parts))
         end
     end)
    (fun _ => io_ret None).

(** The test both acquisition functions apply to the directly extracted
    text: [text and len(text.strip()) >= 50]. *)
Definition direct_text_sufficient (text : option string) : bool :=
  match text with
  | Some t => negb (String.eqb t "") && (50 <=? String.length (strip t))
  | None => false
  end.

(** The loop over [range(page_count)] of the OCR fallback. *)
Fixpoint ocr_pages (file_path : Path) (page_nums : list nat)
  : prog (list string) :=
  match page_nums with
  | [] => io_ret []
  | page_num :: rest =>
      block <- io_try
                 (image <- convert_pdf_page_to_image file_path page_num ;;
                  match image with
                  | None => io_ret None
                  | Some image =>
                      page_text <- extract_text_from_image image ;;
                      match page_text with
                      | None => io_ret None
                      | Some t =>
                          if String.eqb t "" then io_ret None
                          else io_ret (Some (page_marker page_num ++ t))
                      end
                  end)
                 (fun _ => io_ret None) ;;
      blocks <- ocr_pages file_path rest ;;
      io_ret (match block with Some b => b :: blocks | None => blocks end)
  end.

(** The statements of the PDF branch after the direct text was found
    insufficient: OCR on all pages. *)
Definition ocr_fallback (file_path : Path) : prog (option string) :=
  page_count <- get_pdf_page_count file_path ;;
  if page_count =? 0 then io_ret None
  else
    page_texts <- ocr_pages file_path (seq 0 page_count) ;;
    match page_texts with
    | [] => io_ret None
    | _ => io_ret (Some (join (newline ++ newline) page_texts))
    end.

Definition is_image_ext (file_ext : string) : bool :=
  String.eqb file_ext ".jpg" || String.eqb file_ext ".jpeg"
  || String.eqb file_ext ".png".

Definition extract_text_from_pdf_or_image (file_path : Path)
  : prog (option string) :=
  let file_ext := lower (path_suffix file_path) in
  if String.eqb file_ext ".pdf" then
    text <- extract_text_from_pdf file_path ;;
    if direct_text_sufficient text then io_ret text
    else ocr_fallback file_path
  else if is_image_ext file_ext then
    io_try
      (image <- perform (OpenImage file_path) (image_open world file_path) ;;
       extract_text_from_image image)
      (fun _ => io_ret None)
  else io_ret None.

Definition passport_prompt : string :=
  join newline [
    "Extract ALL text from this passport document. ";
    "Return the text exactly as it appears, preserving line breaks and structure.";
    "Include all visible text including:";
    "- Names (surname, given names, middle names)";
    "- Passport number";
    "- Date of birth";
    "- Place of birth";
    "- Nationality";
    "- Country of issue";
    "- Issue date";
    "- Expiry date";
    "- Sex/Gender";
    "- Any other text visible on the page";
    "";
    "Return ONLY the extracted text, no explanations, no formatting, no markdown.";
    "Preserve the original structure and line breaks."
  ].

(** [response.text.strip() if response.text else None] *)
Definition stripped_text (response : outcome string (option string))
  : prog (option string) :=
  text <- lift response ;;
  match text with
  | None => io_ret None
  | Some t => if String.eqb t "" then io_ret None else io_ret (Some (strip t))
  end.

(** The statements of the PDF branch after the direct text was found
    insufficient: upload, generate, delete the upload on both paths. *)
Definition gemini_fallback (file_path : Path) : prog (option string) :=
  gemini_file <- perform (GeminiUpload file_path) (gemini_upload world file_path) ;;
  io_try
    (response <- perform GeminiGenerate
                   (gemini_generate_file world passport_prompt gemini_file) ;;
     perform (GeminiDelete gemini_file) (gemini_delete world gemini_file) ;;;
     stripped_text response)
    (fun e =>
       io_try (perform (GeminiDelete gemini_file) (gemini_delete world gemini_file))
              (fun _ => io_ret tt) ;;;
       io_raise e).

Definition extract_passport_text_with_gemini (file_path : Path)
  : prog (option string) :=
  io_try
    (perform GeminiConfigure (gemini_configure world) ;;;
     let file_ext := lower (path_suffix file_path) in
     if String.eqb file_ext ".pdf" then
       text <- extract_text_from_pdf file_path ;;
       if direct_text_sufficient text then io_ret text
       else gemini_fallback file_path
     else if is_image_ext file_ext then
       image <- perform (OpenImage file_path) (image_open world file_path) ;;
       response <- perform GeminiGenerate
                     (gemini_generate_image world passport_prompt image) ;;
       stripped_text response
     else io_ret None)
    (fun _ => io_ret None).

(** ** Vocabulary for the properties of the acquisition functions *)

(** The direct text is long enough: it exists and its trimmed length is at
    least 50 characters. *)
Definition long_enough (text : option string) : Prop :=
  exists t, text = Some t /\ 50 <= String.length (strip t).

(** [s'] is [s] after some more calls. *)
Definition extends (s s' : state) : Prop :=
  exists calls, trace s' = (trace s ++ calls)%list.

(** A program only adds calls to the trace. *)
Definition extending {A : Type} (c : prog A) : Prop :=
  forall s, extends s (snd (c s)).

End WithWorld.

End Ocr.

(* ===================================================================== *)
(** * automation/form_filler.py                                           *)
(* ===================================================================== *)

Module FormFiller.

(** A Playwright locator: a CSS selector, possibly narrowed by [nth]. *)
Record locator : Type := mkLocator { selector : string; nth_index : option nat }.

(** The report dictionary [populate_form] returns. *)
Record report : Type := mkReport {
  success : bool;
  total_filled : nat;
  total_failed : nat;
  filled_fields : list string;
  failed_fields : list string;
  screenshot_path : option string;
  pdf_path : option string;
  error : option string
}.

Section WithBrowser.

(** [W]: the world (Playwright, the browser, the page).  [P] and [B]: the
    handles [p] of a started Playwright and [browser] of a launched browser. *)
Variables W P B : Type.

(** Every call into Playwright may raise; [string] is [str(e)]. *)
Record Browser : Type := mkBrowser {
  (** entering [with sync_playwright()], or [sync_playwright().start()] *)
  start : W -> outcome string P * W;
  (** [p.chromium.launch(headless=...)] *)
  launch : P -> bool -> W -> outcome string B * W;
  new_page : B -> W -> outcome string unit * W;
  goto : string -> W -> outcome string unit * W;
  wait_for_load_state : string -> W -> outcome string unit * W;
  count : locator -> W -> outcome string nat * W;
  (** [element.evaluate] of the script returning the lower-cased tag name *)
  tag_name : locator -> W -> outcome string string * W;
  select_option : locator -> string -> W -> outcome string unit * W;
  fill : locator -> string -> W -> outcome string unit * W;
  check : locator -> W -> outcome string unit * W;
  uncheck : locator -> W -> outcome string unit * W;
  screenshot : string -> W -> outcome string unit * W;
  pdf : string -> W -> outcome string unit * W;
  close : B -> W -> outcome string unit * W;
  (** leaving the [with sync_playwright()] block *)
  stop : P -> W -> outcome string unit * W
}.

Variable browser : Browser.
(** [config.FORM_URL] and [config.HEADLESS_MODE] *)
Variable FORM_URL : string.
Variable HEADLESS_MODE : bool.

(** The state: the world and the module global [_visual_sessions]. *)
Record state : Type := mkState {
  the_world : W;
  _visual_sessions : list (P * B)
}.

Definition prog (A : Type) : Type := io string state A.

Definition perform {A : Type} (op : W -> outcome string A * W) : prog A :=
  fun s =>
    let (r, w') := op (the_world s) in
    (r, mkState w' (_visual_sessions s)).

Local Open Scope io_scope.

(** The element a field identifier resolves to, with the two identifiers
    that share one [id] on the form. *)
Definition locate (field_id : string) : locator :=
  if String.eqb field_id "passport-given-names"
  then mkLocator ("#" ++ field_id) (Some 0)
  else if String.eqb field_id "passport-middle-name"
  then mkLocator "#passport-given-names" (Some 1)
  else mkLocator ("#" ++ field_id) None.

(** The two lists [_fill_page] accumulates. *)
Definition tally : Type := (list string * list string)%type.

Definition add_filled (field_id : string) (t : tally) : tally :=
  (fst t ++ [field_id], snd t)%list.

Definition add_failed (field_id : string) (t : tally) : tally :=
  (fst t, snd t ++ [field_id])%list.

(** The body of the loop over [fields.items()]. *)
Definition fill_field (field_id value : string) (t : tally) : prog tally :=
  if String.eqb value "" then io_ret t
  else
    io_try
      (let element := locate field_id in
       n <- perform (count browser element) ;;
       if 0 <? n then
         tag <- perform (tag_name browser element) ;;
         (if String.eqb tag "select"
          then perform (select_option browser element value)
          else perform (fill browser element value)) ;;;
         io_ret (add_filled field_id t)
       else io_ret (add_failed field_id t))
      (fun _ => io_ret (add_failed field_id t)).

Fixpoint fill_fields (fields : dict string) (t : tally) : prog tally :=
  match fields with
  | [] => io_ret t
  | (field_id, value) :: rest =>
      t' <- fill_field field_id value t ;;
      fill_fields rest t'
  end.

(** The body of the loop over [checkboxes.items()]. *)
Definition set_checkbox (field_id : string) (checked : bool) (t : tally)
  : prog tally :=
  io_try
    (let element := mkLocator ("#" ++ field_id) None in
     n <- perform (count browser element) ;;
     if 0 <? n then
       (if checked then perform (check browser element)
        else perform (uncheck browser element)) ;;;
       io_ret (add_filled field_id t)
     else io_ret (add_failed field_id t))
    (fun _ => io_ret (add_failed field_id t)).

Fixpoint set_checkboxes (checkboxes : dict bool) (t : tally) : prog tally :=
  match checkboxes with
  | [] => io_ret t
  | (field_id, checked) :: rest =>
      t' <- set_checkbox field_id checked t ;;
      set_checkboxes rest t'
  end.

Definition _fill_page (fields : dict string) (checkboxes : dict bool)
  (generate_pdf : bool) : prog report :=
  perform (goto browser FORM_URL) ;;;
  perform (wait_for_load_state browser "networkidle") ;;;
  t <- fill_fields fields ([], []) ;;
  t <- set_checkboxes checkboxes t ;;
  let filled_fields := fst t in
  let failed_fields := snd t in
  let screenshot_path := "uploads/form_populated.png" in
  perform (screenshot browser screenshot_path) ;;;
  pdf_path <-
    (if generate_pdf then
       perform (pdf browser "uploads/form_filled.pdf") ;;;
       io_ret (Some "uploads/form_filled.pdf")
     else io_ret None) ;;
  io_ret (mkReport (0 <? length filled_fields)
                   (length filled_fields) (length failed_fields)
                   filled_fields failed_fields
                   (Some screenshot_path) pdf_path None).

(** [_visual_sessions.append((p, browser))] *)
Definition keep_session (session : P * B) : prog unit :=
  fun s => (Ok tt, mkState (the_world s) (_visual_sessions s ++ [session])%list).

(** The report of the [except] clause. *)
Definition failure_report (e : string) : report :=
  let error_msg := "Form population failed: " ++ e in
  mkReport false 0 0 [] [] None None (Some error_msg).

(** The [with sync_playwright() as p:] block: the block is left through
    [stop] whether its body returned or raised. *)
Definition with_playwright {A : Type} (body : P -> prog A) : prog A :=
  p <- perform (start browser) ;;
  r <- io_try (body p)
         (fun e => perform (stop browser p) ;;; io_raise e) ;;
  perform (stop browser p) ;;;
  io_ret r.

(** The body of the [try] of [populate_form]: the headless run inside a
    [with] block, or the visible run whose session is kept. *)
Definition drive_browser (fields : dict string) (checkboxes : dict bool)
  : prog report :=
  if HEADLESS_MODE then
    with_playwright (fun p =>
      b <- perform (launch browser p true) ;;
      perform (new_page browser b) ;;;
      result <- _fill_page fields checkboxes true ;;
      perform (close browser b) ;;;
      io_ret result)
  else
    p <- perform (start browser) ;;
    b <- perform (launch browser p false) ;;
    perform (new_page browser b) ;;;
    result <- _fill_page fields checkboxes false ;;
    keep_session (p, b) ;;;
    io_ret result.

Definition populate_form (fields : dict string) (checkboxes : dict bool)
  : prog report :=
  io_try (drive_browser fields checkboxes)
         (fun e => io_ret (failure_report e)).

End WithBrowser.

(** What the report of a run that drove the form to its end looks like:
    no error, the counts of the two lists, success exactly when something
    was filled, and the screenshot taken. *)
Definition completed (r : report) : Prop :=
  error r = None
  /\ total_filled r = length (filled_fields r)
  /\ total_failed r = length (failed_fields r)
  /\ (success r = true <-> filled_fields r <> [])
  /\ screenshot_path r = Some "uploads/form_populated.png".

End FormFiller.

(* ===================================================================== *)
(** * Concrete runs                                                       *)
(* ===================================================================== *)

Module Scenario.
Import Extraction.

(** Services for evaluating [extract_data] on a given reply of the remote
    model: the decoder of [JsonDecoder], lax coercions that accept nothing
    (the replies used below hold no value they would be asked about), and
    the default model name of [config.py]. *)
Definition services (reply : result string) : Services :=
  mkServices (fun _ => reply) JsonDecoder.loads (fun _ => None) (fun _ => None)
             "gemini-1.5-flash".

(** A reply whose date of birth is a string naming no calendar date. *)
Definition reply_february_30 : string :=
  "{" ++ quoted "passport" ++ ": {" ++ quoted "surname" ++ ": " ++ quoted "DOE"
  ++ ", " ++ quoted "date_of_birth" ++ ": " ++ quoted "2030-02-30" ++ "}}".

(** A reply whose date of birth is a list of numbers. *)
Definition reply_date_as_list : string :=
  "{" ++ quoted "passport" ++ ": {" ++ quoted "date_of_birth"
  ++ ": [2030, 1, 15]}}".

(** A reply that is not JSON and shares no character with the message the
    program raises for it. *)
Definition reply_not_json : string := "???".

End Scenario.

Module OcrScenario.
Import Ocr.

(** A world with a one-page PDF whose embedded text is [page_text]; the
    page does not render, the engine finds nothing, the remote model
    returns no text. *)
Definition one_page_world (page_text : string) : World unit unit :=
  mkWorld unit unit
    (fun _ w => (Ok [mkPage unit (Ok page_text) (Raise "page does not render")], w))
    (fun _ w => (Raise "not an image", w))
    (fun _ => true) (fun image => image)
    (fun _ image => image) (fun _ image => image)
    (fun w => (Ok tt, w))
    (fun _ w => (Ok [], w))
    (fun w => (Ok tt, w))
    (fun _ w => (Ok "files/passport", w))
    (fun _ _ w => (Ok (Ok None), w))
    (fun _ _ w => (Ok (Ok None), w))
    (fun _ w => (Ok tt, w)).

Definition passport_pdf : Path := mkPath "passport.pdf" ".pdf".

Definition initial : state unit := mkState unit tt [] false.

(** Page texts of 41 and 40 characters: with the page marker (9
    characters) the extracted text has 50 and 49. *)
Definition text_41 : string := "SURNAME DOE GIVEN NAMES JOHN Q SEX M USA.".
Definition text_40 : string := "SURNAME DOE GIVEN NAMES JOHN Q SEX M USA".

End OcrScenario.


(* ===================================================================== *)
(** * Further vocabulary for the acquisition functions                    *)
(* ===================================================================== *)

Module OcrSpec.
Import Ocr.

Section WithWorld.

Variable W : Type.

(** The program returns a value from every state. *)
Definition never_raises {A : Type} (c : prog W A) : Prop :=
  forall s, exists a, fst (c s) = Ok a.

(** From a state where [I] holds, the program adds only calls that satisfy
    [P] to the trace and ends in a state where [I] holds. *)
Definition stays_within (I : state W -> Prop) (P : call -> Prop) {A : Type}
  (c : prog W A) : Prop :=
  forall s, I s ->
    exists calls,
      trace W (snd (c s)) = (trace W s ++ calls)%list
      /\ Forall P calls /\ I (snd (c s)).

(** The OCR engine has been constructed. *)
Definition engine_ready (s : state W) : Prop := ocr_reader W s = true.

Definition not_InitOcr (c : call) : Prop := c <> InitOcr.

(** A call that stays on the machine: none of the four calls to the remote
    model. *)
Definition local_call (c : call) : Prop :=
  match c with
  | GeminiConfigure | GeminiUpload _ | GeminiGenerate | GeminiDelete _ => False
  | _ => True
  end.

(** No condition on the state. *)
Definition any_state (s : state W) : Prop := True.

End WithWorld.

(** The page blocks of an OCR run: [kept] lists the pages that gave text,
    with their text. *)
Definition page_blocks (kept : list (nat * string)) : list string :=
  map (fun nt => page_marker (fst nt) ++ snd nt) kept.

(** [l] is [l'] with some elements left out, the order kept. *)
Inductive subsequence {A : Type} : list A -> list A -> Prop :=
| subsequence_nil : subsequence [] []
| subsequence_skip x l l' : subsequence l l' -> subsequence l (x :: l')
| subsequence_keep x l l' : subsequence l l' -> subsequence (x :: l) (x :: l').

(** The suffixes the acquisition functions support. *)
Definition supported_ext (file_ext : string) : bool :=
  String.eqb file_ext ".pdf" || is_image_ext file_ext.

End OcrSpec.

(* ===================================================================== *)
(** * Vocabulary for the properties of the form filler                    *)
(* ===================================================================== *)

Module FormFillerSpec.
Import FormFiller.

(** The identifiers [_fill_page] acts on, in the order of its two loops:
    the keys of the fields with a non-empty value, then the keys of the
    checkboxes. *)
Definition attempted (fields : dict string) (checkboxes : dict bool)
  : list string :=
  (map fst (filter (fun kv => negb (String.eqb (snd kv) "")) fields)
   ++ map fst checkboxes)%list.

(** [m] is [l] and [r] shuffled together, each keeping its order. *)
Inductive interleaving {A : Type} : list A -> list A -> list A -> Prop :=
| interleaving_nil : interleaving [] [] []
| interleaving_left x l r m :
    interleaving l r m -> interleaving (x :: l) r (x :: m)
| interleaving_right x l r m :
    interleaving l r m -> interleaving l (x :: r) (x :: m).

(** What some turns of the loops of [_fill_page] added to its two lists:
    the identifiers [ids], each on one side. *)
Definition tallied (t t' : tally) (ids : list string) : Prop :=
  exists filled failed,
    fst t' = (fst t ++ filled)%list /\ snd t' = (snd t ++ failed)%list
    /\ interleaving filled failed ids.

Section WithBrowser.

Variables W P B : Type.

(** A program leaves the module global [_visual_sessions] as it was. *)
Definition keeps_sessions {A : Type} (c : prog W P B A) : Prop :=
  forall s, _visual_sessions W P B (snd (c s)) = _visual_sessions W P B s.

End WithBrowser.

End FormFillerSpec.

(** A form on which every element exists except the one for the sex of the
    passport holder, and every action succeeds; [state] is a drop-down. *)
Module FormScenario.
Import FormFiller.

Definition form_browser : Browser unit unit unit :=
  mkBrowser unit unit unit
    (fun w => (Ok tt, w))
    (fun _ _ w => (Ok tt, w))
    (fun _ w => (Ok tt, w))
    (fun _ w => (Ok tt, w))
    (fun _ w => (Ok tt, w))
    (fun element w =>
       (Ok (if String.eqb (selector element) "#passport-sex" then 0 else 1), w))
    (fun element w =>
       (Ok (if String.eqb (selector element) "#state" then "select" else "input"), w))
    (fun _ _ w => (Ok tt, w))
    (fun _ _ w => (Ok tt, w))
    (fun _ w => (Ok tt, w))
    (fun _ w => (Ok tt, w))
    (fun _ w => (Ok tt, w))
    (fun _ w => (Ok tt, w))
    (fun _ w => (Ok tt, w))
    (fun _ w => (Ok tt, w)).

Definition form_url : string := "https://forms.example/a28".

Definition initial : state unit unit unit := mkState unit unit unit tt [].

Definition some_fields : dict string :=
  [ ("passport-surname", "DOE"); ("passport-number", "");
    ("passport-sex", "M"); ("state", "CA") ].

Definition some_checkboxes : dict bool := [ ("not-subject", true) ].

(** The field map of two records in which nothing was found. *)
Definition empty_fields : dict string :=
  match DataMapper.map_to_form_fields empty_passport empty_g28 with
  | Ok fields => fields
  | Raise _ => []
  end.

End FormScenario.

(* ===================================================================== *)
(** * Vocabulary for the path from the reply to the form                  *)
(* ===================================================================== *)

Module PipelineSpec.
Import Extraction.

(** The statements of [extract_data] that build the passport record from
    the decoded document. *)
Definition passport_record (env : Services) (data_dict : dict pyvalue)
  : result PassportData :=
  passport_dict <- get_method (py_get_default "passport" (PDict []) data_dict) ;;
  PassportData_init env (fold_left convert_date_field date_fields passport_dict).

(** The identifier of the form under which [map_to_form_fields] writes a
    date field of the passport. *)
Definition date_form_id (date_field : string) : string :=
  if String.eqb date_field "date_of_birth" then "passport-dob"
  else if String.eqb date_field "issue_date" then "passport-issue-date"
  else "passport-expiry-date".

(** The three models of the G-28 groups, as Python names them in a
    [TypeError]. *)
Definition group_models : list string :=
  [ "models.g28_data.AttorneyInfo"; "models.g28_data.EligibilityInfo";
    "models.g28_data.ClientInfo" ].

(** The attorney group with another fax number. *)
Definition with_fax (fax : option string) (a : AttorneyInfo) : AttorneyInfo :=
  mkAttorneyInfo (a_first_name a) (a_middle_name a) (a_last_name a) (a_street a)
    (a_city a) (a_state a) (a_zip a) (a_country a) (a_phone a) (a_email a)
    fax (a_online_account a).

(** No identifier occurs twice. *)
Fixpoint distinct (ids : list string) : bool :=
  match ids with
  | [] => true
  | id :: rest => negb (existsb (String.eqb id) rest) && distinct rest
  end.

End PipelineSpec.

Module PipelineScenario.
Import Extraction.

(** A reply whose date of birth is written without leading zeros. *)
Definition reply_short_date : string :=
  "{" ++ quoted "passport" ++ ": {" ++ quoted "surname" ++ ": " ++ quoted "DOE"
  ++ ", " ++ quoted "date_of_birth" ++ ": " ++ quoted "2030-1-5" ++ "}}".

(** A reply whose attorney group is a name instead of an object. *)
Definition reply_attorney_as_text : string :=
  "{" ++ quoted "g28" ++ ": {" ++ quoted "attorney" ++ ": " ++ quoted "Jane Roe"
  ++ "}}".

End PipelineScenario.

(* ===================================================================== *)
(** * utils/validators.py                                                 *)
(* ===================================================================== *)

Module Validators.

(** [s.split(sep)] for a separator of one character: never empty. *)
Fixpoint split_char (sep : ascii) (s : string) : list string :=
  match s with
  | EmptyString => [""]
  | String c rest =>
      if Ascii.eqb c sep then "" :: split_char sep rest
      else
        match split_char sep rest with
        | part :: parts => String c part :: parts
        | [] => [String c ""]
        end
  end.

(** A starlette [UploadFile]: its [filename] (which may be [None]) and the
    identity of the object, by which the host tells the uploads apart. *)
Record UploadFile : Type := mkUploadFile {
  filename : option string;
  handle : nat
}.

Definition valid_extensions : list string := [".pdf"; ".jpg"; ".jpeg"; ".png"].

(** [validate_upload(file, max_size_mb)]; an [UploadFile] object is true. *)
Definition validate_upload (file : option UploadFile) (max_size_mb : Z)
  : result unit :=
  match file with
  | None => Raise (ValueError "No file uploaded")
  | Some file =>
      match filename file with
      | None => Raise (ValueError "No file uploaded")
      | Some name =>
          if String.eqb name "" then Raise (ValueError "No file uploaded")
          else
            let file_ext := last (split_char "." (lower name)) "" in
            if negb (existsb (String.eqb ("." ++ file_ext)) valid_extensions)
            then Raise (ValueError ("Invalid file type: ." ++ file_ext ++ ". "
                                    ++ "Supported formats: PDF, JPEG, PNG"))
            else Ok tt
      end
  end.

End Validators.

(* ===================================================================== *)
(** * pathlib, as far as app.py uses it (POSIX flavour)                    *)
(* ===================================================================== *)

Module Pathlib.
Import Validators.

(** The components of a relative path text: the pieces between slashes,
    without the empty ones and the single dots. *)
Definition parts (text : string) : list string :=
  filter (fun part => negb (String.eqb part "") && negb (String.eqb part "."))
         (split_char "/" text).

(** [s.rpartition(sep)] when [sep] occurs: the text before and after its
    last occurrence. *)
Fixpoint rsplit1 (sep : ascii) (s : string) : option (string * string) :=
  match s with
  | EmptyString => None
  | String c rest =>
      match rsplit1 sep rest with
      | Some (before, after) => Some (String c before, after)
      | None => if Ascii.eqb c sep then Some ("", rest) else None
      end
  end.

(** [PurePath.suffix] of a final component: from its last dot on, unless
    that dot is the first or the last character. *)
Definition suffix_of (name : string) : string :=
  match rsplit1 "." name with
  | Some (stem, ext) =>
      if String.eqb stem "" || String.eqb ext "" then "" else "." ++ ext
  | None => ""
  end.

(** [Path(dir) / rel] for a relative [rel], by the two attributes the
    acquisition functions read. *)
Definition join_path (dir rel : string) : Ocr.Path :=
  let name := last (parts dir ++ parts rel)%list "" in
  Ocr.mkPath name (suffix_of name).

(** [Path(text).name] *)
Definition name_of (text : string) : string := last (parts text) "".

End Pathlib.

(* ===================================================================== *)
(** * app.py                                                              *)
(* ===================================================================== *)

Module App.
Import Validators Pathlib Extraction.

(** [JSONResponse(status_code=..., content=...)] *)
Record JSONResponse : Type := mkJSONResponse {
  status_code : nat;
  content : pyvalue
}.

(** [error_response(message, details)]; [details] is whatever the caller
    passes, a string or [None]. *)
Definition error_response (message : string) (details : pyvalue) : JSONResponse :=
  mkJSONResponse 500
    (PDict [ ("status", PStr "error");
             ("message", PStr message);
             ("error",
              PDict [ ("message", PStr message);
                      ("details", details);
                      ("suggestion", PStr "Check logs/app.log for more details") ]) ]).

(** ["/uploads/" + Path(p).name if result.get(key) else None] *)
Definition upload_url (path : option string) : pyvalue :=
  match path with
  | Some p => if String.eqb p "" then PNone else PStr ("/uploads/" ++ name_of p)
  | None => PNone
  end.

(** [success_response(result)] on the report dictionary of [populate_form]. *)
Definition success_response (result : FormFiller.report) : JSONResponse :=
  mkJSONResponse 200
    (PDict [ ("status", PStr "success");
             ("message", PStr "Documents processed and form populated successfully");
             ("details",
              PDict [ ("fields_filled", PInt (Z.of_nat (FormFiller.total_filled result)));
                      ("fields_failed", PInt (Z.of_nat (FormFiller.total_failed result)));
                      ("filled_fields", PList (map PStr (FormFiller.filled_fields result)));
                      ("failed_fields", PList (map PStr (FormFiller.failed_fields result)));
                      ("screenshot_url", upload_url (FormFiller.screenshot_path result));
                      ("pdf_url", upload_url (FormFiller.pdf_path result)) ]) ]).

(** A path under [UPLOADS_DIR]: the text handed to the file system and the
    path object handed to the acquisition functions. *)
Record UploadPath : Type := mkUploadPath {
  path_text : string;
  as_path : Ocr.Path
}.

(** [UPLOADS_DIR / rel] *)
Definition uploads_path (rel : string) : UploadPath :=
  mkUploadPath ("uploads/" ++ rel) (join_path "uploads" rel).

(** The calls [process_documents] itself makes on the host. *)
Inductive file_call : Type :=
| Now
| OpenForWrite (path : string)
| ReadUpload (file : UploadFile)
| WriteFile (path : string)
| CloseFile (path : string)
| PathExists (path : string)
| Unlink (path : string).

(** [x] inside an f-string *)
Definition format_optional (x : option string) : string :=
  match x with Some s => s | None => "None" end.

(** The text when it is true ([if not text: return ...] passes a non-empty
    string only). *)
Definition nonempty (text : option string) : option string :=
  match text with
  | Some t => if String.eqb t "" then None else text
  | None => None
  end.

Section WithHost.

Variables W Image P B : Type.

(** The clock, the uploads and the file system. *)
Record Host : Type := mkHost {
  (** [datetime.now().strftime("%Y%m%d_%H%M%S")] *)
  now_strftime : W -> string * W;
  file_open : string -> W -> outcome exception unit * W;
  upload_read : UploadFile -> W -> outcome exception (list Byte.byte) * W;
  file_write : string -> list Byte.byte -> W -> outcome exception unit * W;
  file_close : string -> W -> outcome exception unit * W;
  path_exists : string -> W -> outcome exception bool * W;
  path_unlink : string -> W -> outcome exception unit * W
}.

Variable host : Host.
Variable ocr_world : Ocr.World W Image.
Variable browser : FormFiller.Browser W P B.
Variable env : Services.
(** [config.FORM_URL], [config.HEADLESS_MODE], [config.MAX_FILE_SIZE_MB] *)
Variable FORM_URL : string.
Variable HEADLESS_MODE : bool.
Variable MAX_FILE_SIZE_MB : Z.

(** The state: that of the acquisition modules (with the world), the
    sessions of the form filler, the host calls made so far, and the two
    local variables the [finally] clause reads. *)
Record state : Type := mkState {
  ocr_state : Ocr.state W;
  sessions : list (P * B);
  files : list file_call;
  passport_path : option UploadPath;
  g28_path : option UploadPath
}.

Definition prog (A : Type) : Type := io exception state A.

Definition the_world (s : state) : W := Ocr.the_world W (ocr_state s).

Definition with_world (w : W) (s : state) : Ocr.state W :=
  Ocr.mkState W w (Ocr.trace W (ocr_state s)) (Ocr.ocr_reader W (ocr_state s)).

Definition perform {A : Type} (c : file_call)
  (op : W -> outcome exception A * W) : prog A :=
  fun s =>
    let (r, w') := op (the_world s) in
    (r, mkState (with_world w' s) (sessions s) (files s ++ [c])%list
                (passport_path s) (g28_path s)).

Definition lift {A : Type} (r : result A) : prog A := fun s => (r, s).

(** A call into [utils/ocr_handler.py]. *)
Definition run_ocr {A : Type} (c : Ocr.prog W A) : prog A :=
  fun s =>
    let (r, o) := c (ocr_state s) in
    (match r with Ok a => Ok a | Raise msg => Raise (OtherError msg) end,
     mkState o (sessions s) (files s) (passport_path s) (g28_path s)).

(** A call into [automation/form_filler.py]. *)
Definition run_form {A : Type} (c : FormFiller.prog W P B A) : prog A :=
  fun s =>
    let (r, f) := c (FormFiller.mkState W P B (the_world s) (sessions s)) in
    (match r with Ok a => Ok a | Raise msg => Raise (OtherError msg) end,
     mkState (with_world (FormFiller.the_world W P B f) s)
             (FormFiller._visual_sessions W P B f) (files s)
             (passport_path s) (g28_path s)).

Definition set_paths (passport g28 : option UploadPath) : prog unit :=
  fun s => (Ok tt, mkState (ocr_state s) (sessions s) (files s) passport g28).

Definition get_paths : prog (option UploadPath * option UploadPath) :=
  fun s => (Ok (passport_path s, g28_path s), s).

(** [try: body finally: cleanup] *)
Definition io_finally {A : Type} (body : prog A) (cleanup : prog unit) : prog A :=
  fun s =>
    let (r, s1) := body s in
    match cleanup s1 with
    | (Ok _, s2) => (r, s2)
    | (Raise e, s2) => (Raise e, s2)
    end.

Local Open Scope io_scope.

(** [with open(path, "wb") as f: body]: the file is closed whether the body
    returned or raised. *)
Definition with_open {A : Type} (path : string) (body : prog A) : prog A :=
  perform (OpenForWrite path) (file_open host path) ;;;
  r <- io_try body
         (fun e => perform (CloseFile path) (file_close host path) ;;; io_raise e) ;;
  perform (CloseFile path) (file_close host path) ;;;
  io_ret r.

(** One of the two blocks of step 2. *)
Definition save_upload (path : UploadPath) (file : UploadFile) : prog unit :=
  with_open (path_text path)
    (content <- perform (ReadUpload file) (upload_read host file) ;;
     perform (WriteFile (path_text path)) (file_write host (path_text path) content)).

(** Steps 6 and 7, and the response. *)
Definition fill_and_respond (passport_data : PassportData) (g28_data : G28Data)
  : prog JSONResponse :=
  fields <- lift (DataMapper.map_to_form_fields passport_data g28_data) ;;
  checkboxes <- lift (DataMapper.get_checkbox_fields g28_data) ;;
  result <- run_form (FormFiller.populate_form W P B browser FORM_URL HEADLESS_MODE
                        fields checkboxes) ;;
  if FormFiller.success result then io_ret (success_response result)
  else io_ret (error_response "Form population failed"
                 (match FormFiller.error result with
                  | Some msg => PStr msg
                  | None => PNone
                  end)).

(** Steps 3 to 7 on the two saved files. *)
Definition extract_and_fill (passport g28 : UploadPath) : prog JSONResponse :=
  passport_text <- run_ocr (Ocr.extract_passport_text_with_gemini W Image ocr_world
                              (as_path passport)) ;;
  match nonempty passport_text with
  | None =>
      io_ret (error_response "Failed to extract text from passport"
                (PStr "Please ensure the passport document is clear and readable"))
  | Some passport_text =>
      g28_text <- run_ocr (Ocr.extract_text_from_pdf_or_image W Image ocr_world
                             (as_path g28)) ;;
      match nonempty g28_text with
      | None =>
          io_ret (error_response "Failed to extract text from G-28"
                    (PStr "Please ensure the G-28 form is clear and readable"))
      | Some g28_text =>
          match extract_data env passport_text g28_text with
          | Ok (passport_data, g28_data) => fill_and_respond passport_data g28_data
          | Raise e =>
              if is_ValueError e
              then io_ret (error_response "Data extraction failed"
                             (PStr (str_exception e)))
              else io_raise e
          end
      end
  end.

(** Steps 1 and 2: both uploads validated, the two paths named after the
    time and the file names, both files written. *)
Definition receive_uploads (passport_file g28_file : UploadFile)
  : prog (UploadPath * UploadPath) :=
  lift (validate_upload (Some passport_file) MAX_FILE_SIZE_MB) ;;;
  lift (validate_upload (Some g28_file) MAX_FILE_SIZE_MB) ;;;
  timestamp <- perform Now (fun w => let (t, w') := now_strftime host w in (Ok t, w')) ;;
  let passport := uploads_path ("passport_" ++ timestamp ++ "_"
                                ++ format_optional (filename passport_file)) in
  let g28 := uploads_path ("g28_" ++ timestamp ++ "_"
                           ++ format_optional (filename g28_file)) in
  set_paths (Some passport) (Some g28) ;;;
  save_upload passport passport_file ;;;
  save_upload g28 g28_file ;;;
  io_ret (passport, g28).

(** The body of the [try] of [process_documents]. *)
Definition process_body (passport_file g28_file : UploadFile) : prog JSONResponse :=
  paths <- receive_uploads passport_file g28_file ;;
  extract_and_fill (fst paths) (snd paths).

(** One [if path and path.exists(): path.unlink()] of the cleanup. *)
Definition remove_if_exists (path : option UploadPath) : prog unit :=
  match path with
  | None => io_ret tt
  | Some p =>
      there <- perform (PathExists (path_text p)) (path_exists host (path_text p)) ;;
      if there then perform (Unlink (path_text p)) (path_unlink host (path_text p))
      else io_ret tt
  end.

(** The [finally] clause. *)
Definition cleanup : prog unit :=
  io_try
    (paths <- get_paths ;;
     remove_if_exists (fst paths) ;;;
     remove_if_exists (snd paths))
    (fun _ => io_ret tt).

Definition process_documents (passport_file g28_file : UploadFile)
  : prog JSONResponse :=
  set_paths None None ;;;
  io_finally
    (io_try (process_body passport_file g28_file)
       (fun e =>
          if is_ValueError e
          then io_ret (error_response "Processing failed" (PStr (str_exception e)))
          else io_ret (error_response "Unexpected error" (PStr (str_exception e)))))
    cleanup.

End WithHost.

End App.

(* ===================================================================== *)
(** * Vocabulary for the properties of the upload path and of app.py      *)
(* ===================================================================== *)

Module AppSpec.
Import Validators Pathlib Extraction App.

(** The character occurs in the text. *)
Fixpoint has_char (c : ascii) (s : string) : bool :=
  match s with
  | EmptyString => false
  | String c' rest => Ascii.eqb c' c || has_char c rest
  end.

(** A text without a dot and without a slash. *)
Definition plain (s : string) : bool :=
  negb (has_char "." s) && negb (has_char "/" s).

(** The responses of steps 3 to 7. *)
Inductive pipeline_response (HEADLESS_MODE : bool) : JSONResponse -> Prop :=
| no_passport_text :
    pipeline_response HEADLESS_MODE
      (error_response "Failed to extract text from passport"
         (PStr "Please ensure the passport document is clear and readable"))
| no_g28_text :
    pipeline_response HEADLESS_MODE
      (error_response "Failed to extract text from G-28"
         (PStr "Please ensure the G-28 form is clear and readable"))
| extraction_failed msg :
    pipeline_response HEADLESS_MODE
      (error_response "Data extraction failed" (PStr msg))
| browser_failed e :
    pipeline_response HEADLESS_MODE
      (error_response "Form population failed"
         (PStr ("Form population failed: " ++ e)))
| nothing_filled :
    pipeline_response HEADLESS_MODE
      (error_response "Form population failed" PNone)
| form_populated result :
    FormFiller.success result = true ->
    FormFiller.error result = None ->
    FormFiller.filled_fields result <> [] ->
    FormFiller.screenshot_path result = Some "uploads/form_populated.png" ->
    FormFiller.pdf_path result
    = (if HEADLESS_MODE then Some "uploads/form_filled.pdf" else None) ->
    pipeline_response HEADLESS_MODE (success_response result).

(** The text of the path under which an upload is saved. *)
Definition saved_as (kind stamp : string) (file : UploadFile) : string :=
  "uploads/" ++ kind ++ "_" ++ stamp ++ "_" ++ format_optional (filename file).

Section WithHost.

Variables W P B : Type.

(** What the clock answers in a state. *)
Definition stamp_of (host : Host W) (s : state W P B) : string :=
  fst (now_strftime W host (the_world W P B s)).

(** A program only adds host calls to the log and leaves the two local
    paths alone. *)
Definition only_logs {A : Type} (c : prog W P B A) : Prop :=
  forall s,
    (exists calls, files W P B (snd (c s)) = (files W P B s ++ calls)%list)
    /\ passport_path W P B (snd (c s)) = passport_path W P B s
    /\ g28_path W P B (snd (c s)) = g28_path W P B s.

End WithHost.

End AppSpec.

(** A host whose clock reads 1 January 2024, noon, and whose file system
    accepts every call and reports every path as present. *)
Module AppScenario.
Import Validators App.

Definition host : Host unit :=
  mkHost unit
    (fun w => ("20240101_120000", w))
    (fun _ w => (Ok tt, w))
    (fun _ w => (Ok [], w))
    (fun _ _ w => (Ok tt, w))
    (fun _ w => (Ok tt, w))
    (fun _ w => (Ok true, w))
    (fun _ w => (Ok tt, w)).

Definition initial : state unit unit unit :=
  mkState unit unit unit (Ocr.mkState unit tt [] false) [] [] None None.

(** A passport upload whose name has no dot, and a G-28 upload. *)
Definition dotless_passport : UploadFile := mkUploadFile (Some "pdf") 1.
Definition passport_upload : UploadFile := mkUploadFile (Some "passport.pdf") 1.
Definition g28_upload : UploadFile := mkUploadFile (Some "g28.pdf") 2.
Definition spreadsheet_upload : UploadFile := mkUploadFile (Some "g28.xlsx") 2.

End AppScenario.
(* ===================================================================== *)
(** * Properties                                                          *)
(* ===================================================================== *)

Module StringFacts.

Lemma append_assoc (a b c : string) : (a ++ b) ++ c = a ++ b ++ c.
Proof. induction a; cbn; congruence. Qed.

Lemma lower_app (a b : string) : lower (a ++ b) = lower a ++ lower b.
Proof. induction a; cbn; congruence. Qed.

(** [lower] works character by character, so a split of [lower s] is the
    image of a split of [s]. *)
Lemma lower_split (s a b : string) :
  lower s = a ++ b -> exists a' b', s = a' ++ b' /\ lower a' = a /\ lower b' = b.
Proof.
  revert s. induction a as [| c a IH]; intros s H.
  - exists "", s. cbn in *. auto.
  - destruct s as [| c' s]; cbn in H; [discriminate |].
    inversion H as [[Hc Hs]]. destruct (IH s Hs) as [a' [b' [E [Ha Hb]]]].
    exists (String c' a'), b'. cbn. subst. auto.
Qed.

Lemma startswith_iff (p s : string) :
  startswith p s = true <-> exists post, s = p ++ post.
Proof.
  revert s. induction p as [| a p IH]; intros s; cbn.
  - split; [intros _; exists s; reflexivity | reflexivity].
  - destruct s as [| b s].
    + split; [discriminate | intros [post H]; discriminate].
    + rewrite andb_true_iff, Ascii.eqb_eq, IH. split.
      * intros [-> [post ->]]. exists post. reflexivity.
      * intros [post H]. inversion H; subst. split; [reflexivity | exists post; reflexivity].
Qed.

(** [p in s] holds exactly when [s] splits around an occurrence of [p]. *)
Lemma contains_iff (p s : string) :
  contains p s = true <-> exists pre post, s = pre ++ p ++ post.
Proof.
  induction s as [| c s IH].
  - cbn. rewrite orb_false_r, startswith_iff. split.
    + intros [post H]. exists "", post. exact H.
    + intros [pre [post H]]. destruct pre; cbn in H; [exists post; exact H | discriminate].
  - cbn [contains]. rewrite orb_true_iff, startswith_iff, IH. split.
    + intros [[post H] | [pre [post H]]].
      * exists "", post. exact H.
      * exists (String c pre), post. cbn. now rewrite H.
    + intros [pre [post H]]. destruct pre as [| c' pre]; cbn in H.
      * left. exists post. exact H.
      * right. inversion H; subst. exists pre, post. reflexivity.
Qed.

(** A pattern that occurs starts with a character that occurs. *)
Lemma contains_head (c : ascii) (r s : string) :
  contains (String c r) s = true -> contains (String c "") s = true.
Proof.
  rewrite !contains_iff. intros [pre [post H]].
  exists pre, (r ++ post). rewrite H. reflexivity.
Qed.

End StringFacts.

Module DictFacts.

Lemma dict_get_set_eq {V : Type} (k : string) (v : V) (d : dict V) :
  dict_get k (dict_set k v d) = Some v.
Proof.
  induction d as [| [k' v'] d IH]; cbn.
  - now rewrite String.eqb_refl.
  - destruct (String.eqb k k') eqn:E; cbn; rewrite E; auto.
Qed.

Lemma dict_get_set_ne {V : Type} (k k' : string) (v : V) (d : dict V) :
  k <> k' -> dict_get k' (dict_set k v d) = dict_get k' d.
Proof.
  intros Hne. induction d as [| [k0 v0] d IH]; cbn.
  - destruct (String.eqb k' k) eqn:E; [apply String.eqb_eq in E; congruence | reflexivity].
  - destruct (String.eqb k k0) eqn:E; cbn.
    + apply String.eqb_eq in E; subst k0.
      destruct (String.eqb k' k) eqn:E'; [apply String.eqb_eq in E'; congruence | reflexivity].
    + destruct (String.eqb k' k0); auto.
Qed.

(** Writing an existing key keeps the order, so two writes to different
    keys commute when the first key is already there. *)
Lemma dict_set_comm {V : Type} (k1 k2 : string) (v1 v2 : V) (d : dict V) :
  k1 <> k2 -> dict_get k1 d <> None ->
  dict_set k2 v2 (dict_set k1 v1 d) = dict_set k1 v1 (dict_set k2 v2 d).
Proof.
  intros Hne. induction d as [| [k0 v0] d IH]; cbn; intros Hin; [congruence |].
  destruct (String.eqb k1 k0) eqn:E1.
  - apply String.eqb_eq in E1; subst k0. cbn.
    destruct (String.eqb k2 k1) eqn:E2; [apply String.eqb_eq in E2; congruence |].
    cbn. now rewrite String.eqb_refl.
  - cbn. destruct (String.eqb k2 k0) eqn:E2; cbn; rewrite E1; [reflexivity |].
    f_equal. apply IH. exact Hin.
Qed.

End DictFacts.

Module DateFacts.
Import Extraction.

Lemma digit_char_code (k : nat) : nat_of_ascii (digit_char k) = 48 + k mod 10.
Proof.
  unfold digit_char. apply nat_ascii_embedding.
  pose proof (Nat.mod_upper_bound k 10). lia.
Qed.

Lemma digit_char_is_digit (k : nat) : is_digit (digit_char k) = true.
Proof.
  unfold is_digit. rewrite digit_char_code.
  pose proof (Nat.mod_upper_bound k 10).
  apply andb_true_iff. split; apply Nat.leb_le; lia.
Qed.

Lemma digit_val_digit_char (k : nat) : digit_val (digit_char k) = k mod 10.
Proof. unfold digit_val. rewrite digit_char_code. lia. Qed.

Lemma str_nat_aux_step (fuel n : nat) (acc : string) :
  str_nat_aux (S fuel) n acc
  = if n <? 10 then String (digit_char n) acc
    else str_nat_aux fuel (n / 10) (String (digit_char n) acc).
Proof. reflexivity. Qed.

(** The bound on years in a form with small numerals. *)
Lemma year_bound (y : nat) : y <= 9999 -> y < 10 * 1000.
Proof.
  intros H. assert (N : 9999 = 9 * 1000 + 999) by reflexivity.
  rewrite N in H. lia.
Qed.

(** A year of at most four digits is rendered as its four decimal digits. *)
Lemma zfill_year (y : nat) :
  y <= 9999 ->
  zfill 4 (str_nat y)
  = String (digit_char (y / 1000)) (String (digit_char (y / 100))
      (String (digit_char (y / 10)) (String (digit_char y) ""))).
Proof.
  intros Hy. apply year_bound in Hy.
  pose proof (Nat.div_mod_eq y 10) as E1.
  pose proof (Nat.mod_upper_bound y 10 ltac:(lia)) as B1.
  pose proof (Nat.div_mod_eq y 100) as E2.
  pose proof (Nat.mod_upper_bound y 100 ltac:(lia)) as B2.
  pose proof (Nat.div_mod_eq y 1000) as E3.
  pose proof (Nat.mod_upper_bound y 1000 ltac:(lia)) as B3.
  unfold str_nat. rewrite str_nat_aux_step.
  destruct (Nat.ltb_spec y 10) as [H1 | H1].
  { rewrite (Nat.div_small y 1000), (Nat.div_small y 100), (Nat.div_small y 10) by lia.
    reflexivity. }
  destruct y as [| y1]; [lia |]. rewrite str_nat_aux_step.
  destruct (Nat.ltb_spec (S y1 / 10) 10) as [H2 | H2].
  { assert (L : S y1 < 100) by lia.
    rewrite (Nat.div_small (S y1) 1000) by lia.
    rewrite (Nat.div_small (S y1) 100) by exact L.
    reflexivity. }
  destruct y1 as [| y2]; [cbn in H2; lia |]. rewrite str_nat_aux_step.
  rewrite Nat.Div0.div_div. change (10 * 10) with 100.
  destruct (Nat.ltb_spec (S (S y2) / 100) 10) as [H3 | H3].
  { assert (L : S (S y2) < 1000) by lia.
    rewrite (Nat.div_small (S (S y2)) 1000) by exact L. reflexivity. }
  destruct y2 as [| y3]; [cbn in H3; lia |]. rewrite str_nat_aux_step.
  rewrite Nat.Div0.div_div. change (100 * 10) with 1000.
  destruct (Nat.ltb_spec (S (S (S y3)) / 1000) 10) as [_ | H5]; [| lia].
  reflexivity.
Qed.

Lemma four_digits_value (y : nat) :
  y <= 9999 ->
  1000 * ((y / 1000) mod 10) + 100 * ((y / 100) mod 10)
  + 10 * ((y / 10) mod 10) + y mod 10 = y.
Proof.
  intros Hy. apply year_bound in Hy.
  pose proof (Nat.div_mod_eq y 10) as E1.
  pose proof (Nat.div_mod_eq (y / 10) 10) as E2.
  pose proof (Nat.div_mod_eq (y / 10 / 10) 10) as E3.
  rewrite Nat.Div0.div_div in E2, E3. rewrite Nat.Div0.div_div in E3.
  change (10 * 10) with 100 in *. change (100 * 10) with 1000 in *.
  assert (H4 : y / 1000 < 10) by (apply Nat.Div0.div_lt_upper_bound; lia).
  rewrite (Nat.mod_small (y / 1000) 10) by exact H4. lia.
Qed.

Lemma match_Y_year (y : nat) (rest : string) :
  y <= 9999 -> match_Y (zfill 4 (str_nat y) ++ rest) = Some (y, rest).
Proof.
  intros Hy. rewrite (zfill_year y Hy). cbn [append match_Y].
  rewrite !digit_char_is_digit, !digit_val_digit_char. cbn [andb].
  rewrite (four_digits_value y Hy). reflexivity.
Qed.
Lemma match_m_month (m : nat) (rest : string) :
  1 <= m <= 12 -> match_m (zfill 2 (str_nat m) ++ rest) = Some (m, rest).
Proof.
  intros [H1 H2].
  do 13 (destruct m as [| m]; [try lia; reflexivity |]). lia.
Qed.

Lemma match_d_day (d : nat) :
  1 <= d <= 31 -> match_d (zfill 2 (str_nat d)) = Some (d, "").
Proof.
  intros [H1 H2].
  do 32 (destruct d as [| d]; [try lia; reflexivity |]). lia.
Qed.

Lemma days_in_month_le (y m : nat) : days_in_month y m <= 31.
Proof.
  unfold days_in_month.
  do 12 (destruct m as [| m]; [try destruct (is_leap y); lia |]). lia.
Qed.

(** The ISO form is the one [strptime] with [%Y-%m-%d] reads back: the
    rendering of the mapper and the parsing of the extractor agree on
    every calendar date. *)
Lemma strptime_date_str (d : date) :
  valid_date d = true -> strptime_ymd (date_str d) = Some d.
Proof.
  destruct d as [y m dd]. intros Hv. pose proof Hv as Hv'.
  unfold valid_date in Hv'. cbn [year month day] in Hv'.
  repeat (apply andb_true_iff in Hv'; destruct Hv' as [Hv' ?]).
  repeat match goal with H : (_ <=? _) = true |- _ => apply Nat.leb_le in H end.
  pose proof (days_in_month_le y m).
  unfold strptime_ymd, date_str. cbn [year month day].
  rewrite match_Y_year by assumption.
  cbn [append expect_char]. cbn [Ascii.eqb Bool.eqb].
  rewrite match_m_month by lia.
  cbn [append expect_char]. cbn [Ascii.eqb Bool.eqb].
  rewrite match_d_day by lia.
  rewrite Hv. reflexivity.
Qed.

End DateFacts.

Module MapperFacts.
Import DataMapper DateFacts.

Ltac each_slot H :=
  repeat (destruct H as [H | H]; [inversion H; subst; clear H |]);
  try contradiction.

(** The map [map_to_form_fields] returns, entry by entry in the order of
    insertion. *)
Lemma map_to_form_fields_value (p : PassportData) (g : G28Data) :
  map_to_form_fields p g
  = Ok ([ ("passport-surname", get_value (surname p));
          ("passport-given-names", get_value (given_names p));
          ("passport-middle-name", get_value (middle_names p));
          ("passport-number", get_value (passport_number p));
          ("passport-country", get_value (country_of_issue p));
          ("passport-nationality", get_value (nationality p));
          ("passport-dob",
           match date_of_birth p with Some d => date_str d | None => "" end);
          ("passport-pob", get_value (place_of_birth p));
          ("passport-sex", get_value (sex p));
          ("passport-issue-date",
           match issue_date p with Some d => date_str d | None => "" end);
          ("passport-expiry-date",
           match expiry_date p with Some d => date_str d | None => "" end) ]
        ++ match attorney g with
           | Some a =>
               [ ("online-account", get_value (a_online_account a));
                 ("family-name", get_value (a_last_name a));
                 ("given-name", get_value (a_first_name a));
                 ("middle-name", get_value (a_middle_name a));
                 ("street-number", get_value (a_street a));
                 ("city", get_value (a_city a));
                 ("state", get_value (a_state a));
                 ("zip", get_value (a_zip a));
                 ("country", get_value (a_country a));
                 ("daytime-phone", get_value (a_phone a));
                 ("email", get_value (a_email a)) ]
           | None => []
           end
        ++ match eligibility g with
           | Some e =>
               [ ("licensing-authority", get_value (licensing_authority e));
                 ("bar-number", get_value (bar_number e));
                 ("law-firm", get_value (law_firm e)) ]
           | None => []
           end)%list.
Proof.
  destruct p as [? ? ? ? ? ? dob ? ? iss exp], g as [att eli cli].
  destruct dob, iss, exp, att, eli; reflexivity.
Qed.

(** [map_to_form_fields] returns a map for every pair of records. *)
Lemma map_to_form_fields_total (p : PassportData) (g : G28Data) :
  exists fields, map_to_form_fields p g = Ok fields.
Proof. eexists. apply map_to_form_fields_value. Qed.

Ltac read_map Hm :=
  rewrite map_to_form_fields_value in Hm; inversion Hm; subst; clear Hm.

(** A text field of the passport is written under its identifier, as the
    value itself or as the empty string. *)
Lemma passport_text_slot_value (p : PassportData) (g : G28Data) fields id sel :
  map_to_form_fields p g = Ok fields ->
  In (id, sel) passport_text_slots ->
  dict_get id fields = Some (get_value (sel p)).
Proof.
  intros Hm Hin. read_map Hm. each_slot Hin; reflexivity.
Qed.

(** A date field of the passport is written under its identifier, as
    [str(date)] or as the empty string. *)
Lemma passport_date_slot_value (p : PassportData) (g : G28Data) fields id sel :
  map_to_form_fields p g = Ok fields ->
  In (id, sel) passport_date_slots ->
  dict_get id fields
  = Some (match sel p with Some d => date_str d | None => "" end).
Proof.
  intros Hm Hin. read_map Hm. each_slot Hin; reflexivity.
Qed.

Lemma attorney_slot_value (p : PassportData) (g : G28Data) fields a id sel :
  map_to_form_fields p g = Ok fields ->
  attorney g = Some a ->
  In (id, sel) attorney_slots ->
  dict_get id fields = Some (get_value (sel a)).
Proof.
  intros Hm Ha Hin. read_map Hm. rewrite Ha. each_slot Hin; reflexivity.
Qed.

Lemma eligibility_slot_value (p : PassportData) (g : G28Data) fields e id sel :
  map_to_form_fields p g = Ok fields ->
  eligibility g = Some e ->
  In (id, sel) eligibility_slots ->
  dict_get id fields = Some (get_value (sel e)).
Proof.
  intros Hm He Hin. read_map Hm. rewrite He.
  destruct (attorney g); each_slot Hin; reflexivity.
Qed.

(** The checkbox map, case by case. *)
Lemma get_checkbox_fields_value (g : G28Data) :
  get_checkbox_fields g
  = Ok (match eligibility g with
        | Some e =>
            match is_not_subject_to_orders e with
            | Some b => [("not-subject", b)]
            | None => []
            end
        | None => []
        end).
Proof.
  destruct g as [att [[la bn lf [b |]] |] cli]; reflexivity.
Qed.


(** C5.  The two mapper functions return a map for every pair of records,
    whatever is absent in them.  An absent attribute is written as the
    empty string under its identifier (for the attorney and eligibility
    groups, when the group is there); the checkbox map is empty when the
    eligibility boolean is absent; for two empty records every value is the
    empty string and there is no checkbox. *)
Theorem field_mapper_never_raises (p : PassportData) (g : G28Data) :
  exists fields checkboxes,
    map_to_form_fields p g = Ok fields
    /\ get_checkbox_fields g = Ok checkboxes
    /\ (forall id sel, In (id, sel) passport_text_slots -> sel p = None ->
        dict_get id fields = Some "")
    /\ (forall id sel, In (id, sel) passport_date_slots -> sel p = None ->
        dict_get id fields = Some "")
    /\ (forall a id sel, attorney g = Some a -> In (id, sel) attorney_slots ->
        sel a = None -> dict_get id fields = Some "")
    /\ (forall e id sel, eligibility g = Some e -> In (id, sel) eligibility_slots ->
        sel e = None -> dict_get id fields = Some "")
    /\ ((forall e, eligibility g = Some e -> is_not_subject_to_orders e = None) ->
        checkboxes = [])
    /\ (p = empty_passport -> g = empty_g28 ->
        all_empty fields /\ checkboxes = []).
Proof.
  destruct (map_to_form_fields_total p g) as [fields Hm].
  exists fields. eexists. split; [exact Hm |].
  split; [apply get_checkbox_fields_value |].
  split; [| split; [| split; [| split; [| split]]]].
  - intros id sel Hin Hn.
    rewrite (passport_text_slot_value p g fields id sel Hm Hin), Hn. reflexivity.
  - intros id sel Hin Hn.
    rewrite (passport_date_slot_value p g fields id sel Hm Hin), Hn. reflexivity.
  - intros a id sel Ha Hin Hn.
    rewrite (attorney_slot_value p g fields a id sel Hm Ha Hin), Hn. reflexivity.
  - intros e id sel He Hin Hn.
    rewrite (eligibility_slot_value p g fields e id sel Hm He Hin), Hn. reflexivity.
  - intros H. destruct (eligibility g) as [e |]; [| reflexivity].
    rewrite (H e eq_refl). reflexivity.
  - intros -> ->. read_map Hm. split; [| reflexivity].
    unfold all_empty. repeat constructor.
Qed.

(** C6.  Each of the three date fields is written under its identifier as
    [str(date)], the ISO calendar form: the date 2030-01-15 gives the
    string 2030-01-15, the string of a calendar date is read back by
    [strptime] with [%Y-%m-%d] as that date, and an absent date gives the
    empty string. *)
Theorem dates_render_iso (p : PassportData) (g : G28Data) :
  exists fields,
    map_to_form_fields p g = Ok fields
    /\ forall id sel, In (id, sel) passport_date_slots ->
       match sel p with
       | Some d =>
           dict_get id fields = Some (date_str d)
           /\ (d = mkdate 2030 1 15 -> dict_get id fields = Some "2030-01-15")
           /\ (valid_date d = true ->
               forall v, dict_get id fields = Some v ->
                         Extraction.strptime_ymd v = Some d)
       | None => dict_get id fields = Some ""
       end.
Proof.
  destruct (map_to_form_fields_total p g) as [fields Hm].
  exists fields. split; [exact Hm |]. intros id sel Hin.
  pose proof (passport_date_slot_value p g fields id sel Hm Hin) as H.
  destruct (sel p) as [d |]; [| exact H].
  split; [exact H |]. split.
  - intros ->. exact H.
  - intros Hv v Hg. rewrite H in Hg. inversion Hg; subst v.
    apply strptime_date_str. exact Hv.
Qed.

(** C7.  Both given-name identifiers are always in the map: the first
    holds [given_names], the second (the second element on the form that
    carries the same id) holds [middle_names]; with John and Q they hold
    John and Q, and with no middle name the second holds the empty
    string. *)
Theorem given_name_split (p : PassportData) (g : G28Data) :
  exists fields,
    map_to_form_fields p g = Ok fields
    /\ dict_get "passport-given-names" fields
       = Some (match given_names p with Some v => v | None => "" end)
    /\ dict_get "passport-middle-name" fields
       = Some (match middle_names p with Some v => v | None => "" end)
    /\ (given_names p = Some "John" -> middle_names p = Some "Q" ->
        dict_get "passport-given-names" fields = Some "John"
        /\ dict_get "passport-middle-name" fields = Some "Q")
    /\ (middle_names p = None ->
        dict_get "passport-middle-name" fields = Some "").
Proof.
  destruct (map_to_form_fields_total p g) as [fields Hm].
  exists fields. split; [exact Hm |].
  assert (H1 := passport_text_slot_value p g fields "passport-given-names"
                  given_names Hm (or_intror (or_introl eq_refl))).
  assert (H2 := passport_text_slot_value p g fields "passport-middle-name"
                  middle_names Hm (or_intror (or_intror (or_introl eq_refl)))).
  unfold get_value in H1, H2.
  split; [exact H1 |]. split; [exact H2 |]. split.
  - intros E1 E2. rewrite E1 in H1. rewrite E2 in H2. auto.
  - intros E. rewrite E in H2. exact H2.
Qed.

(** C9.  The checkbox map has no entry when the eligibility group or its
    boolean is absent, and exactly one entry, under [not-subject], holding
    the boolean itself (false or true) when it is present. *)
Theorem checkbox_null_vs_false (g : G28Data) :
  exists checkboxes,
    get_checkbox_fields g = Ok checkboxes
    /\ (eligibility g = None -> checkboxes = [])
    /\ (forall e, eligibility g = Some e -> is_not_subject_to_orders e = None ->
        checkboxes = [])
    /\ (forall e b, eligibility g = Some e -> is_not_subject_to_orders e = Some b ->
        checkboxes = [("not-subject", b)]
        /\ length checkboxes = 1
        /\ dict_get "not-subject" checkboxes = Some b).
Proof.
  eexists. split; [apply get_checkbox_fields_value |].
  split; [| split].
  - intros ->. reflexivity.
  - intros e -> ->. reflexivity.
  - intros e b -> ->. repeat split.
Qed.

End MapperFacts.

Module ExtractionFacts.
Import Extraction DictFacts.

Lemma outer_handler_ValueError {A : Type} (env : Services) (e : exception) :
  raises_ValueError (@outer_handler A env e).
Proof.
  unfold outer_handler. destruct (is_ValueError e) eqn:E.
  - exists e; auto.
  - eexists; split; [reflexivity | reflexivity].
Qed.

(** Whatever fails inside [extract_data] leaves it as a [ValueError]. *)
Lemma extract_data_raises_ValueError (env : Services) (pt gt : string) e :
  extract_data env pt gt = Raise e -> is_ValueError e = true.
Proof.
  unfold extract_data, try_except.
  match goal with |- context [match ?b with _ => _ end] => destruct b as [a | e0] end.
  - discriminate.
  - intros H. destruct (outer_handler_ValueError (A := PassportData * G28Data) env e0)
      as [e1 [H1 H2]].
    rewrite H1 in H. inversion H; subst; exact H2.
Qed.

(** After a reply that decodes to [data], the call is [build_records]
    under the outer handlers. *)
Lemma extract_data_decoded (env : Services) (pt gt resp : string) data :
  generate_content env (build_prompt pt gt) = Ok resp ->
  json_loads env (strip_fences resp) = inr data ->
  extract_data env pt gt = try_except (build_records env data) (outer_handler env).
Proof.
  intros Hg Hj. unfold extract_data. cbn zeta. rewrite Hg. cbn [bind].
  unfold parse_response. rewrite Hj. reflexivity.
Qed.

Lemma try_except_raises {A : Type} (env : Services) (r : result A) e :
  r = Raise e -> raises_ValueError (try_except r (outer_handler env)).
Proof. intros ->. cbn. apply outer_handler_ValueError. Qed.

Lemma get_method_not_object (v : pyvalue) :
  is_object v = false -> exists e, get_method v = Raise e.
Proof. destruct v; cbn; intros H; try discriminate; eexists; reflexivity. Qed.

Lemma build_records_not_object (env : Services) (data : pyvalue) :
  is_object data = false -> exists e, build_records env data = Raise e.
Proof.
  intros H. destruct (get_method_not_object data H) as [e He].
  exists e. unfold build_records. now rewrite He.
Qed.

Lemma build_records_bad_passport (env : Services) pairs v :
  dict_get "passport" pairs = Some v -> is_object v = false ->
  exists e, build_records env (PDict pairs) = Raise e.
Proof.
  intros Hp Hv. destruct (get_method_not_object v Hv) as [e He].
  exists e. unfold build_records. cbn [get_method bind].
  unfold py_get_default. rewrite Hp, He. reflexivity.
Qed.

Lemma build_records_bad_g28 (env : Services) pairs v :
  dict_get "g28" pairs = Some v -> is_object v = false ->
  exists e, build_records env (PDict pairs) = Raise e.
Proof.
  intros Hp Hv. destruct (get_method_not_object v Hv) as [e He].
  unfold build_records. cbn [get_method bind].
  destruct (get_method (py_get_default "passport" (PDict []) pairs)) as [pd | e1];
    cbn [bind]; [| eexists; reflexivity].
  destruct (PassportData_init env _) as [p | e2]; cbn [bind]; [| eexists; reflexivity].
  unfold py_get_default at 1. rewrite Hp, He. eexists; reflexivity.
Qed.

Lemma build_records_no_passport (env : Services) pairs p g :
  dict_get "passport" pairs = None ->
  build_records env (PDict pairs) = Ok (p, g) -> p = empty_passport.
Proof.
  intros Hp. unfold build_records. cbn [get_method bind].
  unfold py_get_default at 1. rewrite Hp. cbn.
  repeat match goal with
         | |- context [bind ?c _] => destruct c; cbn [bind]; try discriminate
         end.
  intros H; inversion H; reflexivity.
Qed.

Lemma build_records_no_g28 (env : Services) pairs p g :
  dict_get "g28" pairs = None ->
  build_records env (PDict pairs) = Ok (p, g) -> g = empty_g28.
Proof.
  intros Hp. unfold build_records. cbn [get_method bind].
  destruct (get_method (py_get_default "passport" (PDict []) pairs)) as [pd | e1];
    cbn [bind]; [| discriminate].
  destruct (PassportData_init env _) as [p0 | e2]; cbn [bind]; [| discriminate].
  unfold py_get_default at 1. rewrite Hp. cbn.
  intros H; inversion H; reflexivity.
Qed.

End ExtractionFacts.
Module ClassifyFacts.
Import Extraction StringFacts.

Lemma contains_lower_iff (p s : string) :
  lower p = p ->
  contains p (lower s) = true <-> occurs_ignoring_case p s.
Proof.
  intros Hp. rewrite contains_iff. split.
  - intros [pre [post H]].
    destruct (lower_split _ _ _ H) as [pre' [rest [E1 [E2 E3]]]].
    destruct (lower_split _ _ _ E3) as [mid [post' [E4 [E5 E6]]]].
    exists pre', mid, post'. subst. rewrite Hp. auto.
  - intros [pre [mid [post [E H]]]]. exists (lower pre), (lower post).
    subst s. rewrite !lower_app, H, Hp. reflexivity.
Qed.

(** The chain of tests of the last handler, read as occurrences. *)
Lemma classify_error_cases (env : Services) (text : string) :
  let auth := occurs "API key" text \/ occurs_ignoring_case "authentication" text in
  let quota := occurs_ignoring_case "quota" text
               \/ occurs_ignoring_case "rate limit" text in
  let model := occurs_ignoring_case "model" text in
  (auth -> classify_error env text = auth_message) /\
  (~ auth -> quota -> classify_error env text = quota_message) /\
  (~ auth -> ~ quota -> model -> classify_error env text = model_message env) /\
  (~ auth -> ~ quota -> ~ model -> classify_error env text = generic_message text).
Proof.
  cbv zeta. unfold classify_error, occurs.
  pose proof (contains_iff "API key" text) as H1.
  pose proof (contains_lower_iff "authentication" text eq_refl) as H2.
  pose proof (contains_lower_iff "quota" text eq_refl) as H3.
  pose proof (contains_lower_iff "rate limit" text eq_refl) as H4.
  pose proof (contains_lower_iff "model" text eq_refl) as H5.
  destruct (contains "API key" text), (contains "authentication" (lower text)),
    (contains "quota" (lower text)), (contains "rate limit" (lower text)),
    (contains "model" (lower text)); cbn;
    repeat split; intros; try reflexivity; exfalso; intuition discriminate.
Qed.

End ClassifyFacts.
Module DateFieldFacts.
Import Extraction DictFacts ExtractionFacts.

Lemma py_get_set_ne k k' v d :
  k <> k' -> py_get k' (dict_set k v d) = py_get k' d.
Proof. intros H. unfold py_get. now rewrite dict_get_set_ne. Qed.

Lemma truthy_str s : s <> "" -> truthy (PStr s) = true.
Proof.
  intros H. cbn. destruct (String.eqb s "") eqn:E; [| reflexivity].
  apply String.eqb_eq in E. contradiction.
Qed.

(** The loop round of the field itself writes [None]. *)
Lemma convert_unparseable d f s :
  dict_get f d = Some (PStr s) -> unparseable s ->
  convert_date_field d f = dict_set f PNone d.
Proof.
  intros Hg [Hne Hp]. unfold convert_date_field, py_get. rewrite Hg.
  rewrite truthy_str by assumption. cbn. now rewrite Hp.
Qed.

(** ... and leaves a [None] alone. *)
Lemma convert_none d f :
  dict_get f d = Some PNone -> convert_date_field d f = d.
Proof. intros Hg. unfold convert_date_field, py_get. now rewrite Hg. Qed.

(** A round for another field commutes with the write to [f]. *)
Lemma convert_other d f g v0 v :
  f <> g -> dict_get f d = Some v0 ->
  convert_date_field (dict_set f v d) g = dict_set f v (convert_date_field d g)
  /\ dict_get f (convert_date_field d g) = Some v0.
Proof.
  intros Hne Hg. unfold convert_date_field.
  rewrite py_get_set_ne by assumption.
  assert (Hin : dict_get f d <> None) by congruence.
  destruct (truthy (py_get g d) && isinstance_str (py_get g d)); [| auto].
  destruct (py_get g d); auto.
  destruct (strptime_ymd s);
    (split; [apply dict_set_comm; assumption
            | rewrite dict_get_set_ne by congruence; assumption]).
Qed.

(** Over the whole loop, a field holding an unparseable string behaves as
    if it held [None]. *)
Lemma convert_all_unparseable fs d f s :
  In f fs -> dict_get f d = Some (PStr s) -> unparseable s ->
  fold_left convert_date_field fs d
  = fold_left convert_date_field fs (dict_set f PNone d).
Proof.
  revert d. induction fs as [| g fs IH]; intros d Hin Hg Hs; [contradiction |].
  cbn [fold_left]. destruct (string_dec g f) as [-> | Hne].
  - rewrite (convert_unparseable d f s Hg Hs).
    rewrite (convert_none (dict_set f PNone d) f (dict_get_set_eq _ _ _)).
    reflexivity.
  - destruct Hin as [-> | Hin]; [contradiction |].
    destruct (convert_other d f g (PStr s) PNone (not_eq_sym Hne) Hg) as [E1 E2].
    rewrite E1. apply IH; assumption.
Qed.

Lemma convert_all_none fs d f :
  dict_get f d = Some PNone ->
  dict_get f (fold_left convert_date_field fs d) = Some PNone.
Proof.
  revert d. induction fs as [| g fs IH]; intros d Hg; [exact Hg |].
  cbn [fold_left]. apply IH. destruct (string_dec g f) as [-> | Hne].
  - now rewrite convert_none.
  - unfold convert_date_field.
    destruct (truthy (py_get g d) && isinstance_str (py_get g d)); [| assumption].
    destruct (py_get g d); try assumption.
    destruct (strptime_ymd s); rewrite dict_get_set_ne by assumption; assumption.
Qed.

(** A date field that is [None] in the keyword arguments is [None] in the
    record. *)
Lemma PassportData_init_none env kw f p :
  In f date_fields -> dict_get f kw = Some PNone ->
  PassportData_init env kw = Ok p -> passport_date f p = None.
Proof.
  intros Hin Hg. unfold PassportData_init. cbv zeta.
  repeat (destruct Hin as [<- | Hin]; [
    unfold field_date at 1 2 3; rewrite Hg;
    repeat match goal with
         | |- context [bind ?c _] => destruct c; cbn [bind]; try discriminate
         end;
    intros H; inversion H; reflexivity |]).
  contradiction.
Qed.

Lemma build_records_unparseable env pairs pd f s :
  dict_get "passport" pairs = Some (PDict pd) ->
  In f date_fields -> dict_get f pd = Some (PStr s) -> unparseable s ->
  build_records env (PDict pairs) = build_records env (with_null_date f pairs pd).
Proof.
  intros Hp Hin Hg Hs. unfold build_records, with_null_date.
  cbn [get_method bind]. unfold py_get_default.
  rewrite Hp, dict_get_set_eq. cbn [get_method bind].
  rewrite (convert_all_unparseable date_fields pd f s Hin Hg Hs).
  rewrite (dict_get_set_ne "passport" "g28") by discriminate.
  reflexivity.
Qed.

Lemma build_records_null_date env pairs pd f p g :
  dict_get "passport" pairs = Some (PDict pd) ->
  In f date_fields -> dict_get f pd = Some PNone ->
  build_records env (PDict pairs) = Ok (p, g) -> passport_date f p = None.
Proof.
  intros Hp Hin Hg. unfold build_records. cbn [get_method bind].
  unfold py_get_default at 1. rewrite Hp. cbn [get_method bind].
  destruct (PassportData_init env _) as [p0 | e] eqn:E; cbn [bind]; [| discriminate].
  apply PassportData_init_none with (f := f) in E;
    [| assumption | apply convert_all_none; assumption].
  repeat match goal with
         | |- context [bind ?c _] => destruct c; cbn [bind]; try discriminate
         end.
  intros H; inversion H; subst. exact E.
Qed.

End DateFieldFacts.
Module ExtractionClaims.
Import Extraction DictFacts StringFacts ExtractionFacts ClassifyFacts DateFieldFacts.

(** C1, as it holds on the code.  [extract_data] does not check the shape
    of the decoded document beyond what it reads: it raises a [ValueError]
    when the document is not an object, or when a [passport] or [g28]
    member is present and is not an object; a member that is absent
    defaults to an empty object and gives a record with every field absent,
    so a document with neither member yields two empty records. *)
Theorem extract_data_shape (env : Services) (pt gt resp : string) (data : pyvalue) :
  generate_content env (build_prompt pt gt) = Ok resp ->
  json_loads env (strip_fences resp) = inr data ->
  (is_object data = false -> raises_ValueError (extract_data env pt gt)) /\
  (forall pairs, data = PDict pairs ->
     (forall v, dict_get "passport" pairs = Some v -> is_object v = false ->
                raises_ValueError (extract_data env pt gt)) /\
     (forall v, dict_get "g28" pairs = Some v -> is_object v = false ->
                raises_ValueError (extract_data env pt gt)) /\
     (dict_get "passport" pairs = None ->
      forall p g, extract_data env pt gt = Ok (p, g) -> p = empty_passport) /\
     (dict_get "g28" pairs = None ->
      forall p g, extract_data env pt gt = Ok (p, g) -> g = empty_g28) /\
     (dict_get "passport" pairs = None -> dict_get "g28" pairs = None ->
      extract_data env pt gt = Ok (empty_passport, empty_g28))).
Proof.
  intros Hg Hj. rewrite (extract_data_decoded env pt gt resp data Hg Hj).
  split.
  - intros H. destruct (build_records_not_object env data H) as [e He].
    eapply try_except_raises; eassumption.
  - intros pairs ->. repeat split.
    + intros v Hv Ho. destruct (build_records_bad_passport env pairs v Hv Ho) as [e He].
      eapply try_except_raises; eassumption.
    + intros v Hv Ho. destruct (build_records_bad_g28 env pairs v Hv Ho) as [e He].
      eapply try_except_raises; eassumption.
    + intros Hp p g H. destruct (build_records env (PDict pairs)) as [[p0 g0] | e] eqn:E.
      * cbn in H. inversion H; subst. eapply build_records_no_passport; eassumption.
      * cbn in H. destruct (outer_handler_ValueError (A := PassportData * G28Data) env e)
          as [e' [H1 _]]. rewrite H1 in H. discriminate.
    + intros Hp p g H. destruct (build_records env (PDict pairs)) as [[p0 g0] | e] eqn:E.
      * cbn in H. inversion H; subst. eapply build_records_no_g28; eassumption.
      * cbn in H. destruct (outer_handler_ValueError (A := PassportData * G28Data) env e)
          as [e' [H1 _]]. rewrite H1 in H. discriminate.
    + intros Hp Hg28. unfold build_records. cbn [get_method bind].
      unfold py_get_default. rewrite Hp, Hg28. reflexivity.
Qed.

(** The hypotheses of [extract_data_shape] at the reply [{}]. *)
Lemma extract_data_shape_witness :
  generate_content (Scenario.services (Ok "{}")) (build_prompt "P" "G") = Ok "{}"
  /\ json_loads (Scenario.services (Ok "{}")) (strip_fences "{}") = inr (PDict [])
  /\ extract_data (Scenario.services (Ok "{}")) "P" "G"
     = Ok (empty_passport, empty_g28).
Proof.
  split; [reflexivity |]. split; [reflexivity |].
  exact (proj2 (proj2 (proj2 (proj2
           (proj2 (extract_data_shape (Scenario.services (Ok "{}")) "P" "G" "{}"
                     (PDict []) eq_refl eq_refl) [] eq_refl))))
           eq_refl eq_refl).
Defined.

(** C1 as stated fails: the reply [{}] decodes to an object with neither a
    [passport] nor a [g28] member, and the call returns two empty records. *)
Lemma missing_shape_succeeds :
  JsonDecoder.loads (strip_fences "{}") = inr (PDict [])
  /\ dict_get "passport" (@nil (string * pyvalue)) = None
  /\ dict_get "g28" (@nil (string * pyvalue)) = None
  /\ extract_data (Scenario.services (Ok "{}")) "passport text" "g28 text"
     = Ok (empty_passport, empty_g28).
Proof. repeat split; vm_compute; reflexivity. Qed.

(** C2, as it holds on the code.  In each of the three date fields a
    non-empty string that [strptime] rejects is replaced by [None]: the
    call ends exactly as it does on the document with that field [null],
    and a record it returns has the field absent. *)
Theorem unparseable_date_degrades (env : Services) (pt gt resp : string)
  (pairs pd : dict pyvalue) (f s : string) :
  generate_content env (build_prompt pt gt) = Ok resp ->
  json_loads env (strip_fences resp) = inr (PDict pairs) ->
  dict_get "passport" pairs = Some (PDict pd) ->
  In f date_fields ->
  dict_get f pd = Some (PStr s) ->
  s <> "" ->
  strptime_ymd s = None ->
  extract_data env pt gt
  = try_except (build_records env (with_null_date f pairs pd)) (outer_handler env)
  /\ (forall p g, extract_data env pt gt = Ok (p, g) -> passport_date f p = None).
Proof.
  intros Hg Hj Hp Hin Hf Hne Hs.
  rewrite (extract_data_decoded env pt gt resp _ Hg Hj).
  rewrite (build_records_unparseable env pairs pd f s Hp Hin Hf (conj Hne Hs)).
  split; [reflexivity |].
  intros p g H. unfold with_null_date in H.
  destruct (build_records env _) as [[p0 g0] | e] eqn:E.
  - cbn in H. inversion H; subst.
    eapply build_records_null_date; [| exact Hin | | exact E];
      apply dict_get_set_eq.
  - cbn in H. destruct (outer_handler_ValueError (A := PassportData * G28Data) env e)
      as [e' [H1 _]]. rewrite H1 in H. discriminate.
Qed.

(** The hypotheses of [unparseable_date_degrades] at a reply whose date of
    birth is the string 2030-02-30. *)
Lemma unparseable_date_degrades_witness :
  json_loads (Scenario.services (Ok Scenario.reply_february_30))
             (strip_fences Scenario.reply_february_30)
  = inr (PDict [("passport",
                 PDict [("surname", PStr "DOE");
                        ("date_of_birth", PStr "2030-02-30")])])
  /\ strptime_ymd "2030-02-30" = None
  /\ extract_data (Scenario.services (Ok Scenario.reply_february_30)) "P" "G"
     = Ok (mkPassportData (Some "DOE") None None None None None None None None
                          None None,
           empty_g28)
  /\ passport_date "date_of_birth"
       (mkPassportData (Some "DOE") None None None None None None None None
                       None None) = None.
Proof.
  split; [vm_compute; reflexivity |]. split; [vm_compute; reflexivity |].
  split; [vm_compute; reflexivity |].
  refine (proj2 (unparseable_date_degrades
                   (Scenario.services (Ok Scenario.reply_february_30)) "P" "G"
                   Scenario.reply_february_30
                   [("passport",
                     PDict [("surname", PStr "DOE");
                            ("date_of_birth", PStr "2030-02-30")])]
                   [("surname", PStr "DOE"); ("date_of_birth", PStr "2030-02-30")]
                   "date_of_birth" "2030-02-30"
                   eq_refl _ eq_refl (or_introl eq_refl) eq_refl _ _)
                _ empty_g28 _).
  - vm_compute; reflexivity.
  - discriminate.
  - vm_compute; reflexivity.
  - vm_compute; reflexivity.
Defined.

(** C2 as stated fails for a value that is not a string: the loop leaves a
    list in place, the record validation rejects it, and the whole call
    raises. *)
Lemma non_string_date_fails_extraction :
  JsonDecoder.loads (strip_fences Scenario.reply_date_as_list)
  = inr (PDict [("passport",
                 PDict [("date_of_birth", PList [PInt 2030; PInt 1; PInt 15])])])
  /\ extract_data (Scenario.services (Ok Scenario.reply_date_as_list))
       "passport text" "g28 text"
     = Raise (ValidationError "PassportData").
Proof. split; vm_compute; reflexivity. Qed.

(** C3, as it holds on the code.  When the stripped reply does not decode,
    the call raises a [ValueError] whose message is the fixed text with the
    words [invalid JSON], followed by the decoder's diagnostic (its
    message, line, column and offset). *)
Theorem invalid_json_message (env : Services) (pt gt resp msg : string) (pos : nat) :
  generate_content env (build_prompt pt gt) = Ok resp ->
  json_loads env (strip_fences resp) = inl (msg, pos) ->
  extract_data env pt gt
  = Raise (ValueError
             ("Gemini API returned invalid JSON format. JSON parsing error: "
              ++ str_JSONDecodeError msg (strip_fences resp) pos))
  /\ contains "invalid JSON"
       ("Gemini API returned invalid JSON format. JSON parsing error: "
        ++ str_JSONDecodeError msg (strip_fences resp) pos) = true.
Proof.
  intros Hg Hj. split.
  - unfold extract_data. cbv zeta. rewrite Hg. cbn [bind].
    unfold parse_response. rewrite Hj. reflexivity.
  - reflexivity.
Qed.

(** The hypotheses of [invalid_json_message] at the reply [???]. *)
Lemma invalid_json_message_witness :
  json_loads (Scenario.services (Ok Scenario.reply_not_json))
             (strip_fences Scenario.reply_not_json) = inl ("Expecting value", 0)
  /\ extract_data (Scenario.services (Ok Scenario.reply_not_json)) "P" "G"
     = Raise (ValueError
                ("Gemini API returned invalid JSON format. JSON parsing error: "
                 ++ str_JSONDecodeError "Expecting value"
                      (strip_fences Scenario.reply_not_json) 0)).
Proof.
  split; [reflexivity |].
  exact (proj1 (invalid_json_message (Scenario.services (Ok Scenario.reply_not_json))
                  "P" "G" Scenario.reply_not_json "Expecting value" 0
                  eq_refl eq_refl)).
Defined.

(** C3 as stated fails: for the reply [???] the message holds the
    decoder's diagnostic and no fragment of the reply. *)
Lemma invalid_json_message_has_no_excerpt :
  extract_data (Scenario.services (Ok "???")) "passport text" "g28 text"
  = Raise (ValueError
             "Gemini API returned invalid JSON format. JSON parsing error: Expecting value: line 1 column 1 (char 0)")
  /\ (forall frag, frag <> "" -> contains frag "???" = true ->
      contains frag
        "Gemini API returned invalid JSON format. JSON parsing error: Expecting value: line 1 column 1 (char 0)"
      = false).
Proof.
  split; [vm_compute; reflexivity |].
  intros [| c r] Hne H; [congruence |].
  apply contains_head in H. cbn in H.
  destruct (Ascii.eqb c "?") eqn:Ec; [| discriminate].
  apply Ascii.eqb_eq in Ec. subst c.
  match goal with |- ?b = false => destruct b eqn:E; [| reflexivity] end.
  apply contains_head in E. vm_compute in E. discriminate.
Qed.

(** C4, as it holds on the code.  An exception of the remote call that is
    not a [ValueError] is classified by its text, in this order: [API key]
    as written or [authentication] in any letter case gives the
    authentication message; else [quota] or [rate limit] in any letter
    case gives the quota message; else [model] in any letter case gives
    the invalid-model message; else the generic message wrapping the
    text. *)
Theorem failure_classification (env : Services) (pt gt : string) (e : exception) :
  generate_content env (build_prompt pt gt) = Raise e ->
  is_ValueError e = false ->
  let text := str_exception e in
  let auth := occurs "API key" text \/ occurs_ignoring_case "authentication" text in
  let quota := occurs_ignoring_case "quota" text
               \/ occurs_ignoring_case "rate limit" text in
  let model := occurs_ignoring_case "model" text in
  (auth -> extract_data env pt gt = Raise (ValueError auth_message)) /\
  (~ auth -> quota -> extract_data env pt gt = Raise (ValueError quota_message)) /\
  (~ auth -> ~ quota -> model ->
   extract_data env pt gt = Raise (ValueError (model_message env))) /\
  (~ auth -> ~ quota -> ~ model ->
   extract_data env pt gt = Raise (ValueError (generic_message text))).
Proof.
  intros Hg Hv. cbv zeta.
  assert (E : extract_data env pt gt
              = Raise (ValueError (classify_error env (str_exception e)))).
  { unfold extract_data. cbv zeta. rewrite Hg. cbn [bind try_except].
    unfold outer_handler. rewrite Hv. reflexivity. }
  rewrite E.
  destruct (classify_error_cases env (str_exception e)) as [H1 [H2 [H3 H4]]].
  repeat split; intros.
  - rewrite H1; auto.
  - rewrite H2; auto.
  - rewrite H3; auto.
  - rewrite H4; auto.
Qed.

(** The hypotheses of [failure_classification] at the remote service's
    message about an API key that is not valid. *)
Lemma failure_classification_witness :
  is_ValueError (OtherError "400 API key not valid. Please pass a valid API key.")
  = false
  /\ extract_data
       (Scenario.services
          (Raise (OtherError "400 API key not valid. Please pass a valid API key.")))
       "P" "G"
     = Raise (ValueError auth_message).
Proof.
  split; [reflexivity |].
  refine (proj1 (failure_classification
                   (Scenario.services
                      (Raise (OtherError
                                "400 API key not valid. Please pass a valid API key.")))
                   "P" "G" _ eq_refl eq_refl) _).
  left. apply (proj1 (contains_iff _ _)). reflexivity.
Defined.

(** C4 as stated fails: [api key] in lower case is not matched, and the
    error falls through to the generic message. *)
Lemma lowercase_api_key_is_generic :
  contains "api key" (lower "invalid api key supplied") = true
  /\ extract_data (Scenario.services (Raise (OtherError "invalid api key supplied")))
       "passport text" "g28 text"
     = Raise (ValueError (generic_message "invalid api key supplied"))
  /\ generic_message "invalid api key supplied" <> auth_message.
Proof.
  split; [vm_compute; reflexivity |]. split; [vm_compute; reflexivity |].
  vm_compute. discriminate.
Qed.

End ExtractionClaims.
Module OcrFacts.
Import Ocr.

Section WithWorld.

Variables W Image : Type.
Variable world : World W Image.

Abbreviation state := (Ocr.state W).
Abbreviation prog := (Ocr.prog W).
Abbreviation perform := (Ocr.perform W).
Abbreviation extract_text_from_pdf := (Ocr.extract_text_from_pdf W Image world).
Abbreviation ocr_fallback := (Ocr.ocr_fallback W Image world).
Abbreviation gemini_fallback := (Ocr.gemini_fallback W Image world).
Abbreviation extract_text_from_pdf_or_image :=
  (Ocr.extract_text_from_pdf_or_image W Image world).
Abbreviation extract_passport_text_with_gemini :=
  (Ocr.extract_passport_text_with_gemini W Image world).
Abbreviation extends := (Ocr.extends W).
Abbreviation extending := (Ocr.extending W).

Lemma extends_refl s : extends s s.
Proof. exists []. now rewrite app_nil_r. Qed.

Lemma extends_trans s1 s2 s3 : extends s1 s2 -> extends s2 s3 -> extends s1 s3.
Proof.
  intros [c1 H1] [c2 H2]. exists (c1 ++ c2)%list. now rewrite H2, H1, app_assoc.
Qed.

Lemma extending_ret {A : Type} (a : A) : extending (io_ret a).
Proof. intros s. apply extends_refl. Qed.

Lemma extending_raise {A : Type} (e : string) : extending (@io_raise _ _ A e).
Proof. intros s. apply extends_refl. Qed.

Lemma extending_lift {A : Type} (r : outcome string A) : extending (lift W r).
Proof. intros s. apply extends_refl. Qed.

Lemma extending_perform {A : Type} (c : call) (op : W -> outcome string A * W) :
  extending (perform c op).
Proof.
  intros s. unfold Ocr.perform. destruct (op (the_world W s)) as [r w'].
  exists [c]. reflexivity.
Qed.

Lemma extending_bind {A C : Type} (c : prog A) (k : A -> prog C) :
  extending c -> (forall a, extending (k a)) -> extending (io_bind c k).
Proof.
  intros Hc Hk s. unfold io_bind. specialize (Hc s).
  destruct (c s) as [[a | e] s1]; cbn in Hc.
  - eapply extends_trans; [exact Hc | apply Hk].
  - exact Hc.
Qed.

Lemma extending_try {A : Type} (c : prog A) (h : string -> prog A) :
  extending c -> (forall e, extending (h e)) -> extending (io_try c h).
Proof.
  intros Hc Hh s. unfold io_try. specialize (Hc s).
  destruct (c s) as [[a | e] s1]; cbn in Hc.
  - exact Hc.
  - eapply extends_trans; [exact Hc | apply Hh].
Qed.

Lemma extending_if {A : Type} (b : bool) (c1 c2 : prog A) :
  extending c1 -> extending c2 -> extending (if b then c1 else c2).
Proof. destruct b; auto. Qed.

Create HintDb extending.
#[local] Hint Resolve extending_ret extending_raise extending_lift
  extending_perform extending_bind extending_try extending_if : extending.

Lemma extending_get_ocr_reader : extending (_get_ocr_reader W Image world).
Proof.
  intros s. unfold _get_ocr_reader. destruct (ocr_reader W s).
  - apply extends_refl.
  - pose proof (extending_perform InitOcr (paddle_init W Image world) s) as H.
    destruct (perform InitOcr (paddle_init W Image world) s) as [[u | e] s1];
      cbn in *; exact H.
Qed.

Lemma extending_image (image : Image) :
  extending (extract_text_from_image W Image world image).
Proof.
  unfold extract_text_from_image.
  apply extending_try; [| auto with extending].
  apply extending_bind; [apply extending_get_ocr_reader | intros _].
  apply extending_bind; [auto with extending | intros results].
  destruct results as [| [[| l ls] |] rest]; auto with extending.
  destruct (confident_texts (l :: ls)); auto with extending.
Qed.

Lemma extending_convert file_path page_num :
  extending (convert_pdf_page_to_image W Image world file_path page_num).
Proof.
  unfold convert_pdf_page_to_image.
  apply extending_try; [| auto with extending].
  apply extending_bind; [auto with extending | intros doc].
  apply extending_if; [auto with extending |].
  destruct (nth_error doc page_num); auto with extending.
Qed.

Lemma extending_ocr_pages file_path page_nums :
  extending (ocr_pages W Image world file_path page_nums).
Proof.
  induction page_nums as [| n rest IH]; cbn [ocr_pages]; [auto with extending |].
  apply extending_bind.
  - apply extending_try; [| auto with extending].
    apply extending_bind; [apply extending_convert | intros [image |]];
      [| auto with extending].
    apply extending_bind; [apply extending_image | intros [t |]];
      auto with extending.
  - intros block. apply extending_bind; [exact IH | auto with extending].
Qed.

(** The direct extraction always returns, after exactly one call. *)
Lemma extract_text_from_pdf_returns file_path (s : state) :
  exists text s1,
    extract_text_from_pdf file_path s = (Ok text, s1)
    /\ trace W s1 = (trace W s ++ [OpenForText file_path])%list.
Proof.
  unfold Ocr.extract_text_from_pdf, io_try, io_bind, Ocr.perform.
  destruct (fitz_open W Image world file_path (the_world W s)) as [[doc | e] w'].
  - unfold lift. destruct (page_text_parts _ doc 0) as [[| part parts] | e];
      cbn; eexists; eexists; split; reflexivity.
  - cbn. eexists; eexists; split; reflexivity.
Qed.

(** The OCR fallback starts by asking for the page count. *)
Lemma ocr_fallback_calls file_path (s : state) :
  exists more,
    trace W (snd (ocr_fallback file_path s))
    = (trace W s ++ OpenForPageCount file_path :: more)%list.
Proof.
  unfold Ocr.ocr_fallback, io_bind.
  assert (Hc : exists n s1, get_pdf_page_count W Image world file_path s = (Ok n, s1)
                 /\ trace W s1 = (trace W s ++ [OpenForPageCount file_path])%list).
  { unfold get_pdf_page_count, io_try, io_bind, Ocr.perform.
    destruct (fitz_open W Image world file_path (the_world W s)) as [[doc | e] w'];
      cbn; eexists; eexists; split; reflexivity. }
  destruct Hc as (n & s1 & E & Ht). rewrite E.
  destruct (n =? 0).
  - exists []. exact Ht.
  - assert (Hx : extending
                   (io_bind (ocr_pages W Image world file_path (seq 0 n))
                      (fun page_texts =>
                         match page_texts with
                         | [] => io_ret None
                         | _ => io_ret (Some (join (newline ++ newline) page_texts))
                         end))).
    { apply extending_bind; [apply extending_ocr_pages |].
      intros [| ? ?]; auto with extending. }
    destruct (Hx s1) as [calls Hcalls]. unfold io_bind in Hcalls.
    exists calls. rewrite Hcalls, Ht, <- app_assoc. reflexivity.
Qed.


Lemma extending_stripped_text response :
  extending (stripped_text W response).
Proof.
  unfold stripped_text. apply extending_bind; [auto with extending |].
  intros [t |]; [destruct (String.eqb t "") |]; auto with extending.
Qed.

(** The remote fallback starts by uploading the file. *)
Lemma gemini_fallback_calls file_path (s : state) :
  exists more,
    trace W (snd (gemini_fallback file_path s))
    = (trace W s ++ GeminiUpload file_path :: more)%list.
Proof.
  unfold Ocr.gemini_fallback, io_bind at 1.
  destruct (perform (GeminiUpload file_path) (gemini_upload W Image world file_path) s)
    as [[gemini_file | e] s1] eqn:E.
  - assert (Ht : trace W s1 = (trace W s ++ [GeminiUpload file_path])%list).
    { unfold Ocr.perform in E.
      destruct (gemini_upload W Image world file_path (the_world W s)).
      inversion E; reflexivity. }
    match goal with
    | |- context [io_try ?c ?h s1] =>
        assert (Hx : extending (io_try c h))
    end.
    { apply extending_try.
      - apply extending_bind; [auto with extending | intros response].
        apply extending_bind; [auto with extending | intros _].
        apply extending_stripped_text.
      - intros e. apply extending_bind; [| auto with extending].
        apply extending_try; auto with extending. }
    destruct (Hx s1) as [calls Hcalls].
    exists calls. rewrite Hcalls, Ht, <- app_assoc. reflexivity.
  - exists []. unfold Ocr.perform in E.
    destruct (gemini_upload W Image world file_path (the_world W s)).
    inversion E; reflexivity.
Qed.

Lemma strip_empty : strip "" = "".
Proof. reflexivity. Qed.

(** The test of the code is the threshold on the trimmed length. *)
Lemma direct_text_sufficient_iff (text : option string) :
  direct_text_sufficient text = true <-> long_enough text.
Proof.
  unfold long_enough, direct_text_sufficient. destruct text as [t |].
  - rewrite andb_true_iff, Nat.leb_le. split.
    + intros [_ H]. exists t. auto.
    + intros [t' [E H]]. inversion E; subst t'. split; [| exact H].
      destruct t; [rewrite strip_empty in H; cbn in H; lia | reflexivity].
  - split; [discriminate | intros [t [E _]]; discriminate].
Qed.

(** The PDF branch of the local function, step by step. *)
Lemma pdf_branch_local file_path (s : state) :
  lower (path_suffix file_path) = ".pdf" ->
  extract_text_from_pdf_or_image file_path s
  = match extract_text_from_pdf file_path s with
    | (Ok text, s1) =>
        if direct_text_sufficient text then (Ok text, s1)
        else ocr_fallback file_path s1
    | (Raise e, s1) => (Raise e, s1)
    end.
Proof.
  intros Hext. unfold Ocr.extract_text_from_pdf_or_image. cbv zeta.
  rewrite Hext. cbn [String.eqb Ascii.eqb Bool.eqb]. unfold io_bind.
  destruct (extract_text_from_pdf file_path s) as [[text | e] s1]; [| reflexivity].
  destruct (direct_text_sufficient text); reflexivity.
Qed.

(** The PDF branch of the remote function, once the client is configured. *)
Lemma pdf_branch_remote file_path (s s0 : state) :
  lower (path_suffix file_path) = ".pdf" ->
  perform GeminiConfigure (gemini_configure W Image world) s = (Ok tt, s0) ->
  extract_passport_text_with_gemini file_path s
  = match extract_text_from_pdf file_path s0 with
    | (Ok text, s1) =>
        if direct_text_sufficient text then (Ok text, s1)
        else
          match gemini_fallback file_path s1 with
          | (Ok a, s2) => (Ok a, s2)
          | (Raise _, s2) => (Ok None, s2)
          end
    | (Raise _, s1) => (Ok None, s1)
    end.
Proof.
  intros Hext Hc. unfold Ocr.extract_passport_text_with_gemini, io_try. cbv zeta.
  unfold io_bind at 1. rewrite Hc. rewrite Hext.
  cbn [String.eqb Ascii.eqb Bool.eqb]. unfold io_bind.
  destruct (extract_text_from_pdf file_path s0) as [[text | e] s1]; [| reflexivity].
  destruct (direct_text_sufficient text); reflexivity.
Qed.

(** C8.  For a PDF, both acquisition functions accept the directly
    extracted text exactly when it exists and its trimmed length is at
    least 50 characters.  When it is, the text is returned and the direct
    extraction is the only call made (after configuring the client, on the
    remote path).  When it is not, the run continues with the fallback:
    the page count is asked for on the local path, the file is uploaded on
    the remote path. *)
Theorem direct_text_threshold (file_path : Path) (s : state) :
  lower (path_suffix file_path) = ".pdf" ->
  (exists text s1,
     extract_text_from_pdf file_path s = (Ok text, s1)
     /\ trace W s1 = (trace W s ++ [OpenForText file_path])%list
     /\ (long_enough text ->
         extract_text_from_pdf_or_image file_path s = (Ok text, s1))
     /\ (~ long_enough text ->
         extract_text_from_pdf_or_image file_path s = ocr_fallback file_path s1
         /\ exists more,
             trace W (snd (extract_text_from_pdf_or_image file_path s))
             = (trace W s ++ OpenForText file_path
                  :: OpenForPageCount file_path :: more)%list))
  /\ (forall s0,
        perform GeminiConfigure (gemini_configure W Image world) s = (Ok tt, s0) ->
        exists text s1,
          extract_text_from_pdf file_path s0 = (Ok text, s1)
          /\ trace W s1
             = (trace W s ++ [GeminiConfigure; OpenForText file_path])%list
          /\ (long_enough text ->
              extract_passport_text_with_gemini file_path s = (Ok text, s1))
          /\ (~ long_enough text ->
              exists more,
                trace W (snd (extract_passport_text_with_gemini file_path s))
                = (trace W s ++ GeminiConfigure :: OpenForText file_path
                     :: GeminiUpload file_path :: more)%list)).
Proof.
  intros Hext. split.
  - destruct (extract_text_from_pdf_returns file_path s) as (text & s1 & E & Ht).
    exists text, s1. split; [exact E |]. split; [exact Ht |].
    rewrite (pdf_branch_local file_path s Hext), E.
    split.
    + intros H. apply direct_text_sufficient_iff in H. rewrite H. reflexivity.
    + intros H. destruct (direct_text_sufficient text) eqn:D;
        [apply direct_text_sufficient_iff in D; contradiction |].
      split; [reflexivity |].
      destruct (ocr_fallback_calls file_path s1) as [more Hm].
      exists more. rewrite Hm, Ht, <- app_assoc. reflexivity.
  - intros s0 Hc.
    assert (Ht0 : trace W s0 = (trace W s ++ [GeminiConfigure])%list).
    { unfold Ocr.perform in Hc.
      destruct (gemini_configure W Image world (the_world W s)).
      inversion Hc; reflexivity. }
    destruct (extract_text_from_pdf_returns file_path s0) as (text & s1 & E & Ht).
    exists text, s1. split; [exact E |].
    split; [rewrite Ht, Ht0, <- app_assoc; reflexivity |].
    rewrite (pdf_branch_remote file_path s s0 Hext Hc), E.
    split.
    + intros H. apply direct_text_sufficient_iff in H. rewrite H. reflexivity.
    + intros H. destruct (direct_text_sufficient text) eqn:D;
        [apply direct_text_sufficient_iff in D; contradiction |].
      destruct (gemini_fallback_calls file_path s1) as [more Hm].
      exists more.
      destruct (gemini_fallback file_path s1) as [[a | e] s2]; cbn in *;
        rewrite Hm, Ht, Ht0, <- !app_assoc; reflexivity.
Qed.

End WithWorld.
End OcrFacts.
Module OcrExamples.
Import Ocr OcrScenario.

(** The hypotheses of [direct_text_threshold] at a PDF whose extracted text
    has exactly 50 characters: it is accepted, and the direct extraction is
    the only call. *)
Lemma direct_text_threshold_witness :
  lower (path_suffix passport_pdf) = ".pdf"
  /\ String.length (strip (page_marker 0 ++ text_41)) = 50
  /\ extract_text_from_pdf_or_image unit unit (one_page_world text_41)
       passport_pdf initial
     = (Ok (Some (page_marker 0 ++ text_41)),
        mkState unit tt [OpenForText passport_pdf] false).
Proof.
  split; [reflexivity |]. split; [reflexivity |].
  destruct (OcrFacts.direct_text_threshold unit unit (one_page_world text_41)
              passport_pdf initial eq_refl)
    as [(text & s1 & E & _ & Hacc & _) _].
  vm_compute in E. inversion E; subst text s1.
  apply Hacc. eexists; split; [reflexivity |]. vm_compute. apply le_n.
Defined.

(** At 49 characters both functions go on to their fallback. *)
Lemma forty_nine_characters_fall_back :
  String.length (strip (page_marker 0 ++ text_40)) = 49
  /\ trace unit (snd (extract_text_from_pdf_or_image unit unit
                        (one_page_world text_40) passport_pdf initial))
     = [OpenForText passport_pdf; OpenForPageCount passport_pdf;
        OpenForRender passport_pdf 0]
  /\ trace unit (snd (extract_passport_text_with_gemini unit unit
                        (one_page_world text_40) passport_pdf initial))
     = [GeminiConfigure; OpenForText passport_pdf; GeminiUpload passport_pdf;
        GeminiGenerate; GeminiDelete "files/passport"].
Proof. repeat split; vm_compute; reflexivity. Qed.

End OcrExamples.
Module FormFillerFacts.
Import FormFiller.

Section WithBrowser.

Variables W P B : Type.
Variable browser : Browser W P B.
Variable FORM_URL : string.
Variable HEADLESS_MODE : bool.

Abbreviation state := (FormFiller.state W P B).
Abbreviation _fill_page := (FormFiller._fill_page W P B browser FORM_URL).
Abbreviation drive_browser := (FormFiller.drive_browser W P B browser FORM_URL HEADLESS_MODE).
Abbreviation populate_form := (FormFiller.populate_form W P B browser FORM_URL HEADLESS_MODE).

(** Splitting a sequence of two steps that ended normally. *)
Lemma io_bind_Ok {A C : Type} (c : io string state A) (k : A -> io string state C)
  (s s' : state) (r : C) :
  io_bind c k s = (Ok r, s') ->
  exists a s1, c s = (Ok a, s1) /\ k a s1 = (Ok r, s').
Proof.
  unfold io_bind. destruct (c s) as [[a | e] s1]; intros H.
  - exists a, s1. auto.
  - discriminate.
Qed.

Lemma io_ret_Ok {A : Type} (a r : A) (s s' : state) :
  @io_ret string state A a s = (Ok r, s') -> r = a /\ s' = s.
Proof. unfold io_ret. intros H; inversion H; auto. Qed.

Ltac split_steps :=
  repeat match goal with
         | H : io_bind _ _ _ = (Ok _, _) |- _ =>
             apply io_bind_Ok in H; destruct H as (? & ? & ? & H)
         end.

Lemma _fill_page_completed fields checkboxes generate_pdf (s s' : state) r :
  _fill_page fields checkboxes generate_pdf s = (Ok r, s') -> completed r.
Proof.
  unfold FormFiller._fill_page. intros H. split_steps.
  apply io_ret_Ok in H. destruct H as [-> _].
  unfold completed. cbn. repeat split; try reflexivity.
  - intros E. match type of E with context [fst ?t] => destruct (fst t) end;
      [discriminate | congruence].
  - intros E. match type of E with context [fst ?t] => destruct (fst t) end;
      [congruence | reflexivity].
Qed.

Lemma with_playwright_Ok {A : Type} (body : P -> io string state A) s s' r :
  with_playwright W P B browser body s = (Ok r, s') ->
  exists p s1 s2, body p s1 = (Ok r, s2).
Proof.
  unfold with_playwright. intros H. split_steps.
  apply io_ret_Ok in H. destruct H as [-> _].
  match goal with
  | H0 : io_try (body ?p) _ ?s1 = _ |- _ =>
      unfold io_try in H0; destruct (body p s1) as [[a | e] s2] eqn:E;
      [ inversion H0; subst; eauto
      | unfold io_bind in H0;
        destruct (perform W P B (stop W P B browser p) s2) as [[? | ?] ?];
        cbn in H0; discriminate ]
  end.
Qed.

(** A normal end of the browser run hands back the report of [_fill_page]. *)
Lemma drive_browser_completed fields checkboxes (s s' : state) r :
  drive_browser fields checkboxes s = (Ok r, s') -> completed r.
Proof.
  unfold FormFiller.drive_browser. destruct HEADLESS_MODE; intros H.
  - apply with_playwright_Ok in H. destruct H as (p & s1 & s2 & H).
    split_steps. apply io_ret_Ok in H. destruct H as [-> _].
    eapply _fill_page_completed; eassumption.
  - split_steps. apply io_ret_Ok in H. destruct H as [-> _].
    eapply _fill_page_completed; eassumption.
Qed.

(** A Playwright that does not start makes the browser run raise. *)
Lemma drive_browser_start_fails fields checkboxes (s : state) e w' :
  start W P B browser (the_world W P B s) = (Raise e, w') ->
  drive_browser fields checkboxes s
  = (Raise e, FormFiller.mkState W P B w' (_visual_sessions W P B s)).
Proof.
  intros H. unfold FormFiller.drive_browser, with_playwright, io_bind,
    FormFiller.perform.
  destruct HEADLESS_MODE; rewrite H; reflexivity.
Qed.

(** C10.  [populate_form] returns a report whatever the browser does.  An
    exception that leaves the browser run (the launch, the navigation, the
    screenshot, closing; failures of single fields are tallied inside) is
    caught: the report then has success false, both counts zero, both
    lists empty, no artifact path and the error text; a Playwright that
    does not start is one such case.  A run that reaches its end reports
    no error, and success exactly when at least one field or checkbox was
    filled. *)
Theorem populate_form_never_raises (fields : dict string) (checkboxes : dict bool)
  (s : state) :
  exists r s',
    populate_form fields checkboxes s = (Ok r, s')
    /\ (forall e s1, drive_browser fields checkboxes s = (Raise e, s1) ->
        s' = s1
        /\ r = failure_report e
        /\ success r = false /\ total_filled r = 0 /\ total_failed r = 0
        /\ filled_fields r = [] /\ failed_fields r = []
        /\ screenshot_path r = None /\ pdf_path r = None
        /\ error r = Some ("Form population failed: " ++ e))
    /\ (forall r1 s1, drive_browser fields checkboxes s = (Ok r1, s1) ->
        s' = s1 /\ r = r1
        /\ error r = None
        /\ total_filled r = length (filled_fields r)
        /\ total_failed r = length (failed_fields r)
        /\ (success r = true <-> filled_fields r <> []))
    /\ (forall e w', start W P B browser (the_world W P B s) = (Raise e, w') ->
        r = failure_report e).
Proof.
  unfold FormFiller.populate_form, io_try.
  destruct (drive_browser fields checkboxes s) as [[r1 | e] s1] eqn:E.
  - exists r1, s1. split; [reflexivity |].
    split; [intros ? ? H; discriminate |]. split.
    + intros r2 s2 H. inversion H; subst.
      destruct (drive_browser_completed _ _ _ _ _ E) as (H1 & H2 & H3 & H4 & _).
      repeat split; try assumption; apply H4.
    + intros e w' H. rewrite (drive_browser_start_fails _ _ _ _ _ H) in E.
      discriminate.
  - exists (failure_report e), s1. split; [reflexivity |]. split; [| split].
    + intros e2 s2 H. inversion H; subst. repeat split.
    + intros ? ? H; discriminate.
    + intros e2 w' H. rewrite (drive_browser_start_fails _ _ _ _ _ H) in E.
      inversion E; reflexivity.
Qed.

End WithBrowser.

End FormFillerFacts.
Module MoreFacts.
Import Extraction ExtractionFacts Ocr.

(** Whatever fails inside [extract_data] leaves it as a [ValueError]: the
    first handler re-raises one, the second wraps anything else. *)
Theorem extract_data_fails_with_ValueError (env : Services) (pt gt : string) :
  match extract_data env pt gt with
  | Ok _ => True
  | Raise e => is_ValueError e = true
  end.
Proof.
  destruct (extract_data env pt gt) as [r | e] eqn:E; [exact I |].
  eapply extract_data_raises_ValueError. exact E.
Qed.


(** The confidence filter keeps a detection only above 0.3: of detections
    at 0.29, 0.30, 0.31 and 0.9 the last two remain, in their order, and
    are joined by single spaces. *)
Theorem confidence_filter_is_strict :
  confident_texts
    [ Some (TextConf "alpha" 0.29%float); Some (TextConf "beta" 0.30%float);
      Some (TextConf "gamma" 0.31%float); Some (TextConf "delta" 0.9%float) ]
  = ["gamma"; "delta"]
  /\ join " " ["gamma"; "delta"] = "gamma delta"
  /\ forall lines text,
       In text (confident_texts lines) ->
       exists line, In (Some line) lines
                    /\ match line with
                       | TextConf t c => t = text /\ PrimFloat.ltb 0.3%float c = true
                       | TextOnly t => t = text
                       | OtherInfo => False
                       end.
Proof.
  split; [vm_compute; reflexivity |]. split; [reflexivity |].
  induction lines as [| [[t c | t |] |] rest IH]; cbn [confident_texts]; intros text H.
  - contradiction.
  - destruct (PrimFloat.ltb 0.3 c) eqn:E.
    + destruct H as [<- | H].
      * exists (TextConf t c). split; [left; reflexivity | auto].
      * destruct (IH text H) as [l [Hl Hp]]. exists l. split; [right; exact Hl | exact Hp].
    + destruct (IH text H) as [l [Hl Hp]]. exists l. split; [right; exact Hl | exact Hp].
  - destruct (PrimFloat.ltb 0.3 1.0) eqn:E.
    + destruct H as [<- | H].
      * exists (TextOnly t). split; [left; reflexivity | reflexivity].
      * destruct (IH text H) as [l [Hl Hp]]. exists l. split; [right; exact Hl | exact Hp].
    + destruct (IH text H) as [l [Hl Hp]]. exists l. split; [right; exact Hl | exact Hp].
  - destruct (IH text H) as [l [Hl Hp]]. exists l. split; [right; exact Hl | exact Hp].
  - destruct (IH text H) as [l [Hl Hp]]. exists l. split; [right; exact Hl | exact Hp].
Qed.

End MoreFacts.
Module FenceFacts.
Import Extraction StringFacts.

Lemma length_app (a b : string) :
  String.length (a ++ b) = String.length a + String.length b.
Proof. induction a; cbn; congruence. Qed.

Lemma drop_app_length (a b : string) : drop (String.length a) (a ++ b) = b.
Proof. induction a; cbn; auto. Qed.

Lemma take_app_length (a b : string) : take (String.length a) (a ++ b) = a.
Proof. induction a; cbn; congruence. Qed.

(** [rstrip] keeps a text that ends in a character that is not a space, and
    drops a final space. *)
Lemma rstrip_keeps (s : string) (c : ascii) :
  isspace c = false -> rstrip (s ++ String c "") = s ++ String c "".
Proof.
  intros Hc. induction s as [| a s IH]; cbn [append rstrip].
  - now rewrite Hc.
  - rewrite IH. destruct s; reflexivity.
Qed.

Lemma rstrip_drops (s : string) (c : ascii) :
  isspace c = true -> rstrip (s ++ String c "") = rstrip s.
Proof.
  intros Hc. induction s as [| a s IH]; cbn [append rstrip].
  - now rewrite Hc.
  - now rewrite IH.
Qed.

Lemma endswith_app (a p : string) : endswith p (a ++ p) = true.
Proof.
  unfold endswith. rewrite length_app.
  replace (String.length a + String.length p - String.length p)
    with (String.length a) by lia.
  rewrite drop_app_length, String.eqb_refl.
  apply andb_true_iff. split; [apply Nat.leb_le; lia | reflexivity].
Qed.

Lemma drop_last_app (a p : string) : drop_last (String.length p) (a ++ p) = a.
Proof.
  unfold drop_last. rewrite length_app.
  replace (String.length a + String.length p - String.length p)
    with (String.length a) by lia.
  apply take_app_length.
Qed.

Lemma drop_suffix_last (n : nat) (s : string) (c : ascii) :
  n <= String.length s -> drop n (s ++ String c "") = drop n s ++ String c "".
Proof.
  revert s. induction n as [| n IH]; intros s H; [reflexivity |].
  destruct s as [| a s]; cbn in *; [lia |]. apply IH. lia.
Qed.

Lemma last_char_inj (u v : string) (c d : ascii) :
  u ++ String c "" = v ++ String d "" -> c = d.
Proof.
  revert v. induction u as [| a u IH]; intros [| b v] H; cbn in H.
  - congruence.
  - inversion H. destruct v; discriminate.
  - inversion H. destruct u; discriminate.
  - inversion H. eauto.
Qed.

(** A text ending in a closing brace does not end in a fence. *)
Lemma endswith_fence_brace (s : string) : endswith "```" (s ++ "}") = false.
Proof.
  unfold endswith. apply andb_false_iff.
  destruct (Nat.leb_spec (String.length "```") (String.length (s ++ "}")))
    as [H | H]; [right | left; reflexivity].
  rewrite length_app in *. cbn [String.length] in *.
  rewrite drop_suffix_last by lia.
  apply String.eqb_neq. intros E.
  change "```" with ("``" ++ String "`" "") in E.
  apply last_char_inj in E. discriminate.
Qed.

Lemma endswith_fence_object (inner : string) :
  endswith "```" ("{" ++ inner ++ "}") = false.
Proof. exact (endswith_fence_brace ("{" ++ inner)). Qed.

Lemma strip_object (inner : string) :
  strip ("{" ++ inner ++ "}") = "{" ++ inner ++ "}".
Proof.
  unfold strip.
  change (lstrip ("{" ++ inner ++ "}")) with ((String "{" inner) ++ String "}" "").
  apply rstrip_keeps. reflexivity.
Qed.

Lemma strip_object_lines (inner : string) :
  strip (newline ++ ("{" ++ inner ++ "}") ++ newline) = "{" ++ inner ++ "}".
Proof.
  unfold strip.
  change (lstrip (newline ++ ("{" ++ inner ++ "}") ++ newline))
    with (("{" ++ inner ++ "}") ++ String (ascii_of_nat 10) "").
  rewrite (rstrip_drops ("{" ++ inner ++ "}") (ascii_of_nat 10)) by reflexivity.
  change ("{" ++ inner ++ "}") with ((String "{" inner) ++ String "}" "").
  apply rstrip_keeps. reflexivity.
Qed.

(** What is left of a fenced object after the opening fence has gone. *)
Lemma strip_closing_fence (inner : string) :
  let rest := newline ++ ("{" ++ inner ++ "}") ++ newline ++ "```" in
  strip (if endswith "```" rest then drop_last 3 rest else rest)
  = "{" ++ inner ++ "}".
Proof.
  cbv zeta.
  replace (newline ++ ("{" ++ inner ++ "}") ++ newline ++ "```")
    with ((newline ++ ("{" ++ inner ++ "}") ++ newline) ++ "```")
    by (rewrite !append_assoc; reflexivity).
  rewrite endswith_app.
  change 3 with (String.length "```"). rewrite drop_last_app.
  apply strip_object_lines.
Qed.

Lemma lstrip_keeps (c : ascii) (pre rest : string) :
  isspace c = false -> lstrip (String c pre ++ rest) = String c pre ++ rest.
Proof. intros Hc. cbn [append lstrip]. now rewrite Hc. Qed.

Lemma fenced_ends_in_backquote (head inner : string) :
  head ++ newline ++ ("{" ++ inner ++ "}") ++ newline ++ "```"
  = (head ++ newline ++ ("{" ++ inner ++ "}") ++ newline ++ "``") ++ String "`" "".
Proof. rewrite !append_assoc. reflexivity. Qed.

Lemma strip_fenced (pre inner : string) (c : ascii) :
  isspace c = false ->
  strip (String c pre ++ newline ++ ("{" ++ inner ++ "}") ++ newline ++ "```")
  = String c pre ++ newline ++ ("{" ++ inner ++ "}") ++ newline ++ "```".
Proof.
  intros Hc. unfold strip. rewrite lstrip_keeps by exact Hc.
  rewrite fenced_ends_in_backquote. apply rstrip_keeps. reflexivity.
Qed.

(** JSON fence stripping: an object wrapped in a fence tagged [json], or in
    a bare fence, is the object itself, so it decodes as the unwrapped
    object does. *)
Theorem fence_stripping (inner : string) :
  let object := "{" ++ inner ++ "}" in
  strip_fences object = object
  /\ strip_fences ("```json" ++ newline ++ object ++ newline ++ "```") = object
  /\ strip_fences ("```" ++ newline ++ object ++ newline ++ "```") = object
  /\ forall env : Services,
       json_loads env
         (strip_fences ("```json" ++ newline ++ object ++ newline ++ "```"))
       = json_loads env (strip_fences object).
Proof.
  cbv zeta.
  assert (H1 : strip_fences ("{" ++ inner ++ "}") = "{" ++ inner ++ "}").
  { unfold strip_fences. rewrite strip_object.
    change (startswith "```json" ("{" ++ inner ++ "}")) with false. cbn iota.
    change (startswith "```" ("{" ++ inner ++ "}")) with false. cbn iota.
    rewrite endswith_fence_object. apply strip_object. }
  assert (H2 : strip_fences
                 ("```json" ++ newline ++ ("{" ++ inner ++ "}") ++ newline ++ "```")
               = "{" ++ inner ++ "}").
  { unfold strip_fences.
    rewrite (strip_fenced "``json" inner "`") by reflexivity.
    change (startswith "```json"
              ("```json" ++ newline ++ ("{" ++ inner ++ "}") ++ newline ++ "```"))
      with true. cbn iota.
    change (drop 7 ("```json" ++ newline ++ ("{" ++ inner ++ "}") ++ newline ++ "```"))
      with (newline ++ ("{" ++ inner ++ "}") ++ newline ++ "```").
    change (startswith "```" (newline ++ ("{" ++ inner ++ "}") ++ newline ++ "```"))
      with false. cbn iota.
    apply strip_closing_fence. }
  split; [exact H1 |]. split; [exact H2 |]. split.
  - unfold strip_fences.
    rewrite (strip_fenced "``" inner "`") by reflexivity.
    change (startswith "```json"
              ("```" ++ newline ++ ("{" ++ inner ++ "}") ++ newline ++ "```"))
      with false. cbn iota.
    change (startswith "```"
              ("```" ++ newline ++ ("{" ++ inner ++ "}") ++ newline ++ "```"))
      with true. cbn iota.
    change (drop 3 ("```" ++ newline ++ ("{" ++ inner ++ "}") ++ newline ++ "```"))
      with (newline ++ ("{" ++ inner ++ "}") ++ newline ++ "```").
    apply strip_closing_fence.
  - intros env. now rewrite H1, H2.
Qed.

End FenceFacts.

(* ===================================================================== *)
(** * Further properties of the acquisition functions                     *)
(* ===================================================================== *)

Module OcrMoreFacts.
Import Ocr OcrSpec.

Section WithWorld.

Variables W Image : Type.
Variable world : World W Image.

Abbreviation state := (Ocr.state W).
Abbreviation prog := (Ocr.prog W).
Abbreviation perform := (Ocr.perform W).
Abbreviation never_raises := (OcrSpec.never_raises W).
Abbreviation stays_within := (OcrSpec.stays_within W).
Abbreviation extract_text_from_pdf := (Ocr.extract_text_from_pdf W Image world).
Abbreviation convert_pdf_page_to_image :=
  (Ocr.convert_pdf_page_to_image W Image world).
Abbreviation get_pdf_page_count := (Ocr.get_pdf_page_count W Image world).
Abbreviation extract_text_from_image := (Ocr.extract_text_from_image W Image world).
Abbreviation ocr_pages := (Ocr.ocr_pages W Image world).
Abbreviation ocr_fallback := (Ocr.ocr_fallback W Image world).
Abbreviation gemini_fallback := (Ocr.gemini_fallback W Image world).
Abbreviation extract_text_from_pdf_or_image :=
  (Ocr.extract_text_from_pdf_or_image W Image world).
Abbreviation extract_passport_text_with_gemini :=
  (Ocr.extract_passport_text_with_gemini W Image world).

(** ** Programs that never raise *)

Lemma never_raises_ret {A : Type} (a : A) : never_raises (io_ret a).
Proof. intros s. exists a. reflexivity. Qed.

Lemma never_raises_bind {A C : Type} (c : prog A) (k : A -> prog C) :
  never_raises c -> (forall a, never_raises (k a)) -> never_raises (io_bind c k).
Proof.
  intros Hc Hk s. unfold io_bind. destruct (Hc s) as [a Ha].
  destruct (c s) as [[a' | e] s1]; cbn in Ha; [| discriminate].
  apply Hk.
Qed.

(** A [try] whose handler returns cannot raise, whatever its body does. *)
Lemma never_raises_try {A : Type} (c : prog A) (h : string -> prog A) :
  (forall e, never_raises (h e)) -> never_raises (io_try c h).
Proof.
  intros Hh s. unfold io_try. destruct (c s) as [[a | e] s1].
  - exists a. reflexivity.
  - apply Hh.
Qed.

Lemma never_raises_if {A : Type} (b : bool) (c1 c2 : prog A) :
  never_raises c1 -> never_raises c2 -> never_raises (if b then c1 else c2).
Proof. destruct b; auto. Qed.

Lemma never_raises_pdf file_path : never_raises (extract_text_from_pdf file_path).
Proof. apply never_raises_try. intros e. apply never_raises_ret. Qed.

Lemma never_raises_convert file_path page_num :
  never_raises (convert_pdf_page_to_image file_path page_num).
Proof. apply never_raises_try. intros e. apply never_raises_ret. Qed.

Lemma never_raises_page_count file_path :
  never_raises (get_pdf_page_count file_path).
Proof. apply never_raises_try. intros e. apply never_raises_ret. Qed.

Lemma never_raises_image image : never_raises (extract_text_from_image image).
Proof. apply never_raises_try. intros e. apply never_raises_ret. Qed.

Lemma never_raises_ocr_pages file_path page_nums :
  never_raises (ocr_pages file_path page_nums).
Proof.
  induction page_nums as [| n rest IH]; cbn [Ocr.ocr_pages].
  - apply never_raises_ret.
  - apply never_raises_bind.
    + apply never_raises_try. intros e. apply never_raises_ret.
    + intros block. apply never_raises_bind; [exact IH |].
      intros blocks. apply never_raises_ret.
Qed.

Lemma never_raises_ocr_fallback file_path : never_raises (ocr_fallback file_path).
Proof.
  unfold Ocr.ocr_fallback. apply never_raises_bind.
  - apply never_raises_page_count.
  - intros n. apply never_raises_if; [apply never_raises_ret |].
    apply never_raises_bind; [apply never_raises_ocr_pages |].
    intros [| b bs]; apply never_raises_ret.
Qed.

Lemma never_raises_local file_path :
  never_raises (extract_text_from_pdf_or_image file_path).
Proof.
  unfold Ocr.extract_text_from_pdf_or_image. cbv zeta.
  apply never_raises_if.
  - apply never_raises_bind; [apply never_raises_pdf |].
    intros text. apply never_raises_if;
      [apply never_raises_ret | apply never_raises_ocr_fallback].
  - apply never_raises_if; [| apply never_raises_ret].
    apply never_raises_try. intros e. apply never_raises_ret.
Qed.

Lemma never_raises_remote file_path :
  never_raises (extract_passport_text_with_gemini file_path).
Proof. apply never_raises_try. intros e. apply never_raises_ret. Qed.

(** None of the acquisition functions raises, whatever the PDF
    library, the OCR engine, the image library and the remote model do:
    each returns a value ([None], or 0 for the page count, on failure). *)
Theorem acquisition_never_raises (file_path : Path) (page_num : nat)
  (image : Image) :
  never_raises (extract_text_from_pdf file_path)
  /\ never_raises (convert_pdf_page_to_image file_path page_num)
  /\ never_raises (get_pdf_page_count file_path)
  /\ never_raises (extract_text_from_image image)
  /\ never_raises (extract_text_from_pdf_or_image file_path)
  /\ never_raises (extract_passport_text_with_gemini file_path).
Proof.
  split; [apply never_raises_pdf |]. split; [apply never_raises_convert |].
  split; [apply never_raises_page_count |]. split; [apply never_raises_image |].
  split; [apply never_raises_local | apply never_raises_remote].
Qed.


(** ** Unsupported file types *)

Lemma perform_trace {A : Type} (c : call) (op : W -> outcome string A * W)
  (s : state) :
  trace W (snd (perform c op s)) = (trace W s ++ [c])%list
  /\ ocr_reader W (snd (perform c op s)) = ocr_reader W s.
Proof.
  unfold Ocr.perform. destruct (op (the_world W s)) as [r w']. split; reflexivity.
Qed.

Lemma unsupported_remote (file_path : Path) (s : state) :
  supported_ext (lower (path_suffix file_path)) = false ->
  fst (extract_passport_text_with_gemini file_path s) = Ok None
  /\ trace W (snd (extract_passport_text_with_gemini file_path s))
     = (trace W s ++ [GeminiConfigure])%list.
Proof.
  unfold supported_ext. intros H. apply orb_false_iff in H. destruct H as [H1 H2].
  unfold Ocr.extract_passport_text_with_gemini, io_try, io_bind. cbv zeta.
  rewrite H1, H2.
  pose proof (perform_trace GeminiConfigure (gemini_configure W Image world) s)
    as [Ht _].
  destruct (perform GeminiConfigure (gemini_configure W Image world) s)
    as [[u | e] s1]; (split; [reflexivity | exact Ht]).
Qed.

Lemma unsupported_local (file_path : Path) (s : state) :
  supported_ext (lower (path_suffix file_path)) = false ->
  extract_text_from_pdf_or_image file_path s = (Ok None, s).
Proof.
  unfold supported_ext. intros H. apply orb_false_iff in H. destruct H as [H1 H2].
  unfold Ocr.extract_text_from_pdf_or_image. cbv zeta. rewrite H1, H2. reflexivity.
Qed.

(** A file whose suffix is none of .pdf, .jpg, .jpeg, .png (in any letter
    case) gives [None] at once: the local function makes no call at all,
    the remote one has only configured its client. *)
Theorem unsupported_type_is_rejected (file_path : Path) (s : state) :
  supported_ext (lower (path_suffix file_path)) = false ->
  extract_text_from_pdf_or_image file_path s = (Ok None, s)
  /\ fst (extract_passport_text_with_gemini file_path s) = Ok None
  /\ trace W (snd (extract_passport_text_with_gemini file_path s))
     = (trace W s ++ [GeminiConfigure])%list.
Proof.
  intros H. split; [apply unsupported_local; exact H |].
  apply unsupported_remote. exact H.
Qed.

(** ** The uploaded file is deleted *)

(** After a successful upload the remote fallback generates once and then
    deletes the upload, whether generating succeeded or raised; a second
    delete follows when the first one, or reading the response text,
    raised. *)
Lemma gemini_fallback_cleanup file_path (s s1 : state) handle :
  perform (GeminiUpload file_path) (gemini_upload W Image world file_path) s
  = (Ok handle, s1) ->
  exists rest,
    trace W (snd (gemini_fallback file_path s))
    = (trace W s ++ [GeminiUpload file_path; GeminiGenerate; GeminiDelete handle]
         ++ rest)%list
    /\ (rest = [] \/ rest = [GeminiDelete handle]).
Proof.
  intros Hu.
  pose proof (perform_trace (GeminiUpload file_path)
                (gemini_upload W Image world file_path) s) as [Ht _].
  rewrite Hu in Ht. cbn [snd] in Ht.
  unfold Ocr.gemini_fallback, io_bind at 1. rewrite Hu.
  unfold io_try, io_bind, io_ret, io_raise.
  pose proof (perform_trace GeminiGenerate
                (gemini_generate_file W Image world passport_prompt handle) s1)
    as [Hg _].
  destruct (perform GeminiGenerate
              (gemini_generate_file W Image world passport_prompt handle) s1)
    as [[response | e] s2]; cbn [snd] in Hg.
  - pose proof (perform_trace (GeminiDelete handle)
                  (gemini_delete W Image world handle) s2) as [Hd _].
    destruct (perform (GeminiDelete handle) (gemini_delete W Image world handle) s2)
      as [[u | e] s3]; cbn [snd] in Hd.
    + unfold stripped_text, io_bind, io_ret, lift.
      destruct response as [[t |] | e].
      * exists []. split; [| left; reflexivity].
        destruct (String.eqb t ""); cbn [snd];
          rewrite Hd, Hg, Ht, <- !app_assoc; reflexivity.
      * exists []. split; [| left; reflexivity].
        cbn [snd]. rewrite Hd, Hg, Ht, <- !app_assoc. reflexivity.
      * pose proof (perform_trace (GeminiDelete handle)
                      (gemini_delete W Image world handle) s3) as [Hd2 _].
        exists [GeminiDelete handle]. split; [| right; reflexivity].
        destruct (perform (GeminiDelete handle)
                    (gemini_delete W Image world handle) s3) as [[u2 | e2] s4];
          cbn [snd] in *; rewrite Hd2, Hd, Hg, Ht, <- !app_assoc; reflexivity.
    + pose proof (perform_trace (GeminiDelete handle)
                    (gemini_delete W Image world handle) s3) as [Hd2 _].
      exists [GeminiDelete handle]. split; [| right; reflexivity].
      destruct (perform (GeminiDelete handle)
                  (gemini_delete W Image world handle) s3) as [[u2 | e2] s4];
        cbn [snd] in *; rewrite Hd2, Hd, Hg, Ht, <- !app_assoc; reflexivity.
  - pose proof (perform_trace (GeminiDelete handle)
                  (gemini_delete W Image world handle) s2) as [Hd _].
    exists []. split; [| left; reflexivity].
    destruct (perform (GeminiDelete handle) (gemini_delete W Image world handle) s2)
      as [[u | e2] s3]; cbn [snd] in *; rewrite Hd, Hg, Ht, <- !app_assoc;
      reflexivity.
Qed.

(** For a passport PDF whose direct text is insufficient and whose upload
    succeeded, the whole remote run is: configure, direct extraction,
    upload, generate, delete the upload (once, or twice when the first
    delete or reading the response raised).  The upload is deleted whether
    generating succeeded or failed. *)
Theorem uploaded_file_is_deleted (file_path : Path) (s s0 s1 s2 : state)
  (text : option string) (handle : string) :
  lower (path_suffix file_path) = ".pdf" ->
  perform GeminiConfigure (gemini_configure W Image world) s = (Ok tt, s0) ->
  extract_text_from_pdf file_path s0 = (Ok text, s1) ->
  ~ long_enough text ->
  perform (GeminiUpload file_path) (gemini_upload W Image world file_path) s1
  = (Ok handle, s2) ->
  exists rest,
    trace W (snd (extract_passport_text_with_gemini file_path s))
    = (trace W s
         ++ [GeminiConfigure; OpenForText file_path; GeminiUpload file_path;
             GeminiGenerate; GeminiDelete handle] ++ rest)%list
    /\ (rest = [] \/ rest = [GeminiDelete handle]).
Proof.
  intros Hext Hc He Hshort Hu.
  rewrite (OcrFacts.pdf_branch_remote W Image world file_path s s0 Hext Hc), He.
  destruct (direct_text_sufficient text) eqn:D;
    [apply OcrFacts.direct_text_sufficient_iff in D; contradiction |].
  destruct (gemini_fallback_cleanup file_path s1 s2 handle Hu) as [rest [Hr Hcase]].
  exists rest. split; [| exact Hcase].
  pose proof (perform_trace GeminiConfigure (gemini_configure W Image world) s)
    as [Ht0 _].
  rewrite Hc in Ht0. cbn [snd] in Ht0.
  destruct (OcrFacts.extract_text_from_pdf_returns W Image world file_path s0)
    as (text' & s1' & E & Ht1).
  rewrite He in E. inversion E; subst text' s1'.
  destruct (gemini_fallback file_path s1) as [[a | e] s3]; cbn [snd] in *;
    rewrite Hr, Ht1, Ht0, <- !app_assoc; reflexivity.
Qed.


(** ** The OCR engine is constructed once *)

Abbreviation engine_ready := (OcrSpec.engine_ready W).

Lemma within_ret {A : Type} I P (a : A) : stays_within I P (io_ret a).
Proof. intros s Hs. exists []. rewrite app_nil_r. auto. Qed.

Lemma within_lift {A : Type} I P (r : outcome string A) :
  stays_within I P (lift W r).
Proof. intros s Hs. exists []. rewrite app_nil_r. auto. Qed.

Lemma within_bind {A C : Type} I P (c : prog A) (k : A -> prog C) :
  stays_within I P c -> (forall a, stays_within I P (k a)) ->
  stays_within I P (io_bind c k).
Proof.
  intros Hc Hk s Hs. unfold io_bind. destruct (Hc s Hs) as (c1 & E1 & F1 & I1).
  destruct (c s) as [[a | e] s1]; cbn [snd] in *.
  - destruct (Hk a s1 I1) as (c2 & E2 & F2 & I2).
    exists (c1 ++ c2)%list. rewrite E2, E1, app_assoc.
    split; [reflexivity |]. split; [apply Forall_app; auto | exact I2].
  - exists c1. auto.
Qed.

Lemma within_try {A : Type} I P (c : prog A) (h : string -> prog A) :
  stays_within I P c -> (forall e, stays_within I P (h e)) ->
  stays_within I P (io_try c h).
Proof.
  intros Hc Hh s Hs. unfold io_try. destruct (Hc s Hs) as (c1 & E1 & F1 & I1).
  destruct (c s) as [[a | e] s1]; cbn [snd] in *.
  - exists c1. auto.
  - destruct (Hh e s1 I1) as (c2 & E2 & F2 & I2).
    exists (c1 ++ c2)%list. rewrite E2, E1, app_assoc.
    split; [reflexivity |]. split; [apply Forall_app; auto | exact I2].
Qed.

Lemma within_if {A : Type} I P (b : bool) (c1 c2 : prog A) :
  stays_within I P c1 -> stays_within I P c2 ->
  stays_within I P (if b then c1 else c2).
Proof. destruct b; auto. Qed.

(** A call to a library keeps the engine flag. *)
Lemma within_perform {A : Type} (c : call) (op : W -> outcome string A * W) :
  c <> InitOcr -> stays_within engine_ready not_InitOcr (perform c op).
Proof.
  intros Hc s Hs. destruct (perform_trace c op s) as [Ht Hr].
  exists [c]. split; [exact Ht |]. split; [repeat constructor; exact Hc |].
  unfold OcrSpec.engine_ready in *. now rewrite Hr.
Qed.

Create HintDb within.
#[local] Hint Resolve within_ret within_lift within_bind within_try within_if
  : within.
#[local] Hint Extern 1 (stays_within _ _ (perform _ _)) =>
  apply within_perform; discriminate : within.









(** ** The text assembled by the OCR fallback *)




(** ** What is sent to the remote model *)

Abbreviation any_state := (OcrSpec.any_state W).

Lemma local_perform {A : Type} (c : call) (op : W -> outcome string A * W) :
  local_call c -> stays_within any_state local_call (perform c op).
Proof.
  intros Hc s _. destruct (perform_trace c op s) as [Ht _].
  exists [c]. split; [exact Ht |]. split; [repeat constructor; exact Hc | exact I].
Qed.

Create HintDb local.
#[local] Hint Resolve within_ret within_lift within_bind within_try within_if
  : local.
#[local] Hint Extern 1 (stays_within _ _ (perform _ _)) =>
  apply local_perform; exact I : local.

Lemma local_get_ocr_reader :
  stays_within any_state local_call (_get_ocr_reader W Image world).
Proof.
  intros s _. unfold _get_ocr_reader. destruct (ocr_reader W s).
  - exists []. rewrite app_nil_r. repeat split. constructor.
  - pose proof (perform_trace InitOcr (paddle_init W Image world) s) as [Ht _].
    destruct (perform InitOcr (paddle_init W Image world) s) as [[u | e] s1];
      cbn [snd] in *; exists [InitOcr];
      (split; [exact Ht |]; split; [repeat constructor | exact I]).
Qed.

Lemma local_image image :
  stays_within any_state local_call (extract_text_from_image image).
Proof.
  unfold Ocr.extract_text_from_image.
  apply within_try; [| auto with local].
  apply within_bind; [apply local_get_ocr_reader | intros _].
  apply within_bind; [auto with local | intros results].
  destruct results as [| [[| l ls] |] rest]; auto with local.
  destruct (confident_texts (l :: ls)); auto with local.
Qed.

Lemma local_convert file_path page_num :
  stays_within any_state local_call (convert_pdf_page_to_image file_path page_num).
Proof.
  unfold Ocr.convert_pdf_page_to_image.
  apply within_try; [| auto with local].
  apply within_bind; [auto with local | intros doc].
  apply within_if; [auto with local |].
  destruct (nth_error doc page_num); auto with local.
Qed.

Lemma local_ocr_pages file_path page_nums :
  stays_within any_state local_call (ocr_pages file_path page_nums).
Proof.
  induction page_nums as [| n rest IH]; cbn [Ocr.ocr_pages]; [auto with local |].
  apply within_bind.
  - apply within_try; [| auto with local].
    apply within_bind; [apply local_convert | intros [image |]];
      [| auto with local].
    apply within_bind; [apply local_image | intros [t |]]; auto with local.
  - intros block. apply within_bind; [exact IH | auto with local].
Qed.

Lemma local_pdf file_path :
  stays_within any_state local_call (extract_text_from_pdf file_path).
Proof.
  unfold Ocr.extract_text_from_pdf.
  apply within_try; [| auto with local].
  apply within_bind; [auto with local | intros doc].
  apply within_bind; [auto with local | intros [| part parts]];
    auto with local.
Qed.

Lemma local_local file_path :
  stays_within any_state local_call (extract_text_from_pdf_or_image file_path).
Proof.
  unfold Ocr.extract_text_from_pdf_or_image. cbv zeta.
  apply within_if; [| apply within_if; [| auto with local]].
  - apply within_bind; [apply local_pdf | intros text].
    apply within_if; [auto with local |].
    unfold Ocr.ocr_fallback.
    apply within_bind.
    + unfold Ocr.get_pdf_page_count. apply within_try; [| auto with local].
      apply within_bind; auto with local.
    + intros n. apply within_if; [auto with local |].
      apply within_bind; [apply local_ocr_pages |].
      intros [| b bs]; auto with local.
  - apply within_try; [| auto with local].
    apply within_bind; [auto with local | intros image].
    apply local_image.
Qed.

Lemma extending_pdf file_path : extending W (extract_text_from_pdf file_path).
Proof.
  intros s.
  destruct (OcrFacts.extract_text_from_pdf_returns W Image world file_path s)
    as (text & s1 & E & Ht).
  rewrite E. exists [OpenForText file_path]. exact Ht.
Qed.

Lemma extending_gemini_fallback file_path :
  extending W (gemini_fallback file_path).
Proof.
  intros s.
  destruct (OcrFacts.gemini_fallback_calls W Image world file_path s) as [more E].
  exists (GeminiUpload file_path :: more). exact E.
Qed.

(** Where the documents go.  [extract_text_from_pdf_or_image] (used for the
    G-28) never calls the remote model: every call it makes is to the PDF
    library, the image library or the OCR engine.
    [extract_passport_text_with_gemini] configures the remote client before
    anything else, for every file, supported or not. *)
Theorem local_acquisition_stays_local (file_path : Path) (s : state) :
  (exists calls,
      trace W (snd (extract_text_from_pdf_or_image file_path s))
      = (trace W s ++ calls)%list
      /\ Forall local_call calls)
  /\ (exists rest,
        trace W (snd (extract_passport_text_with_gemini file_path s))
        = (trace W s ++ GeminiConfigure :: rest)%list).
Proof.
  split.
  - destruct (local_local file_path s I) as (calls & E & F & _). eauto.
  - unfold Ocr.extract_passport_text_with_gemini, io_try. unfold io_bind at 1.
    pose proof (perform_trace GeminiConfigure (gemini_configure W Image world) s)
      as [Ht _].
    destruct (perform GeminiConfigure (gemini_configure W Image world) s)
      as [[u | e] s0]; cbn [snd] in Ht; [| exists []; exact Ht].
    match goal with
    | |- context [match ?c s0 with _ => _ end] =>
        assert (X : extending W c)
    end.
    { cbv zeta.
      apply OcrFacts.extending_if.
      - apply OcrFacts.extending_bind; [apply extending_pdf | intros text].
        apply OcrFacts.extending_if;
          [apply OcrFacts.extending_ret | apply extending_gemini_fallback].
      - apply OcrFacts.extending_if; [| apply OcrFacts.extending_ret].
        apply OcrFacts.extending_bind; [apply OcrFacts.extending_perform | intros image].
        apply OcrFacts.extending_bind; [apply OcrFacts.extending_perform | intros r].
        apply OcrFacts.extending_stripped_text. }
    destruct (X s0) as [calls Ec].
    match goal with
    | |- context [match ?c s0 with _ => _ end] =>
        destruct (c s0) as [[a | e] s1]
    end; unfold io_ret; cbn [snd] in *; exists calls;
      rewrite Ec, Ht, <- app_assoc; reflexivity.
Qed.


(** ** The text of the direct extraction *)

(** One page that raises makes the whole loop raise. *)
Lemma page_text_parts_raises (pages : list (Page Image)) (k : nat) :
  (exists page e, In page pages /\ get_text Image page = Raise e) ->
  exists e, page_text_parts Image pages k = Raise e.
Proof.
  revert k. induction pages as [| p rest IH]; intros k (page & e & Hin & He).
  - contradiction.
  - cbn [page_text_parts]. destruct (get_text Image p) as [t | e0] eqn:Ep;
      cbn [bind]; [| eauto].
    destruct Hin as [-> | Hin]; [congruence |].
    destruct (IH (S k) (ex_intro _ page (ex_intro _ e (conj Hin He)))) as [e1 E1].
    rewrite E1. cbn [bind]. eauto.
Qed.

(** When every page gives its text, the loop keeps exactly the pages whose
    text is not empty, under their numbers, in order. *)
Lemma page_text_parts_keeps (pages : list (Page Image)) (k : nat) :
  (forall page, In page pages -> exists t, get_text Image page = Ok t) ->
  exists kept,
    page_text_parts Image pages k = Ok (page_blocks kept)
    /\ subsequence (map fst kept) (seq k (length pages))
    /\ (forall i t,
          In (i, t) kept
          <-> t <> ""
              /\ exists j page, i = k + j /\ nth_error pages j = Some page
                                /\ get_text Image page = Ok t).
Proof.
  revert k. induction pages as [| p rest IH]; intros k Hall.
  - exists []. split; [reflexivity |]. split; [constructor |].
    intros i t. split; [contradiction |].
    intros (_ & j & page & _ & Hn & _). destruct j; discriminate.
  - destruct (Hall p (or_introl eq_refl)) as [t0 Ep].
    destruct (IH (S k) (fun page H => Hall page (or_intror H)))
      as (kept & Ek & Hsub & Hin).
    cbn [page_text_parts length seq]. rewrite Ep, Ek. cbn [bind].
    destruct (String.eqb t0 "") eqn:E0.
    + apply String.eqb_eq in E0. subst t0.
      exists kept. split; [reflexivity |].
      split; [apply subsequence_skip; exact Hsub |].
      intros i t. rewrite Hin. split.
      * intros (Ht & j & page & -> & Hn & Hg). split; [exact Ht |].
        exists (S j), page. split; [apply Nat.add_succ_comm | auto].
      * intros (Ht & j & page & -> & Hn & Hg). split; [exact Ht |].
        destruct j as [| j]; cbn [nth_error] in Hn.
        -- inversion Hn; subst page. rewrite Ep in Hg. inversion Hg; subst t.
           contradiction.
        -- exists j, page. split; [symmetry; apply Nat.add_succ_comm | auto].
    + apply String.eqb_neq in E0.
      exists ((k, t0) :: kept). split; [reflexivity |].
      split; [cbn [map fst]; apply subsequence_keep; exact Hsub |].
      intros i t. cbn [In]. rewrite Hin. split.
      * intros [H | (Ht & j & page & -> & Hn & Hg)].
        -- inversion H; subst i t. split; [exact E0 |].
           exists 0, p. split; [symmetry; apply Nat.add_0_r | auto].
        -- split; [exact Ht |].
           exists (S j), page. split; [apply Nat.add_succ_comm | auto].
      * intros (Ht & j & page & -> & Hn & Hg).
        destruct j as [| j]; cbn [nth_error] in Hn.
        -- left. inversion Hn; subst page. rewrite Ep in Hg. inversion Hg.
           now rewrite Nat.add_0_r.
        -- right. split; [exact Ht |].
           exists j, page. split; [symmetry; apply Nat.add_succ_comm | auto].
Qed.

(** The direct extraction is all or nothing.  On a PDF that opens, when
    every page gives its text the result is put together from exactly the
    pages whose text is not empty, each under the marker of its own number,
    in page order ([None] when there is none); but when a single page
    raises, the result is [None] and the text of all other pages is lost
    (the OCR fallback, in contrast, skips a failing page). *)
Theorem direct_text_is_all_or_nothing (file_path : Path) (s : state)
  (doc : list (Page Image)) (w' : W) :
  fitz_open W Image world file_path (the_world W s) = (Ok doc, w') ->
  ((exists page e, In page doc /\ get_text Image page = Raise e) ->
   fst (extract_text_from_pdf file_path s) = Ok None)
  /\ ((forall page, In page doc -> exists t, get_text Image page = Ok t) ->
      exists kept,
        fst (extract_text_from_pdf file_path s)
        = Ok (match kept with
              | [] => None
              | _ => Some (join (newline ++ newline) (page_blocks kept))
              end)
        /\ subsequence (map fst kept) (seq 0 (length doc))
        /\ (forall i t,
              In (i, t) kept
              <-> t <> ""
                  /\ exists page, nth_error doc i = Some page
                                  /\ get_text Image page = Ok t)).
Proof.
  intros Ho. unfold Ocr.extract_text_from_pdf, io_try, io_bind, Ocr.perform.
  rewrite Ho. unfold lift. split.
  - intros Hbad. destruct (page_text_parts_raises doc 0 Hbad) as [e E].
    rewrite E. reflexivity.
  - intros Hall. destruct (page_text_parts_keeps doc 0 Hall)
      as (kept & E & Hsub & Hin).
    exists kept. rewrite E. split; [destruct kept; reflexivity |].
    split; [exact Hsub |].
    intros i t. rewrite Hin. split.
    + intros (Ht & j & page & -> & Hn & Hg). split; [exact Ht |]. eauto.
    + intros (Ht & page & Hn & Hg). split; [exact Ht |]. exists i, page. auto.
Qed.

End WithWorld.
End OcrMoreFacts.

Module OcrMoreExamples.
Import Ocr OcrSpec OcrScenario.

(** A Word document is neither a PDF nor an image: no call is made. *)
Lemma unsupported_type_is_rejected_witness :
  supported_ext (lower (path_suffix (mkPath "visa.docx" ".docx"))) = false
  /\ extract_text_from_pdf_or_image unit unit (one_page_world text_40)
       (mkPath "visa.docx" ".docx") initial
     = (Ok None, initial).
Proof.
  split; [reflexivity |].
  destruct (OcrMoreFacts.unsupported_type_is_rejected unit unit
              (one_page_world text_40) (mkPath "visa.docx" ".docx") initial eq_refl)
    as [H _].
  exact H.
Defined.

(** A one-page passport PDF with 49 characters of embedded text: the upload
    named files/passport is deleted. *)
Lemma uploaded_file_is_deleted_witness :
  lower (path_suffix passport_pdf) = ".pdf"
  /\ ~ long_enough (Some (page_marker 0 ++ text_40))
  /\ exists rest,
       trace unit (snd (extract_passport_text_with_gemini unit unit
                          (one_page_world text_40) passport_pdf initial))
       = ([] ++ [GeminiConfigure; OpenForText passport_pdf;
                 GeminiUpload passport_pdf; GeminiGenerate;
                 GeminiDelete "files/passport"] ++ rest)%list
       /\ (rest = [] \/ rest = [GeminiDelete "files/passport"]).
Proof.
  assert (Hshort : ~ long_enough (Some (page_marker 0 ++ text_40))).
  { intros (t & E & H). inversion E; subst t. vm_compute in H.
    exact (Nat.nle_succ_diag_l _ H). }
  split; [reflexivity |]. split; [exact Hshort |].
  eapply (OcrMoreFacts.uploaded_file_is_deleted unit unit (one_page_world text_40)
            passport_pdf initial);
    [reflexivity | reflexivity | reflexivity | exact Hshort | reflexivity].
Defined.

(** The one-page PDF of the examples: its page gives its text, so the
    page is kept. *)
Lemma direct_text_is_all_or_nothing_witness :
  fitz_open unit unit (one_page_world text_41) passport_pdf
    (the_world unit initial)
  = (Ok [mkPage unit (Ok text_41) (Raise "page does not render")], tt)
  /\ exists kept,
       fst (extract_text_from_pdf unit unit (one_page_world text_41) passport_pdf
              initial)
       = Ok (match kept with
             | [] => None
             | _ => Some (join (newline ++ newline) (page_blocks kept))
             end)
       /\ subsequence (map fst kept) (seq 0 1).
Proof.
  split; [reflexivity |].
  destruct (OcrMoreFacts.direct_text_is_all_or_nothing unit unit
              (one_page_world text_41) passport_pdf initial
              [mkPage unit (Ok text_41) (Raise "page does not render")] tt eq_refl)
    as [_ H].
  destruct H as (kept & E & Hsub & _).
  - intros page [<- | []]. exists text_41. reflexivity.
  - exists kept. split; [exact E | exact Hsub].
Defined.

End OcrMoreExamples.

(* ===================================================================== *)
(** * automation/form_filler.py: the tally and the browser sessions       *)
(* ===================================================================== *)

Module FormFillerMoreFacts.
Import FormFiller FormFillerSpec.

Lemma interleaving_app {A : Type} (l1 r1 m1 l2 r2 m2 : list A) :
  interleaving l1 r1 m1 -> interleaving l2 r2 m2 ->
  interleaving (l1 ++ l2) (r1 ++ r2) (m1 ++ m2).
Proof.
  intros H1 H2. induction H1; cbn [app]; [exact H2 | |].
  - apply interleaving_left. exact IHinterleaving.
  - apply interleaving_right. exact IHinterleaving.
Qed.

Lemma interleaving_length {A : Type} (l r m : list A) :
  interleaving l r m -> length l + length r = length m.
Proof.
  induction 1; cbn [length]; [reflexivity | |].
  - now rewrite <- IHinterleaving.
  - now rewrite Nat.add_succ_r, IHinterleaving.
Qed.

Section WithBrowser.

Variables W P B : Type.
Variable browser : Browser W P B.
Variable FORM_URL : string.

Abbreviation state := (FormFiller.state W P B).
Abbreviation prog := (FormFiller.prog W P B).
Abbreviation perform := (FormFiller.perform W P B).
Abbreviation fill_field := (FormFiller.fill_field W P B browser).
Abbreviation fill_fields := (FormFiller.fill_fields W P B browser).
Abbreviation set_checkbox := (FormFiller.set_checkbox W P B browser).
Abbreviation set_checkboxes := (FormFiller.set_checkboxes W P B browser).
Abbreviation _fill_page := (FormFiller._fill_page W P B browser FORM_URL).
Abbreviation drive_browser := (FormFiller.drive_browser W P B browser FORM_URL).
Abbreviation populate_form := (FormFiller.populate_form W P B browser FORM_URL).
Abbreviation keeps_sessions := (FormFillerSpec.keeps_sessions W P B).

(** ** Every attempted identifier is tallied once *)

Lemma tallied_refl t : tallied t t [].
Proof. exists [], []. rewrite !app_nil_r. repeat split. constructor. Qed.

Lemma tallied_filled id t : tallied t (add_filled id t) [id].
Proof.
  exists [id], []. cbn. rewrite app_nil_r. repeat split.
  apply interleaving_left. constructor.
Qed.

Lemma tallied_failed id t : tallied t (add_failed id t) [id].
Proof.
  exists [], [id]. cbn. rewrite app_nil_r. repeat split.
  apply interleaving_right. constructor.
Qed.

Lemma tallied_trans t1 t2 t3 ids1 ids2 :
  tallied t1 t2 ids1 -> tallied t2 t3 ids2 -> tallied t1 t3 (ids1 ++ ids2).
Proof.
  intros (f1 & g1 & Ef1 & Eg1 & I1) (f2 & g2 & Ef2 & Eg2 & I2).
  exists (f1 ++ f2)%list, (g1 ++ g2)%list.
  rewrite Ef2, Eg2, Ef1, Eg1, <- !app_assoc. repeat split.
  apply interleaving_app; assumption.
Qed.

(** One field: skipped when its value is empty, otherwise tallied on one
    side; the turn never raises. *)
Lemma fill_field_tallied field_id value t s :
  exists t' s',
    fill_field field_id value t s = (Ok t', s')
    /\ tallied t t' (if String.eqb value "" then [] else [field_id]).
Proof.
  unfold FormFiller.fill_field. destruct (String.eqb value "").
  - exists t, s. split; [reflexivity | apply tallied_refl].
  - unfold io_try, io_bind, io_ret. cbv zeta.
    destruct (perform (count W P B browser (locate field_id)) s) as [[n | e] s1];
      [| eauto using tallied_failed].
    destruct (0 <? n); [| eauto using tallied_failed].
    destruct (perform (tag_name W P B browser (locate field_id)) s1)
      as [[tag | e] s2]; [| eauto using tallied_failed].
    destruct (String.eqb tag "select").
    + destruct (perform (select_option W P B browser (locate field_id) value) s2)
        as [[u | e] s3]; eauto using tallied_failed, tallied_filled.
    + destruct (perform (fill W P B browser (locate field_id) value) s2)
        as [[u | e] s3]; eauto using tallied_failed, tallied_filled.
Qed.

Lemma fill_fields_tallied fields t s :
  exists t' s',
    fill_fields fields t s = (Ok t', s')
    /\ tallied t t' (attempted fields []).
Proof.
  unfold attempted. cbn [map]. rewrite app_nil_r.
  revert t s. induction fields as [| [field_id value] rest IH]; intros t s.
  - exists t, s. split; [reflexivity | apply tallied_refl].
  - cbn [FormFiller.fill_fields filter snd]. unfold io_bind.
    destruct (fill_field_tallied field_id value t s) as (t1 & s1 & E1 & T1).
    rewrite E1. destruct (IH t1 s1) as (t2 & s2 & E2 & T2).
    exists t2, s2. split; [exact E2 |].
    destruct (String.eqb value ""); cbn [negb map fst].
    + exact (tallied_trans _ _ _ _ _ T1 T2).
    + exact (tallied_trans _ _ _ _ _ T1 T2).
Qed.

Lemma set_checkbox_tallied field_id checked t s :
  exists t' s',
    set_checkbox field_id checked t s = (Ok t', s') /\ tallied t t' [field_id].
Proof.
  unfold FormFiller.set_checkbox, io_try, io_bind, io_ret. cbv zeta.
  destruct (perform (count W P B browser (mkLocator ("#" ++ field_id) None)) s)
    as [[n | e] s1]; [| eauto using tallied_failed].
  destruct (0 <? n); [| eauto using tallied_failed].
  destruct checked.
  - destruct (perform (check W P B browser (mkLocator ("#" ++ field_id) None)) s1)
      as [[u | e] s2]; eauto using tallied_failed, tallied_filled.
  - destruct (perform (uncheck W P B browser (mkLocator ("#" ++ field_id) None)) s1)
      as [[u | e] s2]; eauto using tallied_failed, tallied_filled.
Qed.

Lemma set_checkboxes_tallied checkboxes t s :
  exists t' s',
    set_checkboxes checkboxes t s = (Ok t', s')
    /\ tallied t t' (map fst checkboxes).
Proof.
  revert t s. induction checkboxes as [| [field_id checked] rest IH]; intros t s.
  - exists t, s. split; [reflexivity | apply tallied_refl].
  - cbn [FormFiller.set_checkboxes map fst]. unfold io_bind.
    destruct (set_checkbox_tallied field_id checked t s) as (t1 & s1 & E1 & T1).
    rewrite E1. destruct (IH t1 s1) as (t2 & s2 & E2 & T2).
    exists t2, s2. split; [exact E2 |].
    exact (tallied_trans _ _ _ _ _ T1 T2).
Qed.

(** The two loops together, from the empty lists. *)
Lemma loops_tallied fields checkboxes s :
  exists t s',
    io_bind (fill_fields fields ([], [])) (set_checkboxes checkboxes) s = (Ok t, s')
    /\ interleaving (fst t) (snd t) (attempted fields checkboxes).
Proof.
  unfold io_bind.
  destruct (fill_fields_tallied fields ([], []) s) as (t1 & s1 & E1 & T1).
  rewrite E1.
  destruct (set_checkboxes_tallied checkboxes t1 s1) as (t2 & s2 & E2 & T2).
  exists t2, s2. split; [exact E2 |].
  destruct (tallied_trans _ _ _ _ _ T1 T2) as (f & g & Ef & Eg & I).
  cbn [fst snd app] in Ef, Eg. rewrite Ef, Eg.
  unfold attempted in *. cbn [map] in I. rewrite app_nil_r in I. exact I.
Qed.


Lemma _fill_page_tally fields checkboxes generate_pdf (s s' : state) r :
  _fill_page fields checkboxes generate_pdf s = (Ok r, s') ->
  interleaving (filled_fields r) (failed_fields r) (attempted fields checkboxes)
  /\ pdf_path r = (if generate_pdf then Some "uploads/form_filled.pdf" else None).
Proof.
  unfold FormFiller._fill_page. intros H.
  apply FormFillerFacts.io_bind_Ok in H. destruct H as (u1 & s1 & _ & H).
  apply FormFillerFacts.io_bind_Ok in H. destruct H as (u2 & s2 & _ & H).
  unfold io_bind at 1 2 in H.
  destruct (fill_fields_tallied fields ([], []) s2) as (t1 & s3 & E1 & T1).
  rewrite E1 in H.
  destruct (set_checkboxes_tallied checkboxes t1 s3) as (t2 & s4 & E2 & T2).
  rewrite E2 in H.
  destruct (tallied_trans _ _ _ _ _ T1 T2) as (f & g & Ef & Eg & I).
  cbn [fst snd app] in Ef, Eg.
  unfold attempted in I. cbn [map] in I. rewrite app_nil_r in I.
  fold (attempted fields checkboxes) in I.
  apply FormFillerFacts.io_bind_Ok in H. destruct H as (u3 & s5 & _ & H).
  apply FormFillerFacts.io_bind_Ok in H. destruct H as (pp & s6 & Hp & H).
  apply FormFillerFacts.io_ret_Ok in H. destruct H as [-> _].
  cbn [filled_fields failed_fields pdf_path]. rewrite Ef, Eg. split; [exact I |].
  destruct generate_pdf.
  - apply FormFillerFacts.io_bind_Ok in Hp. destruct Hp as (u4 & s7 & _ & Hp).
    apply FormFillerFacts.io_ret_Ok in Hp. destruct Hp as [-> _]. reflexivity.
  - apply FormFillerFacts.io_ret_Ok in Hp. destruct Hp as [-> _]. reflexivity.
Qed.


(** A normal end of the browser run is a normal end of [_fill_page], asked
    for a PDF exactly in headless mode. *)
Lemma drive_browser_fill_page mode fields checkboxes (s s' : state) r :
  drive_browser mode fields checkboxes s = (Ok r, s') ->
  exists s1 s2, _fill_page fields checkboxes mode s1 = (Ok r, s2).
Proof.
  unfold FormFiller.drive_browser. destruct mode; intros H.
  - apply FormFillerFacts.with_playwright_Ok in H. destruct H as (p & s1 & s2 & H).
    apply FormFillerFacts.io_bind_Ok in H. destruct H as (b & s3 & _ & H).
    apply FormFillerFacts.io_bind_Ok in H. destruct H as (u & s4 & _ & H).
    apply FormFillerFacts.io_bind_Ok in H. destruct H as (r1 & s5 & Hf & H).
    apply FormFillerFacts.io_bind_Ok in H. destruct H as (u2 & s6 & _ & H).
    apply FormFillerFacts.io_ret_Ok in H. destruct H as [-> _]. eauto.
  - apply FormFillerFacts.io_bind_Ok in H. destruct H as (p & s1 & _ & H).
    apply FormFillerFacts.io_bind_Ok in H. destruct H as (b & s3 & _ & H).
    apply FormFillerFacts.io_bind_Ok in H. destruct H as (u & s4 & _ & H).
    apply FormFillerFacts.io_bind_Ok in H. destruct H as (r1 & s5 & Hf & H).
    apply FormFillerFacts.io_bind_Ok in H. destruct H as (u2 & s6 & _ & H).
    apply FormFillerFacts.io_ret_Ok in H. destruct H as [-> _]. eauto.
Qed.

(** A report without an error is the report of a browser run that ended
    normally. *)
Lemma populate_form_no_error mode fields checkboxes (s s' : state) r :
  populate_form mode fields checkboxes s = (Ok r, s') ->
  error r = None ->
  drive_browser mode fields checkboxes s = (Ok r, s').
Proof.
  unfold FormFiller.populate_form, io_try, io_ret.
  destruct (drive_browser mode fields checkboxes s) as [[r1 | e] s1]; intros H He.
  - exact H.
  - inversion H; subst. discriminate.
Qed.

Lemma populate_form_returns mode fields checkboxes (s : state) :
  exists r s', populate_form mode fields checkboxes s = (Ok r, s').
Proof.
  unfold FormFiller.populate_form, io_try, io_ret.
  destruct (drive_browser mode fields checkboxes s) as [[r | e] s1]; eauto.
Qed.

(** On a run that reached the end of the form, every field with a non-empty
    value and every checkbox is in exactly one of the two lists of the
    report, once, and each list keeps the order of the maps (fields first,
    checkboxes after); fields with an empty value are in neither.  So the
    two counts add up to the number of identifiers attempted. *)
Theorem every_field_is_tallied_once (mode : bool) (fields : dict string)
  (checkboxes : dict bool) (s s' : state) (r : report) :
  populate_form mode fields checkboxes s = (Ok r, s') ->
  error r = None ->
  interleaving (filled_fields r) (failed_fields r) (attempted fields checkboxes)
  /\ total_filled r + total_failed r = length (attempted fields checkboxes).
Proof.
  intros H He. pose proof (populate_form_no_error _ _ _ _ _ _ H He) as Hd.
  destruct (drive_browser_fill_page _ _ _ _ _ _ Hd) as (s1 & s2 & Hf).
  destruct (_fill_page_tally _ _ _ _ _ _ Hf) as [I _].
  destruct (FormFillerFacts._fill_page_completed _ _ _ _ _ _ _ _ _ _ _ Hf)
    as (_ & Ht & Hg & _).
  split; [exact I |]. rewrite Ht, Hg. apply interleaving_length. exact I.
Qed.

(** When every field value is empty and there is no checkbox (what the
    mapper gives for records in which nothing was found), the report
    never says success: the two lists are empty and both counts zero,
    whether the browser run failed or reached its end. *)
Theorem nothing_to_fill_is_no_success (mode : bool) (fields : dict string)
  (s s' : state) (r : report) :
  DataMapper.all_empty fields ->
  populate_form mode fields [] s = (Ok r, s') ->
  success r = false /\ filled_fields r = [] /\ failed_fields r = []
  /\ total_filled r = 0 /\ total_failed r = 0.
Proof.
  intros Hemp.
  assert (Ha : attempted fields [] = []).
  { unfold attempted. cbn [map]. rewrite app_nil_r.
    induction Hemp as [| [k v] rest Hv _ IH]; [reflexivity |].
    cbn [snd] in Hv. subst v. cbn [filter snd String.eqb negb]. exact IH. }
  intros H.
  destruct (error r) eqn:He.
  - unfold FormFiller.populate_form, io_try, io_ret in H.
    destruct (drive_browser mode fields [] s) as [[r1 | e] s1] eqn:Hd.
    + inversion H; subst.
      destruct (FormFillerFacts.drive_browser_completed _ _ _ _ _ _ _ _ _ _ _ Hd)
        as (Hn & _). congruence.
    + inversion H; subst. repeat split.
  - pose proof (populate_form_no_error _ _ _ _ _ _ H He) as Hd.
    destruct (drive_browser_fill_page _ _ _ _ _ _ Hd) as (s1 & s2 & Hf).
    destruct (_fill_page_tally _ _ _ _ _ _ Hf) as [I _]. rewrite Ha in I.
    destruct (FormFillerFacts._fill_page_completed _ _ _ _ _ _ _ _ _ _ _ Hf)
      as (_ & Ht & Hg & Hs & _).
    inversion I as [E1 E2 E3 | |]. rewrite <- E1 in *. rewrite <- E2 in *.
    repeat split; try assumption.
    destruct (success r); [| reflexivity].
    exfalso. apply (proj1 Hs); reflexivity.
Qed.

(** ** Browser sessions and the PDF *)

Lemma keeps_ret {A : Type} (a : A) : keeps_sessions (io_ret a).
Proof. intros s. reflexivity. Qed.

Lemma keeps_raise {A : Type} (e : string) : keeps_sessions (@io_raise _ _ A e).
Proof. intros s. reflexivity. Qed.

Lemma keeps_perform {A : Type} (op : W -> outcome string A * W) :
  keeps_sessions (perform op).
Proof.
  intros s. unfold FormFiller.perform.
  destruct (op (the_world W P B s)) as [r w']. reflexivity.
Qed.

Lemma keeps_bind {A C : Type} (c : prog A) (k : A -> prog C) :
  keeps_sessions c -> (forall a, keeps_sessions (k a)) ->
  keeps_sessions (io_bind c k).
Proof.
  intros Hc Hk s. unfold io_bind. specialize (Hc s).
  destruct (c s) as [[a | e] s1]; cbn [snd] in *.
  - rewrite (Hk a s1). exact Hc.
  - exact Hc.
Qed.

Lemma keeps_try {A : Type} (c : prog A) (h : string -> prog A) :
  keeps_sessions c -> (forall e, keeps_sessions (h e)) ->
  keeps_sessions (io_try c h).
Proof.
  intros Hc Hh s. unfold io_try. specialize (Hc s).
  destruct (c s) as [[a | e] s1]; cbn [snd] in *.
  - exact Hc.
  - rewrite (Hh e s1). exact Hc.
Qed.

Lemma keeps_if {A : Type} (b : bool) (c1 c2 : prog A) :
  keeps_sessions c1 -> keeps_sessions c2 ->
  keeps_sessions (if b then c1 else c2).
Proof. destruct b; auto. Qed.

Create HintDb sessions.
#[local] Hint Resolve keeps_ret keeps_raise keeps_perform keeps_bind keeps_try
  keeps_if : sessions.

Lemma keeps_fill_fields fields t : keeps_sessions (fill_fields fields t).
Proof.
  revert t. induction fields as [| [field_id value] rest IH]; intros t;
    cbn [FormFiller.fill_fields]; [auto with sessions |].
  apply keeps_bind; [| exact IH].
  unfold FormFiller.fill_field. cbv zeta. auto 10 with sessions.
Qed.

Lemma keeps_set_checkboxes checkboxes t :
  keeps_sessions (set_checkboxes checkboxes t).
Proof.
  revert t. induction checkboxes as [| [field_id checked] rest IH]; intros t;
    cbn [FormFiller.set_checkboxes]; [auto with sessions |].
  apply keeps_bind; [| exact IH].
  unfold FormFiller.set_checkbox. cbv zeta. auto 10 with sessions.
Qed.

Lemma keeps_fill_page fields checkboxes generate_pdf :
  keeps_sessions (_fill_page fields checkboxes generate_pdf).
Proof.
  unfold FormFiller._fill_page. cbv zeta.
  repeat (apply keeps_bind; [auto using keeps_fill_fields, keeps_set_checkboxes
                               with sessions | intros ?]).
  auto with sessions.
Qed.

Lemma keeps_with_playwright {A : Type} (body : P -> prog A) :
  (forall p, keeps_sessions (body p)) ->
  keeps_sessions (with_playwright W P B browser body).
Proof.
  intros Hb. unfold with_playwright. auto 10 with sessions.
Qed.

(** The visible run: a normal end appended one session, a failure none. *)
Lemma visual_run fields checkboxes (s : state) :
  (exists r s' session,
      drive_browser false fields checkboxes s = (Ok r, s')
      /\ _visual_sessions W P B s' = (_visual_sessions W P B s ++ [session])%list)
  \/ (exists e s',
        drive_browser false fields checkboxes s = (Raise e, s')
        /\ _visual_sessions W P B s' = _visual_sessions W P B s).
Proof.
  unfold FormFiller.drive_browser, io_bind.
  pose proof (keeps_perform (start W P B browser) s) as K1.
  destruct (perform (start W P B browser) s) as [[p | e] s1]; cbn [snd] in K1;
    [| right; eauto].
  pose proof (keeps_perform (launch W P B browser p false) s1) as K2.
  destruct (perform (launch W P B browser p false) s1) as [[b | e] s2];
    cbn [snd] in K2; [| right; exists e, s2; split; [reflexivity | congruence]].
  pose proof (keeps_perform (new_page W P B browser b) s2) as K3.
  destruct (perform (new_page W P B browser b) s2) as [[u | e] s3];
    cbn [snd] in K3; [| right; exists e, s3; split; [reflexivity | congruence]].
  pose proof (keeps_fill_page fields checkboxes false s3) as K4.
  destruct (_fill_page fields checkboxes false s3) as [[r | e] s4];
    cbn [snd] in K4; [| right; exists e, s4; split; [reflexivity | congruence]].
  left. exists r, (FormFiller.mkState W P B (the_world W P B s4)
                    (_visual_sessions W P B s4 ++ [(p, b)])), (p, b).
  split; [reflexivity |]. cbn. congruence.
Qed.

(** The two modes of [populate_form].  Headless: the module global
    [_visual_sessions] is never touched, and a report without an error names
    the PDF.  Visible: the report never names a PDF; a run that reached its
    end appended exactly one session to [_visual_sessions], a failed run
    none (so a browser launched before the failure is not recorded). *)
Theorem headless_and_visible_runs (fields : dict string) (checkboxes : dict bool)
  (s : state) :
  (exists r s',
      populate_form true fields checkboxes s = (Ok r, s')
      /\ _visual_sessions W P B s' = _visual_sessions W P B s
      /\ (error r = None -> pdf_path r = Some "uploads/form_filled.pdf"))
  /\ (exists r s',
        populate_form false fields checkboxes s = (Ok r, s')
        /\ pdf_path r = None
        /\ (error r = None ->
            exists session,
              _visual_sessions W P B s'
              = (_visual_sessions W P B s ++ [session])%list)
        /\ (error r <> None ->
            _visual_sessions W P B s' = _visual_sessions W P B s)).
Proof.
  split.
  - assert (K : keeps_sessions (populate_form true fields checkboxes)).
    { unfold FormFiller.populate_form. apply keeps_try; [| auto with sessions].
      unfold FormFiller.drive_browser. apply keeps_with_playwright. intros p.
      repeat (apply keeps_bind; [auto using keeps_fill_page with sessions
                                | intros ?]).
      auto with sessions. }
    specialize (K s).
    destruct (populate_form_returns true fields checkboxes s) as (r & s' & E).
    rewrite E in K. cbn [snd] in K. exists r, s'.
    split; [exact E |]. split; [exact K |]. intros He.
    pose proof (populate_form_no_error _ _ _ _ _ _ E He) as Hd.
    destruct (drive_browser_fill_page _ _ _ _ _ _ Hd) as (s1 & s2 & Hf).
    destruct (_fill_page_tally _ _ _ _ _ _ Hf) as [_ Hp]. exact Hp.
  - unfold FormFiller.populate_form, io_try, io_ret.
    destruct (visual_run fields checkboxes s)
      as [(r & s' & session & E & K) | (e & s' & E & K)]; rewrite E.
    + exists r, s'. split; [reflexivity |].
      destruct (drive_browser_fill_page _ _ _ _ _ _ E) as (s1 & s2 & Hf).
      destruct (_fill_page_tally _ _ _ _ _ _ Hf) as [_ Hp].
      destruct (FormFillerFacts._fill_page_completed _ _ _ _ _ _ _ _ _ _ _ Hf)
        as (Hn & _).
      split; [exact Hp |]. split; [eauto | intros Hc; contradiction].
    + exists (failure_report e), s'. split; [reflexivity |].
      split; [reflexivity |]. split; [intros Hc; discriminate | intros _; exact K].
Qed.

End WithBrowser.
End FormFillerMoreFacts.

Module FormFillerExamples.
Import FormFiller FormFillerSpec FormScenario.

(** A headless run on the sample form: the surname, the state and the
    checkbox are filled, the sex is not found, the empty passport number is
    in neither list. *)
Lemma every_field_is_tallied_once_witness :
  interleaving ["passport-surname"; "state"; "not-subject"] ["passport-sex"]
    (attempted some_fields some_checkboxes)
  /\ 3 + 1 = length (attempted some_fields some_checkboxes).
Proof.
  assert (E : populate_form unit unit unit form_browser form_url true
                some_fields some_checkboxes initial
              = (Ok (mkReport true 3 1
                       ["passport-surname"; "state"; "not-subject"]
                       ["passport-sex"]
                       (Some "uploads/form_populated.png")
                       (Some "uploads/form_filled.pdf") None),
                 initial)) by (vm_compute; reflexivity).
  exact (FormFillerMoreFacts.every_field_is_tallied_once unit unit unit
           form_browser form_url true some_fields some_checkboxes
           initial initial _ E eq_refl).
Defined.

(** The field map of two empty records, on the sample form in visible
    mode: the run reaches its end and reports no success. *)
Lemma nothing_to_fill_is_no_success_witness :
  DataMapper.all_empty empty_fields
  /\ populate_form unit unit unit form_browser form_url false empty_fields []
       initial
     = (Ok (mkReport false 0 0 [] [] (Some "uploads/form_populated.png")
              None None),
        mkState unit unit unit tt [(tt, tt)])
  /\ success (mkReport false 0 0 [] [] (Some "uploads/form_populated.png")
                None None) = false.
Proof.
  assert (Hemp : DataMapper.all_empty empty_fields).
  { unfold DataMapper.all_empty. vm_compute. repeat constructor. }
  assert (E : populate_form unit unit unit form_browser form_url false
                empty_fields [] initial
              = (Ok (mkReport false 0 0 [] [] (Some "uploads/form_populated.png")
                       None None),
                 mkState unit unit unit tt [(tt, tt)]))
    by (vm_compute; reflexivity).
  split; [exact Hemp |]. split; [exact E |].
  exact (proj1 (FormFillerMoreFacts.nothing_to_fill_is_no_success unit unit unit
                  form_browser form_url false empty_fields initial _ _ Hemp E)).
Defined.

End FormFillerExamples.

(* ===================================================================== *)
(** * extractors/combined_extraction.py: dates and groups                 *)
(* ===================================================================== *)

Module PipelineFacts.
Import Extraction DataMapper PipelineSpec DictFacts ExtractionFacts DateFieldFacts.

(** ** A date the decoder read as a string *)

Lemma strptime_nonempty s d : strptime_ymd s = Some d -> s <> "".
Proof. intros H ->. discriminate. Qed.

(** The loop round of the field itself writes the parsed date. *)
Lemma convert_parseable d f s dt :
  dict_get f d = Some (PStr s) -> strptime_ymd s = Some dt ->
  convert_date_field d f = dict_set f (PDate dt) d.
Proof.
  intros Hg Hp. unfold convert_date_field, py_get. rewrite Hg.
  rewrite truthy_str by (eapply strptime_nonempty; eassumption).
  cbn. now rewrite Hp.
Qed.

(** A date object is left alone by every round. *)
Lemma convert_all_date fs d f dt :
  dict_get f d = Some (PDate dt) ->
  dict_get f (fold_left convert_date_field fs d) = Some (PDate dt).
Proof.
  revert d. induction fs as [| g fs IH]; intros d Hg; [exact Hg |].
  cbn [fold_left]. apply IH. destruct (string_dec g f) as [-> | Hne].
  - unfold convert_date_field, py_get. rewrite Hg. cbn. exact Hg.
  - unfold convert_date_field.
    destruct (truthy (py_get g d) && isinstance_str (py_get g d)); [| assumption].
    destruct (py_get g d); try assumption.
    destruct (strptime_ymd s); rewrite dict_get_set_ne by assumption; assumption.
Qed.

Lemma convert_all_parseable fs d f s dt :
  In f fs -> dict_get f d = Some (PStr s) -> strptime_ymd s = Some dt ->
  dict_get f (fold_left convert_date_field fs d) = Some (PDate dt).
Proof.
  revert d. induction fs as [| g fs IH]; intros d Hin Hg Hs; [contradiction |].
  cbn [fold_left]. destruct (string_dec g f) as [-> | Hne].
  - rewrite (convert_parseable d f s dt Hg Hs).
    apply convert_all_date. apply dict_get_set_eq.
  - destruct Hin as [-> | Hin]; [contradiction |].
    apply IH; [exact Hin | | exact Hs].
    unfold convert_date_field.
    destruct (truthy (py_get g d) && isinstance_str (py_get g d)); [| assumption].
    destruct (py_get g d); try assumption.
    destruct (strptime_ymd s0); rewrite dict_get_set_ne by assumption; assumption.
Qed.

(** A date field that is a date in the keyword arguments is that date in
    the record. *)
Lemma PassportData_init_date env kw f dt p :
  In f date_fields -> dict_get f kw = Some (PDate dt) ->
  PassportData_init env kw = Ok p -> passport_date f p = Some dt.
Proof.
  intros Hin Hg. unfold PassportData_init. cbv zeta.
  repeat (destruct Hin as [<- | Hin]; [
    unfold field_date at 1 2 3; rewrite Hg;
    repeat match goal with
         | |- context [bind ?c _] => destruct c; cbn [bind]; try discriminate
         end;
    intros H; inversion H; reflexivity |]).
  contradiction.
Qed.

Lemma build_records_parsed_date env pairs pd f s dt p g :
  dict_get "passport" pairs = Some (PDict pd) ->
  In f date_fields -> dict_get f pd = Some (PStr s) -> strptime_ymd s = Some dt ->
  build_records env (PDict pairs) = Ok (p, g) -> passport_date f p = Some dt.
Proof.
  intros Hp Hin Hg Hs. unfold build_records. cbn [get_method bind].
  unfold py_get_default at 1. rewrite Hp. cbn [get_method bind].
  destruct (PassportData_init env _) as [p0 | e] eqn:E; cbn [bind]; [| discriminate].
  apply PassportData_init_date with (f := f) (dt := dt) in E;
    [| assumption | eapply convert_all_parseable; eassumption].
  repeat match goal with
         | |- context [bind ?c _] => destruct c; cbn [bind]; try discriminate
         end.
  intros H; inversion H; subst. exact E.
Qed.

(** From the reply to the form.  A date field of the passport that the
    reply gives as a string [strptime] accepts is, in the record, the date
    it denotes, and [map_to_form_fields] writes it under the field's
    identifier in ISO form with leading zeros, however the reply padded
    it. *)
Theorem parsed_date_reaches_the_form (env : Services) (pt gt resp : string)
  (pairs pd : dict pyvalue) (f s : string) (dt : date)
  (p : PassportData) (g : G28Data) :
  generate_content env (build_prompt pt gt) = Ok resp ->
  json_loads env (strip_fences resp) = inr (PDict pairs) ->
  dict_get "passport" pairs = Some (PDict pd) ->
  In f date_fields ->
  dict_get f pd = Some (PStr s) ->
  strptime_ymd s = Some dt ->
  extract_data env pt gt = Ok (p, g) ->
  passport_date f p = Some dt
  /\ exists fields,
       map_to_form_fields p g = Ok fields
       /\ dict_get (date_form_id f) fields = Some (date_str dt).
Proof.
  intros Hg Hj Hp Hin Hf Hs H.
  rewrite (extract_data_decoded env pt gt resp _ Hg Hj) in H.
  assert (Hd : passport_date f p = Some dt).
  { destruct (build_records env (PDict pairs)) as [[p0 g0] | e] eqn:E.
    - cbn in H. inversion H; subst.
      eapply build_records_parsed_date; eassumption.
    - cbn in H.
      destruct (outer_handler_ValueError (A := PassportData * G28Data) env e)
        as [e' [H1 _]].
      rewrite H1 in H. discriminate. }
  split; [exact Hd |].
  destruct (MapperFacts.map_to_form_fields_total p g) as [fields Hm].
  exists fields. split; [exact Hm |].
  unfold passport_date in Hd. unfold date_form_id.
  destruct Hin as [<- | [<- | [<- | []]]]; cbn [String.eqb Ascii.eqb Bool.eqb] in *.
  - rewrite (MapperFacts.passport_date_slot_value p g fields "passport-dob"
               date_of_birth Hm) by (cbn; auto).
    now rewrite Hd.
  - rewrite (MapperFacts.passport_date_slot_value p g fields "passport-issue-date"
               issue_date Hm) by (cbn; auto).
    now rewrite Hd.
  - rewrite (MapperFacts.passport_date_slot_value p g fields "passport-expiry-date"
               expiry_date Hm) by (cbn; auto).
    now rewrite Hd.
Qed.


(** ** A G-28 group that is not an object *)

Ltac decide_contains :=
  repeat match goal with
         | |- context [contains ?a ?b] =>
             let r := eval vm_compute in (contains a b) in
             change (contains a b) with r
         end.

(** Unpacking a value that is no mapping raises a [TypeError] whose text
    begins with the dotted name of the model class, and so holds the word
    the last handler takes for a wrong model name. *)
Lemma unpack_message_is_model env callee v :
  In callee group_models -> is_object v = false ->
  exists m, unpack_mapping callee v = Raise (TypeError m)
            /\ classify_error env m = model_message env.
Proof.
  intros Hin Hv.
  destruct Hin as [<- | [<- | [<- | []]]];
    destruct v; try discriminate Hv; cbn [unpack_mapping type_name];
    eexists; (split; [reflexivity |]);
    unfold classify_error; decide_contains; reflexivity.
Qed.

(** When the reply gives the attorney group as a value that is true but no
    object (a non-empty string, a number, a non-empty list), building the
    model raises a [TypeError] naming the class [models.g28_data.AttorneyInfo];
    the outer handler finds the word model in that text, so the call fails
    with the message about an invalid Gemini model name, whatever the model
    name is; the same classification holds for the other two groups. *)
Theorem non_object_group_is_reported_as_model_name (env : Services)
  (pt gt resp : string) (pairs gd : dict pyvalue) (p0 : PassportData)
  (v : pyvalue) :
  generate_content env (build_prompt pt gt) = Ok resp ->
  json_loads env (strip_fences resp) = inr (PDict pairs) ->
  passport_record env pairs = Ok p0 ->
  dict_get "g28" pairs = Some (PDict gd) ->
  dict_get "attorney" gd = Some v ->
  truthy v = true ->
  is_object v = false ->
  extract_data env pt gt = Raise (ValueError (model_message env))
  /\ forall callee w, In callee group_models -> is_object w = false ->
       exists m, unpack_mapping callee w = Raise (TypeError m)
                 /\ classify_error env m = model_message env.
Proof.
  intros Hg Hj Hp Hg28 Ha Ht Hv.
  split; [| intros callee w; apply unpack_message_is_model].
  rewrite (extract_data_decoded env pt gt resp _ Hg Hj).
  unfold passport_record in Hp. unfold build_records. cbn [get_method bind].
  destruct (get_method (py_get_default "passport" (PDict []) pairs)) as [pd | e];
    cbn [bind] in *; [| discriminate].
  rewrite Hp. cbn [bind].
  unfold py_get_default at 1. rewrite Hg28. cbn [get_method bind].
  unfold build_group at 1. unfold py_get, py_get_default. rewrite Ha, Ht.
  destruct (unpack_message_is_model env "models.g28_data.AttorneyInfo" v
              (or_introl eq_refl) Hv) as (m & Hm & Hc).
  rewrite Hm. cbn [bind try_except]. unfold outer_handler.
  cbn [is_ValueError str_exception]. rewrite Hc. reflexivity.
Qed.

End PipelineFacts.

Module PipelineExamples.
Import Extraction DataMapper PipelineSpec PipelineScenario.

(** A date of birth written 2030-1-5 reaches the form as 2030-01-05. *)
Lemma parsed_date_reaches_the_form_witness :
  strptime_ymd "2030-1-5" = Some (mkdate 2030 1 5)
  /\ passport_date "date_of_birth"
       (mkPassportData (Some "DOE") None None None None None
          (Some (mkdate 2030 1 5)) None None None None)
     = Some (mkdate 2030 1 5)
  /\ exists fields,
       map_to_form_fields
         (mkPassportData (Some "DOE") None None None None None
            (Some (mkdate 2030 1 5)) None None None None) empty_g28
       = Ok fields
       /\ dict_get (date_form_id "date_of_birth") fields
          = Some (date_str (mkdate 2030 1 5)).
Proof.
  split; [vm_compute; reflexivity |].
  refine (PipelineFacts.parsed_date_reaches_the_form
            (Scenario.services (Ok reply_short_date)) "P" "G" reply_short_date
            [("passport",
              PDict [("surname", PStr "DOE"); ("date_of_birth", PStr "2030-1-5")])]
            [("surname", PStr "DOE"); ("date_of_birth", PStr "2030-1-5")]
            "date_of_birth" "2030-1-5" (mkdate 2030 1 5) _ _
            eq_refl _ eq_refl _ eq_refl _ _).
  - vm_compute; reflexivity.
  - left; reflexivity.
  - vm_compute; reflexivity.
  - vm_compute; reflexivity.
Defined.

(** An attorney group given as the text Jane Roe. *)
Lemma non_object_group_is_reported_as_model_name_witness :
  truthy (PStr "Jane Roe") = true
  /\ is_object (PStr "Jane Roe") = false
  /\ extract_data (Scenario.services (Ok reply_attorney_as_text)) "P" "G"
     = Raise (ValueError (model_message
                            (Scenario.services (Ok reply_attorney_as_text)))).
Proof.
  split; [reflexivity |]. split; [reflexivity |].
  refine (proj1 (PipelineFacts.non_object_group_is_reported_as_model_name
                   (Scenario.services (Ok reply_attorney_as_text)) "P" "G"
                   reply_attorney_as_text
                   [("g28", PDict [("attorney", PStr "Jane Roe")])]
                   [("attorney", PStr "Jane Roe")] empty_passport
                   (PStr "Jane Roe") eq_refl _ _ eq_refl eq_refl eq_refl eq_refl)).
  - vm_compute; reflexivity.
  - vm_compute; reflexivity.
Defined.

End PipelineExamples.

(* ===================================================================== *)
(** * utils/data_mapper.py with automation/form_filler.py                 *)
(* ===================================================================== *)

Module MapperMoreFacts.
Import DataMapper FormFiller FormFillerSpec PipelineSpec MapperFacts.

(** What the mapper leaves out.  The field map does not depend on the
    client group of the G-28 record, on the attorney's fax number or on
    the eligibility checkbox value, and the checkbox map depends on the
    eligibility group only: data the extraction returns for them never
    reaches the form. *)
Theorem client_and_fax_are_not_mapped (p : PassportData)
  (att : option AttorneyInfo) (eli : option EligibilityInfo)
  (cli cli' : option ClientInfo) :
  map_to_form_fields p (mkG28Data att eli cli)
  = map_to_form_fields p (mkG28Data att eli cli')
  /\ (forall a fax,
        map_to_form_fields p (mkG28Data (Some (with_fax fax a)) eli cli)
        = map_to_form_fields p (mkG28Data (Some a) eli cli))
  /\ (forall la bn lf b b',
        map_to_form_fields p
          (mkG28Data att (Some (mkEligibilityInfo la bn lf b)) cli)
        = map_to_form_fields p
            (mkG28Data att (Some (mkEligibilityInfo la bn lf b')) cli))
  /\ (forall att',
        get_checkbox_fields (mkG28Data att eli cli)
        = get_checkbox_fields (mkG28Data att' eli cli')).
Proof.
  split; [| split; [| split]].
  - rewrite !map_to_form_fields_value. reflexivity.
  - intros a fax. rewrite !map_to_form_fields_value. reflexivity.
  - intros la bn lf b b'. rewrite !map_to_form_fields_value. reflexivity.
  - intros att'. rewrite !get_checkbox_fields_value. reflexivity.
Qed.

Lemma distinct_NoDup ids : distinct ids = true -> NoDup ids.
Proof.
  induction ids as [| id rest IH]; cbn [distinct]; intros H; [constructor |].
  apply andb_prop in H. destruct H as [H1 H2]. constructor; [| auto].
  intros Hin. apply negb_true_iff in H1.
  assert (existsb (String.eqb id) rest = true); [| congruence].
  apply existsb_exists. exists id. split; [exact Hin | apply String.eqb_refl].
Qed.

Lemma interleaving_In {A : Type} (l r m : list A) x :
  interleaving l r m -> In x (l ++ r) -> In x m.
Proof.
  induction 1 as [| y l r m _ IH | y l r m _ IH]; intros Hin.
  - exact Hin.
  - destruct Hin as [-> | Hin]; [left; reflexivity | right; auto].
  - apply in_app_or in Hin. destruct Hin as [Hin | [-> | Hin]].
    + right. apply IH. apply in_or_app. auto.
    + left; reflexivity.
    + right. apply IH. apply in_or_app. auto.
Qed.

Lemma interleaving_NoDup {A : Type} (l r m : list A) :
  interleaving l r m -> NoDup m -> NoDup (l ++ r).
Proof.
  induction 1 as [| y l r m I IH | y l r m I IH]; intros Hm.
  - constructor.
  - inversion Hm as [| ? ? Hy Hm']; subst. cbn [app]. constructor; [| auto].
    intros Hin. apply Hy. eapply interleaving_In; eassumption.
  - inversion Hm as [| ? ? Hy Hm']; subst.
    apply (NoDup_Add (Add_app y l r)). split; [auto |].
    intros Hin. apply Hy. eapply interleaving_In; eassumption.
Qed.

Lemma NoDup_filter_keys {V : Type} (f : string * V -> bool) (l : list (string * V))
  (rest : list string) :
  NoDup (map fst l ++ rest) -> NoDup (map fst (filter f l) ++ rest).
Proof.
  induction l as [| kv l IH]; cbn [map filter app]; intros H; [exact H |].
  inversion H as [| ? ? Hk Hl]; subst.
  destruct (f kv); [| auto]. cbn [map app]. constructor; [| auto].
  intros Hin. apply Hk. apply in_app_or in Hin. apply in_or_app.
  destruct Hin as [Hin | Hin]; [left | right; exact Hin].
  apply in_map_iff in Hin. destruct Hin as (kv' & E & Hin).
  apply filter_In in Hin. apply in_map_iff. exists kv'. tauto.
Qed.

(** The identifiers the two mappers produce are pairwise distinct. *)
Lemma mapped_identifiers_distinct p g fields checkboxes :
  map_to_form_fields p g = Ok fields ->
  get_checkbox_fields g = Ok checkboxes ->
  NoDup (map fst fields ++ map fst checkboxes)
  /\ length fields + length checkboxes <= 26.
Proof.
  rewrite map_to_form_fields_value, get_checkbox_fields_value.
  intros Hf Hc. inversion Hf; subst; clear Hf. inversion Hc; subst; clear Hc.
  destruct (attorney g) as [a |], (eligibility g) as [[la bn lf [b |]] |];
    cbn [app map fst length is_not_subject_to_orders];
    (split; [apply distinct_NoDup; vm_compute; reflexivity
            | repeat apply le_n_S; apply Nat.le_0_l]).
Qed.

Section WithBrowser.

Variables W P B : Type.
Variable browser : Browser W P B.
Variable FORM_URL : string.

(** The mappers followed by the form filler: whatever the records and the
    browser, no identifier is reported twice in the two lists of the report,
    and the two counts add up to at most 26 (25 fields and one checkbox). *)
Theorem mapped_identifiers_are_reported_once (mode : bool) (p : PassportData)
  (g : G28Data) (s : FormFiller.state W P B) :
  exists fields checkboxes r s',
    map_to_form_fields p g = Ok fields
    /\ get_checkbox_fields g = Ok checkboxes
    /\ populate_form W P B browser FORM_URL mode fields checkboxes s = (Ok r, s')
    /\ NoDup (filled_fields r ++ failed_fields r)
    /\ total_filled r + total_failed r <= 26.
Proof.
  destruct (map_to_form_fields_total p g) as [fields Hf].
  pose proof (get_checkbox_fields_value g) as Hc.
  match type of Hc with _ = Ok ?c => set (checkboxes := c) in * end.
  destruct (FormFillerMoreFacts.populate_form_returns W P B browser FORM_URL mode
              fields checkboxes s) as (r & s' & E).
  exists fields, checkboxes, r, s'.
  split; [exact Hf |]. split; [exact Hc |]. split; [exact E |].
  destruct (mapped_identifiers_distinct p g fields checkboxes Hf Hc) as [Hn Hl].
  destruct (error r) eqn:He.
  - unfold FormFiller.populate_form, io_try, io_ret in E.
    destruct (drive_browser W P B browser FORM_URL mode fields checkboxes s)
      as [[r1 | e] s1] eqn:Hd.
    + inversion E; subst.
      destruct (FormFillerFacts.drive_browser_completed _ _ _ _ _ _ _ _ _ _ _ Hd)
        as (Hnone & _). congruence.
    + inversion E; subst. cbn. split; [constructor | apply Nat.le_0_l].
  - pose proof (FormFillerMoreFacts.populate_form_no_error _ _ _ _ _ _ _ _ _ _ _
                  E He) as Hd.
    destruct (FormFillerMoreFacts.drive_browser_fill_page _ _ _ _ _ _ _ _ _ _ _ Hd)
      as (s1 & s2 & Hp).
    destruct (FormFillerMoreFacts._fill_page_tally _ _ _ _ _ _ _ _ _ _ _ Hp)
      as [I _].
    destruct (FormFillerFacts._fill_page_completed _ _ _ _ _ _ _ _ _ _ _ Hp)
      as (_ & Ht & Hg & _).
    split.
    + eapply interleaving_NoDup; [exact I |].
      unfold attempted. apply NoDup_filter_keys. exact Hn.
    + rewrite Ht, Hg, (FormFillerMoreFacts.interleaving_length _ _ _ I).
      unfold attempted. rewrite length_app, !length_map.
      eapply Nat.le_trans; [| exact Hl].
      apply Nat.add_le_mono_r. apply filter_length_le.
Qed.

End WithBrowser.

End MapperMoreFacts.

(* ===================================================================== *)
(** * utils/validators.py and the path of a saved upload                  *)
(* ===================================================================== *)

Module UploadFacts.
Import Validators Pathlib App AppSpec OcrSpec.

(** A split ends in the text after the last separator, and is the text
    itself when there is none. *)
Lemma split_char_rsplit1 sep s :
  match rsplit1 sep s with
  | None => split_char sep s = [s]
  | Some (_, after) => exists p ps, split_char sep s = ((p :: ps) ++ [after])%list
  end.
Proof.
  induction s as [| c rest IH]; [reflexivity |].
  cbn [split_char rsplit1].
  destruct (rsplit1 sep rest) as [[before after] |].
  - destruct IH as (p & ps & E). rewrite E.
    destruct (Ascii.eqb c sep).
    + exists "", (p :: ps). reflexivity.
    + exists (String c p), ps. reflexivity.
  - rewrite IH. destruct (Ascii.eqb c sep).
    + exists "", []. reflexivity.
    + reflexivity.
Qed.

Lemma last_split_char sep s :
  last (split_char sep s) ""
  = match rsplit1 sep s with Some (_, after) => after | None => s end.
Proof.
  pose proof (split_char_rsplit1 sep s) as H.
  destruct (rsplit1 sep s) as [[before after] |].
  - destruct H as (p & ps & E). rewrite E. apply last_last.
  - rewrite H. reflexivity.
Qed.

Lemma rsplit1_none sep s : has_char sep s = false -> rsplit1 sep s = None.
Proof.
  induction s as [| c rest IH]; [reflexivity |].
  cbn [has_char rsplit1]. intros H. apply orb_false_iff in H.
  destruct H as [Hc Hr]. rewrite (IH Hr), Hc. reflexivity.
Qed.

Lemma rsplit1_some sep s :
  has_char sep s = true -> exists before after, rsplit1 sep s = Some (before, after).
Proof.
  induction s as [| c rest IH]; [discriminate |].
  cbn [has_char rsplit1]. intros H.
  destruct (rsplit1 sep rest) as [[b a] |] eqn:E; [eauto |].
  destruct (Ascii.eqb c sep); [eauto |].
  cbn [orb] in H. destruct (IH H) as (b & a & E'). discriminate.
Qed.

Lemma rsplit1_prefix sep pre s :
  has_char sep pre = false ->
  rsplit1 sep (pre ++ s)
  = match rsplit1 sep s with
    | Some (before, after) => Some (pre ++ before, after)
    | None => None
    end.
Proof.
  induction pre as [| c pre IH]; cbn [has_char append rsplit1]; intros H.
  - destruct (rsplit1 sep s) as [[b a] |]; reflexivity.
  - apply orb_false_iff in H. destruct H as [Hc Hp]. rewrite (IH Hp).
    destruct (rsplit1 sep s) as [[b a] |]; [reflexivity |].
    rewrite Hc. reflexivity.
Qed.

(** Lower-casing maps no character to a dot and leaves the dot alone. *)
Lemma lower_char_dot c : Ascii.eqb (lower_char c) "." = Ascii.eqb c ".".
Proof. destruct c as [[] [] [] [] [] [] [] []]; vm_compute; reflexivity. Qed.

Lemma rsplit1_lower s :
  rsplit1 "." (lower s)
  = match rsplit1 "." s with
    | Some (before, after) => Some (lower before, lower after)
    | None => None
    end.
Proof.
  induction s as [| c rest IH]; [reflexivity |].
  cbn [lower rsplit1]. rewrite IH.
  destruct (rsplit1 "." rest) as [[b a] |]; [reflexivity |].
  rewrite lower_char_dot. destruct (Ascii.eqb c "."); reflexivity.
Qed.

Lemma has_char_app c a b : has_char c (a ++ b) = has_char c a || has_char c b.
Proof.
  induction a as [| x a IH]; cbn [has_char append]; [reflexivity |].
  rewrite IH. apply orb_assoc.
Qed.

(** The name of the path [UPLOADS_DIR / rel] is [rel] itself when [rel]
    has no slash and does not begin with a dot. *)
Lemma join_path_name pre fn :
  plain pre = true -> pre <> "" -> has_char "/" fn = false ->
  Ocr.path_name (join_path "uploads" (pre ++ fn)) = pre ++ fn.
Proof.
  intros Hp Hne Hs. unfold plain in Hp. apply andb_prop in Hp.
  destruct Hp as [Hd Hsl]. apply negb_true_iff in Hd, Hsl.
  unfold join_path. cbv zeta. cbn [Ocr.path_name].
  assert (E : parts (pre ++ fn) = [pre ++ fn]).
  { unfold parts.
    pose proof (split_char_rsplit1 "/" (pre ++ fn)) as H.
    rewrite (rsplit1_none "/" (pre ++ fn)) in H
      by (rewrite has_char_app, Hsl, Hs; reflexivity).
    rewrite H. cbn [filter].
    destruct pre as [| c pre']; [contradiction |].
    cbn [append String.eqb]. cbn [has_char] in Hd.
    apply orb_false_iff in Hd. destruct Hd as [Hc _].
    destruct (Ascii.eqb c ".") eqn:Ec; [discriminate |]. reflexivity. }
  rewrite E. apply last_last.
Qed.

(** What [validate_upload] accepted. *)
Lemma validate_upload_accepted file max fn :
  validate_upload (Some file) max = Ok tt -> filename file = Some fn ->
  fn <> ""
  /\ In ("." ++ last (split_char "." (lower fn)) "") valid_extensions.
Proof.
  unfold validate_upload. intros H Hf. rewrite Hf in H.
  destruct (String.eqb fn "") eqn:E; [discriminate |].
  apply String.eqb_neq in E. split; [exact E |].
  cbv zeta in H.
  destruct (existsb (String.eqb ("." ++ last (split_char "." (lower fn)) ""))
              valid_extensions) eqn:Ex; [| discriminate].
  apply existsb_exists in Ex. destruct Ex as (x & Hin & Hx).
  apply String.eqb_eq in Hx. rewrite Hx. exact Hin.
Qed.

Lemma valid_extension_supported ext :
  In ext valid_extensions -> supported_ext ext = true.
Proof.
  intros [<- | [<- | [<- | [<- | []]]]]; reflexivity.
Qed.

Lemma valid_extension_nonempty ext : In ("." ++ ext) valid_extensions -> ext <> "".
Proof.
  intros H ->. cbn in H.
  destruct H as [H | [H | [H | [H | []]]]]; discriminate.
Qed.

(** A file name without a dot gives a path without a suffix. *)
Lemma dotless_suffix (fn pre : string) :
  has_char "/" fn = false -> has_char "." fn = false ->
  plain pre = true -> pre <> "" ->
  Ocr.path_suffix (as_path (uploads_path (pre ++ fn))) = "".
Proof.
  intros Hs Hdot Hp Hne.
  pose proof (join_path_name pre fn Hp Hne Hs) as Hname.
  unfold uploads_path. cbn [as_path].
  unfold join_path in *. cbv zeta in *. cbn [Ocr.path_name Ocr.path_suffix] in *.
  rewrite Hname. unfold suffix_of.
  unfold plain in Hp. apply andb_prop in Hp. destruct Hp as [Hd _].
  apply negb_true_iff in Hd.
  rewrite (rsplit1_prefix "." pre fn Hd), (rsplit1_none "." fn Hdot). reflexivity.
Qed.

(** The suffix of a saved upload.  An upload that [validate_upload] accepted
    is saved as [UPLOADS_DIR / (prefix + filename)]; when the file name has
    no slash, the path's name is the prefix followed by the file name, and
    - if the file name holds a dot, the lower-cased suffix of the path is
      one of the four valid extensions, which the acquisition functions
      support;
    - if it holds none (a file called just pdf, say, which is accepted
      because the text after the last dot is then the whole name), the path
      has no suffix, and the acquisition functions reject it as
      unsupported. *)
Theorem accepted_upload_suffix (file : UploadFile) (max : Z) (fn pre : string) :
  validate_upload (Some file) max = Ok tt ->
  filename file = Some fn ->
  has_char "/" fn = false ->
  plain pre = true ->
  pre <> "" ->
  let path := as_path (uploads_path (pre ++ fn)) in
  Ocr.path_name path = pre ++ fn
  /\ (has_char "." fn = true ->
      In (lower (Ocr.path_suffix path)) valid_extensions
      /\ supported_ext (lower (Ocr.path_suffix path)) = true)
  /\ (has_char "." fn = false ->
      In ("." ++ lower fn) valid_extensions
      /\ Ocr.path_suffix path = ""
      /\ supported_ext (lower (Ocr.path_suffix path)) = false).
Proof.
  intros Hv Hf Hs Hp Hne. cbv zeta.
  destruct (validate_upload_accepted file max fn Hv Hf) as [Hfn Hin].
  pose proof (join_path_name pre fn Hp Hne Hs) as Hname.
  split; [exact Hname |].
  rewrite last_split_char, rsplit1_lower in Hin.
  split.
  - intros Hdot. destruct (rsplit1_some "." fn Hdot) as (b & a & E).
    rewrite E in Hin.
    unfold uploads_path. cbn [as_path].
    unfold join_path in *. cbv zeta in *. cbn [Ocr.path_name Ocr.path_suffix] in *.
    rewrite Hname. unfold suffix_of.
    assert (Hd : has_char "." pre = false).
    { unfold plain in Hp. apply andb_prop in Hp. destruct Hp as [Hd _].
      now apply negb_true_iff in Hd. }
    rewrite (rsplit1_prefix "." pre fn Hd), E.
    pose proof (valid_extension_nonempty _ Hin) as Ha.
    assert (Hpb : String.eqb (pre ++ b) "" = false).
    { apply String.eqb_neq. destruct pre; [contradiction | discriminate]. }
    assert (Hae : String.eqb a "" = false).
    { apply String.eqb_neq. intros ->. apply Ha. reflexivity. }
    rewrite Hpb, Hae. cbn [orb].
    assert (El : lower ("." ++ a) = "." ++ lower a) by reflexivity.
    rewrite El. split; [exact Hin | apply valid_extension_supported; exact Hin].
  - intros Hdot. rewrite (rsplit1_none "." fn Hdot) in Hin.
    split; [exact Hin |].
    rewrite (dotless_suffix fn pre Hs Hdot Hp Hne). split; reflexivity.
Qed.

End UploadFacts.

(* ===================================================================== *)
(** * app.py: the responses of process_documents                          *)
(* ===================================================================== *)

Module AppFacts.
Import Validators Pathlib Extraction App AppSpec OcrSpec.

Section WithHost.

Variables W Image P B : Type.
Variable host : Host W.
Variable ocr_world : Ocr.World W Image.
Variable browser : FormFiller.Browser W P B.
Variable env : Services.
Variable FORM_URL : string.
Variable HEADLESS_MODE : bool.
Variable MAX_FILE_SIZE_MB : Z.

Abbreviation state := (App.state W P B).
Abbreviation prog := (App.prog W P B).
Abbreviation run_ocr := (App.run_ocr W P B).
Abbreviation run_form := (App.run_form W P B).
Abbreviation fill_and_respond :=
  (App.fill_and_respond W P B browser FORM_URL HEADLESS_MODE).
Abbreviation extract_and_fill :=
  (App.extract_and_fill W Image P B ocr_world browser env FORM_URL HEADLESS_MODE).
Abbreviation receive_uploads :=
  (App.receive_uploads W P B host MAX_FILE_SIZE_MB).
Abbreviation process_body :=
  (App.process_body W Image P B host ocr_world browser env FORM_URL HEADLESS_MODE
     MAX_FILE_SIZE_MB).
Abbreviation cleanup := (App.cleanup W P B host).
Abbreviation process_documents :=
  (App.process_documents W Image P B host ocr_world browser env FORM_URL
     HEADLESS_MODE MAX_FILE_SIZE_MB).

(** The state in which the [try] starts: both local paths are [None]. *)
Abbreviation reset := (fun s : state => snd (set_paths W P B None None s)).

(** ** Steps 3 to 7 always answer *)

Lemma run_ocr_returns {A : Type} (c : Ocr.prog W A) (s : state) :
  OcrSpec.never_raises W c -> exists a s', run_ocr c s = (Ok a, s').
Proof.
  intros H. unfold App.run_ocr. destruct (H (ocr_state W P B s)) as [a Ha].
  destruct (c (ocr_state W P B s)) as [r o]. cbn [fst] in Ha. subst r. eauto.
Qed.

(** The report of [populate_form] is the failure report, or that of a run
    which reached the end of the form. *)
Lemma populate_form_report fields checkboxes (f : FormFiller.state W P B) :
  exists r f',
    FormFiller.populate_form W P B browser FORM_URL HEADLESS_MODE fields checkboxes f
    = (Ok r, f')
    /\ ((exists e, r = FormFiller.failure_report e)
        \/ (FormFiller.completed r
            /\ FormFiller.pdf_path r
               = (if HEADLESS_MODE then Some "uploads/form_filled.pdf" else None))).
Proof.
  unfold FormFiller.populate_form, io_try, io_ret.
  destruct (FormFiller.drive_browser W P B browser FORM_URL HEADLESS_MODE fields
              checkboxes f) as [[r | e] f'] eqn:E.
  - exists r, f'. split; [reflexivity |]. right. split.
    + eapply FormFillerFacts.drive_browser_completed. exact E.
    + destruct (FormFillerMoreFacts.drive_browser_fill_page _ _ _ _ _ _ _ _ _ _ _ E)
        as (s1 & s2 & Hp).
      destruct (FormFillerMoreFacts._fill_page_tally _ _ _ _ _ _ _ _ _ _ _ Hp)
        as [_ Hpdf]. exact Hpdf.
  - exists (FormFiller.failure_report e), f'. split; [reflexivity |]. left. eauto.
Qed.

Lemma fill_and_respond_response passport_data g28_data (s : state) :
  exists r s',
    fill_and_respond passport_data g28_data s = (Ok r, s')
    /\ pipeline_response HEADLESS_MODE r.
Proof.
  unfold App.fill_and_respond, io_bind, App.lift.
  rewrite MapperFacts.map_to_form_fields_value,
    MapperFacts.get_checkbox_fields_value.
  unfold App.run_form.
  match goal with
  | |- context [FormFiller.populate_form W P B browser FORM_URL HEADLESS_MODE ?f ?c ?st] =>
      destruct (populate_form_report f c st) as (r & f' & E & Hr); rewrite E
  end.
  destruct Hr as [[e ->] | [Hc Hpdf]].
  - cbn [FormFiller.failure_report FormFiller.success FormFiller.error].
    unfold io_ret. do 2 eexists. split; [reflexivity |]. apply browser_failed.
  - destruct Hc as (Herr & _ & _ & Hs & Hshot).
    destruct (FormFiller.success r) eqn:Es; unfold io_ret.
    + do 2 eexists. split; [reflexivity |].
      apply form_populated; try assumption. apply Hs. reflexivity.
    + rewrite Herr. do 2 eexists. split; [reflexivity |]. apply nothing_filled.
Qed.

Lemma extract_and_fill_response passport g28 (s : state) :
  exists r s',
    extract_and_fill passport g28 s = (Ok r, s')
    /\ pipeline_response HEADLESS_MODE r.
Proof.
  unfold App.extract_and_fill, io_bind.
  destruct (run_ocr_returns _ s
              (OcrMoreFacts.never_raises_remote W Image ocr_world (as_path passport)))
    as (pt & s1 & E1).
  rewrite E1.
  destruct (nonempty pt) as [passport_text |];
    [| unfold io_ret; do 2 eexists; split; [reflexivity | apply no_passport_text]].
  destruct (run_ocr_returns _ s1
              (OcrMoreFacts.never_raises_local W Image ocr_world (as_path g28)))
    as (gt & s2 & E2).
  rewrite E2.
  destruct (nonempty gt) as [g28_text |];
    [| unfold io_ret; do 2 eexists; split; [reflexivity | apply no_g28_text]].
  destruct (extract_data env passport_text g28_text) as [[pd gd] | e] eqn:Ex.
  - apply fill_and_respond_response.
  - rewrite (ExtractionFacts.extract_data_raises_ValueError env _ _ e Ex).
    unfold io_ret. do 2 eexists. split; [reflexivity | apply extraction_failed].
Qed.

(** ** The cleanup never raises *)

Lemma cleanup_returns (s : state) : exists s', cleanup s = (Ok tt, s').
Proof.
  unfold App.cleanup, io_try.
  match goal with
  | |- context [match ?c s with _ => _ end] => destruct (c s) as [[[] | e] s1]
  end; unfold io_ret; eauto.
Qed.

(** [process_documents] answers every request.  When validating or saving
    the uploads raised, the answer is the 500 response "Processing failed"
    for a [ValueError] and "Unexpected error" for any other exception, with
    the exception's text as details.  Otherwise it is one of the responses
    of steps 3 to 7: the two acquisition failures, the extraction failure,
    the form failure (whose details are the browser error or, when the run
    reached its end but filled nothing, [None]: the default text of the
    code is never used), or the 200 response for a report that has
    success true, no error, a filled field, the screenshot and a PDF
    exactly in headless mode.  So no failure of the acquisition, the
    extraction, the mapping or the browser is answered as "Unexpected
    error". *)
Theorem process_documents_always_responds (passport_file g28_file : UploadFile)
  (s : state) :
  exists r s',
    process_documents passport_file g28_file s = (Ok r, s')
    /\ match receive_uploads passport_file g28_file (reset s) with
       | (Raise e, _) =>
           r = error_response
                 (if is_ValueError e then "Processing failed" else "Unexpected error")
                 (PStr (str_exception e))
       | (Ok _, _) => pipeline_response HEADLESS_MODE r
       end.
Proof.
  unfold App.process_documents, io_bind. cbn [set_paths snd].
  unfold io_finally, io_try, App.process_body, io_bind.
  destruct (receive_uploads passport_file g28_file
              (mkState W P B (ocr_state W P B s) (sessions W P B s) (files W P B s)
                 None None)) as [[paths | e] s1].
  - destruct (extract_and_fill_response (fst paths) (snd paths) s1)
      as (r & s2 & E & Hr).
    rewrite E. destruct (cleanup_returns s2) as [s3 Ec]. rewrite Ec.
    exists r, s3. split; [reflexivity | exact Hr].
  - destruct (is_ValueError e); unfold io_ret;
      match goal with
      | |- context [cleanup ?st] => destruct (cleanup_returns st) as [s3 Ec]; rewrite Ec
      end; do 2 eexists; split; reflexivity.
Qed.


(** ** The host calls and the local paths *)

Abbreviation only_logs := (AppSpec.only_logs W P B).

Lemma logs_ret {A : Type} (a : A) : only_logs (io_ret a).
Proof. intros s. cbn. split; [exists []; now rewrite app_nil_r | auto]. Qed.

Lemma logs_raise {A : Type} (e : exception) : only_logs (@io_raise _ _ A e).
Proof. intros s. cbn. split; [exists []; now rewrite app_nil_r | auto]. Qed.

Lemma logs_lift {A : Type} (r : result A) : only_logs (App.lift W P B r).
Proof. intros s. cbn. split; [exists []; now rewrite app_nil_r | auto]. Qed.

Lemma logs_perform {A : Type} c (op : W -> outcome exception A * W) :
  only_logs (App.perform W P B c op).
Proof.
  intros s. unfold App.perform. destruct (op (the_world W P B s)) as [r w'].
  cbn. split; [exists [c]; reflexivity | auto].
Qed.

Lemma logs_run_ocr {A : Type} (c : Ocr.prog W A) : only_logs (run_ocr c).
Proof.
  intros s. unfold App.run_ocr. destruct (c (ocr_state W P B s)) as [r o].
  cbn. split; [exists []; now rewrite app_nil_r | auto].
Qed.

Lemma logs_run_form {A : Type} (c : FormFiller.prog W P B A) :
  only_logs (run_form c).
Proof.
  intros s. unfold App.run_form.
  destruct (c (FormFiller.mkState W P B (the_world W P B s) (sessions W P B s)))
    as [r f].
  cbn. split; [exists []; now rewrite app_nil_r | auto].
Qed.

Lemma logs_bind {A C : Type} (c : prog A) (k : A -> prog C) :
  only_logs c -> (forall a, only_logs (k a)) -> only_logs (io_bind c k).
Proof.
  intros Hc Hk s. unfold io_bind. destruct (Hc s) as ((c1 & E1) & P1 & G1).
  destruct (c s) as [[a | e] s1]; cbn [snd] in *.
  - destruct (Hk a s1) as ((c2 & E2) & P2 & G2).
    split; [exists (c1 ++ c2)%list; rewrite E2, E1, app_assoc; reflexivity |].
    split; congruence.
  - split; [exists c1; exact E1 | auto].
Qed.

Lemma logs_try {A : Type} (c : prog A) (h : exception -> prog A) :
  only_logs c -> (forall e, only_logs (h e)) -> only_logs (io_try c h).
Proof.
  intros Hc Hh s. unfold io_try. destruct (Hc s) as ((c1 & E1) & P1 & G1).
  destruct (c s) as [[a | e] s1]; cbn [snd] in *.
  - split; [exists c1; exact E1 | auto].
  - destruct (Hh e s1) as ((c2 & E2) & P2 & G2).
    split; [exists (c1 ++ c2)%list; rewrite E2, E1, app_assoc; reflexivity |].
    split; congruence.
Qed.

Create HintDb logs.
#[local] Hint Resolve logs_ret logs_raise logs_lift logs_perform logs_run_ocr
  logs_run_form logs_bind logs_try : logs.

Lemma logs_save_upload path file :
  only_logs (save_upload W P B host path file).
Proof.
  unfold save_upload, with_open. auto 12 with logs.
Qed.

Lemma logs_fill_and_respond pd gd : only_logs (fill_and_respond pd gd).
Proof.
  unfold App.fill_and_respond.
  repeat (apply logs_bind; [auto with logs | intros ?]).
  match goal with |- context [if ?b then _ else _] => destruct b end;
    auto with logs.
Qed.

Lemma logs_extract_and_fill passport g28 :
  only_logs (extract_and_fill passport g28).
Proof.
  unfold App.extract_and_fill.
  apply logs_bind; [auto with logs | intros pt].
  destruct (nonempty pt) as [passport_text |]; [| auto with logs].
  apply logs_bind; [auto with logs | intros gt].
  destruct (nonempty gt) as [g28_text |]; [| auto with logs].
  destruct (extract_data env passport_text g28_text) as [[pd gd] | e].
  - apply logs_fill_and_respond.
  - destruct (is_ValueError e); auto with logs.
Qed.

(** [validate_upload] raises nothing but a [ValueError]. *)
Lemma validate_upload_raises file max e :
  validate_upload file max = Raise e -> is_ValueError e = true.
Proof.
  unfold validate_upload. destruct file as [f |]; [| intros H; inversion H; reflexivity].
  destruct (filename f) as [name |]; [| intros H; inversion H; reflexivity].
  destruct (String.eqb name ""); [intros H; inversion H; reflexivity |].
  cbv zeta. match goal with |- context [if ?b then _ else _] => destruct b end;
    intros H; inversion H; reflexivity.
Qed.

(** An upload that [validate_upload] rejects costs nothing: the answer is
    "Processing failed" with the validator's message, and nothing was
    written, read, removed or sent: the states of the acquisition modules,
    of the form filler and the log of host calls are as before. *)
Theorem rejected_upload_touches_nothing (passport_file g28_file : UploadFile)
  (s : state) (e : exception) :
  validate_upload (Some passport_file) MAX_FILE_SIZE_MB = Raise e
  \/ (validate_upload (Some passport_file) MAX_FILE_SIZE_MB = Ok tt
      /\ validate_upload (Some g28_file) MAX_FILE_SIZE_MB = Raise e) ->
  process_documents passport_file g28_file s
  = (Ok (error_response "Processing failed" (PStr (str_exception e))),
     mkState W P B (ocr_state W P B s) (sessions W P B s) (files W P B s)
       None None).
Proof.
  intros H.
  assert (Hv : is_ValueError e = true).
  { destruct H as [H | [_ H]]; eapply validate_upload_raises; exact H. }
  unfold App.process_documents, io_bind. cbn [set_paths snd].
  unfold io_finally, io_try, App.process_body, io_bind, App.receive_uploads,
    io_bind, App.lift.
  destruct H as [H | [H1 H2]].
  - rewrite H, Hv. reflexivity.
  - rewrite H1, H2, Hv. reflexivity.
Qed.


(** ** Saving, and removing what was saved *)

(** What the clock answers where the [try] starts. *)
Abbreviation stamp_of := (AppSpec.stamp_of W P B host).

(** Steps 1 and 2 on two accepted uploads: the clock is read first, the two
    local paths are set from its answer, and they are what is returned. *)
Lemma receive_uploads_validated passport_file g28_file (s : state) :
  validate_upload (Some passport_file) MAX_FILE_SIZE_MB = Ok tt ->
  validate_upload (Some g28_file) MAX_FILE_SIZE_MB = Ok tt ->
  exists r s1 calls,
    receive_uploads passport_file g28_file s = (r, s1)
    /\ files W P B s1 = (files W P B s ++ Now :: calls)%list
    /\ passport_path W P B s1
       = Some (uploads_path ("passport_" ++ stamp_of s ++ "_"
                             ++ format_optional (filename passport_file)))
    /\ g28_path W P B s1
       = Some (uploads_path ("g28_" ++ stamp_of s ++ "_"
                             ++ format_optional (filename g28_file)))
    /\ (forall paths, r = Ok paths ->
        paths = (uploads_path ("passport_" ++ stamp_of s ++ "_"
                               ++ format_optional (filename passport_file)),
                 uploads_path ("g28_" ++ stamp_of s ++ "_"
                               ++ format_optional (filename g28_file)))).
Proof.
  intros H1 H2. unfold App.receive_uploads. rewrite H1, H2.
  unfold io_bind at 1 2 3. unfold App.lift. unfold App.perform at 1.
  unfold AppSpec.stamp_of.
  destruct (now_strftime W host (the_world W P B s)) as [t w'] eqn:Et.
  cbn [fst]. cbv zeta. unfold io_bind at 1. cbn [set_paths].
  match goal with
  | |- context [io_bind (save_upload W P B host ?pp passport_file) ?k ?st] =>
      assert (L : only_logs (io_bind (save_upload W P B host pp passport_file) k))
        by (apply logs_bind; [apply logs_save_upload | intros _];
            apply logs_bind; [apply logs_save_upload | intros _];
            apply logs_ret);
      destruct (L st) as ((calls & Ec) & Ep & Eg);
      destruct (io_bind (save_upload W P B host pp passport_file) k st)
        as [r s1] eqn:E
  end.
  cbn [snd files passport_path g28_path] in Ec, Ep, Eg.
  exists r, s1, calls. split; [reflexivity |].
  split; [rewrite Ec, <- app_assoc; reflexivity |].
  split; [exact Ep |]. split; [exact Eg |].
  intros paths ->.
  unfold io_bind in E.
  repeat match type of E with
         | context [match ?c with _ => _ end] =>
             destruct c as [[? | ?] ?]; try discriminate
         end.
  unfold io_ret in E. inversion E. reflexivity.
Qed.

(** The [finally] clause on a state whose two local paths are set. *)
Lemma cleanup_calls (s : state) (pp gp : UploadPath) :
  passport_path W P B s = Some pp -> g28_path W P B s = Some gp ->
  exists s' rest,
    cleanup s = (Ok tt, s')
    /\ files W P B s' = (files W P B s ++ PathExists (path_text pp) :: rest)%list
    /\ ((forall path w, fst (path_exists W host path w) = Ok true) ->
        (forall path w, fst (path_unlink W host path w) = Ok tt) ->
        rest = [Unlink (path_text pp); PathExists (path_text gp);
                Unlink (path_text gp)])
    /\ ((forall w, fst (path_exists W host (path_text pp) w) = Ok true) ->
        (forall w, exists e, fst (path_unlink W host (path_text pp) w) = Raise e) ->
        rest = [Unlink (path_text pp)]).
Proof.
  intros Hp Hg.
  unfold App.cleanup, io_try, io_bind, get_paths. rewrite Hp, Hg. cbn [fst snd].
  unfold remove_if_exists, io_bind, App.perform, io_ret.
  destruct (path_exists W host (path_text pp) (the_world W P B s))
    as [[[|] | e1] w1] eqn:E1.
  - (* the passport file is there *)
    cbn [App.the_world ocr_state with_world Ocr.the_world].
    destruct (path_unlink W host (path_text pp) w1) as [[[] | e2] w2] eqn:E2.
    + cbn [App.the_world ocr_state with_world Ocr.the_world].
      destruct (path_exists W host (path_text gp) w2) as [[[|] | e3] w3] eqn:E3.
      * cbn [App.the_world ocr_state with_world Ocr.the_world].
        destruct (path_unlink W host (path_text gp) w3) as [[[] | e4] w4] eqn:E4.
        -- do 2 eexists. split; [reflexivity |]. cbn [files].
           split; [rewrite <- !app_assoc; reflexivity |].
           split; [reflexivity |].
           intros _ H. destruct (H w1) as [e He]. rewrite E2 in He. discriminate.
        -- do 2 eexists. split; [reflexivity |]. cbn [files].
           split; [rewrite <- !app_assoc; reflexivity |].
           split; [intros _ H; specialize (H (path_text gp) w3);
                   rewrite E4 in H; discriminate |].
           intros _ H. destruct (H w1) as [e He]. rewrite E2 in He. discriminate.
      * do 2 eexists. split; [reflexivity |]. cbn [files].
        split; [rewrite <- !app_assoc; reflexivity |].
        split; [intros H _; specialize (H (path_text gp) w2);
                rewrite E3 in H; discriminate |].
        intros _ H. destruct (H w1) as [e He]. rewrite E2 in He. discriminate.
      * do 2 eexists. split; [reflexivity |]. cbn [files].
        split; [rewrite <- !app_assoc; reflexivity |].
        split; [intros H _; specialize (H (path_text gp) w2);
                rewrite E3 in H; discriminate |].
        intros _ H. destruct (H w1) as [e He]. rewrite E2 in He. discriminate.
    + do 2 eexists. split; [reflexivity |]. cbn [files].
      split; [rewrite <- !app_assoc; reflexivity |].
      split; [intros _ H; specialize (H (path_text pp) w1);
              rewrite E2 in H; discriminate |].
      intros _ _. reflexivity.
  - (* the passport file is not there *)
    cbn [App.the_world ocr_state with_world Ocr.the_world].
    destruct (path_exists W host (path_text gp) w1) as [[[|] | e3] w3] eqn:E3.
    + cbn [App.the_world ocr_state with_world Ocr.the_world].
      destruct (path_unlink W host (path_text gp) w3) as [[[] | e4] w4] eqn:E4;
        (do 2 eexists; split; [reflexivity |]; cbn [files];
         split; [rewrite <- !app_assoc; reflexivity |];
         split; [intros H _ | intros H _];
         [specialize (H (path_text pp) (the_world W P B s))
         | specialize (H (the_world W P B s))];
         rewrite E1 in H; discriminate).
    + do 2 eexists. split; [reflexivity |]. cbn [files].
      split; [rewrite <- !app_assoc; reflexivity |].
      split; [intros H _ | intros H _];
        [specialize (H (path_text pp) (the_world W P B s))
        | specialize (H (the_world W P B s))];
        rewrite E1 in H; discriminate.
    + do 2 eexists. split; [reflexivity |]. cbn [files].
      split; [rewrite <- !app_assoc; reflexivity |].
      split; [intros H _ | intros H _];
        [specialize (H (path_text pp) (the_world W P B s))
        | specialize (H (the_world W P B s))];
        rewrite E1 in H; discriminate.
  - do 2 eexists. split; [reflexivity |]. cbn [files].
    split; [reflexivity |].
    split; [intros H _ | intros H _];
      [specialize (H (path_text pp) (the_world W P B s))
      | specialize (H (the_world W P B s))];
      rewrite E1 in H; discriminate.
Qed.


(** The body of the [try] with its two handlers always returns, only adds
    host calls and leaves the two local paths alone. *)
Lemma process_body_logs (paths : UploadPath * UploadPath) (s1 : state) :
  exists r s2 calls,
    io_try (io_bind (io_ret paths)
              (fun paths => extract_and_fill (fst paths) (snd paths)))
      (fun e : exception =>
         if is_ValueError e
         then io_ret (error_response "Processing failed" (PStr (str_exception e)))
         else io_ret (error_response "Unexpected error" (PStr (str_exception e))))
      s1 = (Ok r, s2)
    /\ files W P B s2 = (files W P B s1 ++ calls)%list
    /\ passport_path W P B s2 = passport_path W P B s1
    /\ g28_path W P B s2 = g28_path W P B s1
    /\ pipeline_response HEADLESS_MODE r.
Proof.
  unfold io_try, io_bind, io_ret.
  destruct (extract_and_fill_response (fst paths) (snd paths) s1)
    as (r & s2 & E & Hr).
  destruct (logs_extract_and_fill (fst paths) (snd paths) s1)
    as ((calls & Ec) & Ep & Eg).
  rewrite E in *. cbn [snd] in *. exists r, s2, calls. auto.
Qed.

(** The uploads are removed.  Once both uploads were accepted, the request
    ends with the cleanup, whatever happened in between: the log of host
    calls is the clock, the calls of saving (open, read, write, close), and
    then the cleanup, which begins by asking whether the passport file
    exists.  On a host that reports every path as present and removes
    without error, both saved files are removed, under the very names they
    were saved as.  When removing the passport file raises, the cleanup
    stops there and the G-28 file is left in place. *)
Theorem uploads_are_cleaned_up (passport_file g28_file : UploadFile) (s : state) :
  validate_upload (Some passport_file) MAX_FILE_SIZE_MB = Ok tt ->
  validate_upload (Some g28_file) MAX_FILE_SIZE_MB = Ok tt ->
  exists r s' calls rest,
    process_documents passport_file g28_file s = (Ok r, s')
    /\ files W P B s'
       = (files W P B s
          ++ Now :: calls
          ++ PathExists (saved_as "passport" (stamp_of s) passport_file) :: rest)%list
    /\ ((forall path w, fst (path_exists W host path w) = Ok true) ->
        (forall path w, fst (path_unlink W host path w) = Ok tt) ->
        rest = [ Unlink (saved_as "passport" (stamp_of s) passport_file);
                 PathExists (saved_as "g28" (stamp_of s) g28_file);
                 Unlink (saved_as "g28" (stamp_of s) g28_file) ])
    /\ ((forall w, fst (path_exists W host
                          (saved_as "passport" (stamp_of s) passport_file) w)
                   = Ok true) ->
        (forall w, exists e,
            fst (path_unlink W host
                   (saved_as "passport" (stamp_of s) passport_file) w) = Raise e) ->
        rest = [ Unlink (saved_as "passport" (stamp_of s) passport_file) ]).
Proof.
  intros H1 H2.
  unfold App.process_documents, io_bind at 1. cbn [set_paths].
  unfold io_finally.
  set (s0 := mkState W P B (ocr_state W P B s) (sessions W P B s) (files W P B s)
               None None).
  destruct (receive_uploads_validated passport_file g28_file s0 H1 H2)
    as (r0 & s1 & calls1 & E0 & F1 & Pp & Pg & Hpaths).
  change (stamp_of s0) with (stamp_of s) in *.
  change (files W P B s0) with (files W P B s) in F1.
  (* the guarded body *)
  assert (Hbody : exists r s2 calls2,
             io_try (process_body passport_file g28_file)
               (fun e : exception =>
                  if is_ValueError e
                  then io_ret (error_response "Processing failed"
                                 (PStr (str_exception e)))
                  else io_ret (error_response "Unexpected error"
                                 (PStr (str_exception e)))) s0 = (Ok r, s2)
             /\ files W P B s2 = (files W P B s1 ++ calls2)%list
             /\ passport_path W P B s2 = passport_path W P B s1
             /\ g28_path W P B s2 = g28_path W P B s1).
  { unfold App.process_body, io_try, io_bind. rewrite E0.
    destruct r0 as [paths | e].
    - destruct (process_body_logs paths s1)
        as (r & s2 & calls2 & E & F & Ep & Eg & _).
      unfold io_try, io_bind, io_ret in E.
      destruct (extract_and_fill (fst paths) (snd paths) s1) as [[r' | e'] s2'].
      + inversion E; subst. exists r, s2, calls2. auto.
      + destruct (is_ValueError e'); inversion E; subst;
          do 3 eexists; (split; [reflexivity |]); eauto.
    - destruct (is_ValueError e); unfold io_ret;
        do 2 eexists; exists []; rewrite app_nil_r;
        (split; [reflexivity | auto]). }
  destruct Hbody as (r & s2 & calls2 & E & F2 & Ep & Eg).
  rewrite E.
  rewrite Pp in Ep. rewrite Pg in Eg.
  destruct (cleanup_calls s2 _ _ Ep Eg) as (s3 & rest & Ec & F3 & Hall & Hfail).
  rewrite Ec. exists r, s3, (calls1 ++ calls2)%list, rest.
  split; [reflexivity |].
  split; [| split; [exact Hall | exact Hfail]].
  rewrite F3, F2, F1. cbn [path_text uploads_path]. unfold saved_as.
  rewrite <- !app_assoc. reflexivity.
Qed.

(** ** A file name without a dot *)

Lemma plain_prefix kind stamp :
  plain kind = true -> plain stamp = true -> plain (kind ++ "_" ++ stamp ++ "_") = true.
Proof.
  unfold plain. intros Hk Hs.
  apply andb_prop in Hk. destruct Hk as [K1 K2].
  apply andb_prop in Hs. destruct Hs as [S1 S2].
  apply negb_true_iff in K1, K2, S1, S2.
  rewrite !UploadFacts.has_char_app, K1, K2, S1, S2. reflexivity.
Qed.

(** A passport upload whose name holds no dot and is, in lower case, one of
    pdf, jpg, jpeg, png passes [validate_upload]; once saved, its path has no
    suffix, the acquisition rejects it as unsupported, and the request is
    answered "Failed to extract text from passport", whatever the file
    holds. *)
Theorem dotless_name_is_accepted_then_unreadable (passport_file g28_file : UploadFile)
  (fn : string) (s s1 : state) (paths : UploadPath * UploadPath) :
  filename passport_file = Some fn ->
  has_char "." fn = false ->
  has_char "/" fn = false ->
  plain (stamp_of s) = true ->
  receive_uploads passport_file g28_file (reset s) = (Ok paths, s1) ->
  validate_upload (Some passport_file) MAX_FILE_SIZE_MB = Ok tt
  /\ In ("." ++ lower fn) valid_extensions
  /\ exists s',
       process_documents passport_file g28_file s
       = (Ok (error_response "Failed to extract text from passport"
                (PStr "Please ensure the passport document is clear and readable")),
          s').
Proof.
  intros Hf Hdot Hslash Hstamp Hr. cbn [set_paths snd] in Hr.
  assert (Hv : validate_upload (Some passport_file) MAX_FILE_SIZE_MB = Ok tt
               /\ validate_upload (Some g28_file) MAX_FILE_SIZE_MB = Ok tt).
  { unfold App.receive_uploads, io_bind, App.lift in Hr.
    destruct (validate_upload (Some passport_file) MAX_FILE_SIZE_MB) as [[] | e1];
      [| discriminate].
    destruct (validate_upload (Some g28_file) MAX_FILE_SIZE_MB) as [[] | e2];
      [| discriminate].
    auto. }
  destruct Hv as [Hv1 Hv2]. split; [exact Hv1 |].
  destruct (UploadFacts.validate_upload_accepted _ _ fn Hv1 Hf) as [Hne Hin].
  rewrite UploadFacts.last_split_char, UploadFacts.rsplit1_lower,
    (UploadFacts.rsplit1_none "." fn Hdot) in Hin.
  split; [exact Hin |].
  destruct (receive_uploads_validated passport_file g28_file
              (mkState W P B (ocr_state W P B s) (sessions W P B s) (files W P B s)
                 None None) Hv1 Hv2)
    as (r0 & s1' & calls1 & E0 & _ & _ & _ & Hpaths).
  rewrite Hr in E0. inversion E0; subst r0 s1'. clear E0.
  specialize (Hpaths paths eq_refl).
  change (AppSpec.stamp_of W P B host
            (mkState W P B (ocr_state W P B s) (sessions W P B s) (files W P B s)
               None None)) with (stamp_of s) in Hpaths.
  unfold App.process_documents, io_bind at 1. cbn [set_paths].
  unfold io_finally, io_try, App.process_body, io_bind at 1. rewrite Hr.
  assert (Hsuf : supported_ext
                   (lower (Ocr.path_suffix (as_path (fst paths)))) = false).
  { rewrite Hpaths. cbn [fst]. rewrite Hf. cbn [format_optional].
    replace ("passport_" ++ stamp_of s ++ "_" ++ fn)
      with (("passport" ++ "_" ++ stamp_of s ++ "_") ++ fn)
      by (rewrite !StringFacts.append_assoc; reflexivity).
    rewrite (UploadFacts.dotless_suffix fn ("passport" ++ "_" ++ stamp_of s ++ "_")
               Hslash Hdot);
      [reflexivity | apply plain_prefix; [reflexivity | exact Hstamp] | discriminate]. }
  unfold App.extract_and_fill, io_bind at 1. unfold App.run_ocr at 1.
  destruct (OcrMoreFacts.unsupported_remote W Image ocr_world (as_path (fst paths))
              (ocr_state W P B s1) Hsuf) as [Hnone _].
  destruct (Ocr.extract_passport_text_with_gemini W Image ocr_world
              (as_path (fst paths)) (ocr_state W P B s1)) as [r o].
  cbn [fst] in Hnone. subst r. cbn [nonempty]. unfold io_ret.
  match goal with
  | |- context [cleanup ?st] => destruct (cleanup_returns st) as [s3 Ec]; rewrite Ec
  end.
  eexists. reflexivity.
Qed.

End WithHost.
End AppFacts.

Module AppExamples.
Import Validators Pathlib Extraction App AppSpec AppScenario.

(** The request handler of the examples: the sample host, a one-page PDF
    world, the sample form, a remote model that answers with an empty
    object, headless mode and the default size limit. *)
Abbreviation process_documents :=
  (App.process_documents unit unit unit unit host
     (OcrScenario.one_page_world OcrScenario.text_41) FormScenario.form_browser
     (Scenario.services (Ok "{}")) FormScenario.form_url true 20%Z).

(** An upload named Passport.PDF, saved at noon of 1 January 2024. *)
Lemma accepted_upload_suffix_witness :
  validate_upload (Some (mkUploadFile (Some "Passport.PDF") 1)) 20%Z = Ok tt
  /\ Ocr.path_name
       (as_path (uploads_path ("passport_20240101_120000_" ++ "Passport.PDF")))
     = "passport_20240101_120000_" ++ "Passport.PDF".
Proof.
  split; [vm_compute; reflexivity |].
  destruct (UploadFacts.accepted_upload_suffix
              (mkUploadFile (Some "Passport.PDF") 1) 20%Z "Passport.PDF"
              "passport_20240101_120000_" eq_refl eq_refl eq_refl eq_refl
              ltac:(discriminate)) as [H _].
  exact H.
Defined.

(** A spreadsheet as second upload: nothing is touched. *)
Lemma rejected_upload_touches_nothing_witness :
  validate_upload (Some passport_upload) 20%Z = Ok tt
  /\ validate_upload (Some spreadsheet_upload) 20%Z
     = Raise (ValueError "Invalid file type: .xlsx. Supported formats: PDF, JPEG, PNG")
  /\ process_documents passport_upload spreadsheet_upload initial
     = (Ok (error_response "Processing failed"
              (PStr "Invalid file type: .xlsx. Supported formats: PDF, JPEG, PNG")),
        initial).
Proof.
  split; [vm_compute; reflexivity |]. split; [vm_compute; reflexivity |].
  apply (AppFacts.rejected_upload_touches_nothing unit unit unit unit host
           (OcrScenario.one_page_world OcrScenario.text_41) FormScenario.form_browser
           (Scenario.services (Ok "{}")) FormScenario.form_url true 20%Z
           passport_upload spreadsheet_upload initial
           (ValueError "Invalid file type: .xlsx. Supported formats: PDF, JPEG, PNG")).
  right. split; vm_compute; reflexivity.
Defined.

(** Two PDF uploads on the sample host: both saved files are removed. *)
Lemma uploads_are_cleaned_up_witness :
  validate_upload (Some passport_upload) 20%Z = Ok tt
  /\ validate_upload (Some g28_upload) 20%Z = Ok tt
  /\ exists r s' calls,
       process_documents passport_upload g28_upload initial = (Ok r, s')
       /\ files unit unit unit s'
          = ([] ++ Now :: calls
             ++ [ PathExists "uploads/passport_20240101_120000_passport.pdf";
                  Unlink "uploads/passport_20240101_120000_passport.pdf";
                  PathExists "uploads/g28_20240101_120000_g28.pdf";
                  Unlink "uploads/g28_20240101_120000_g28.pdf" ])%list.
Proof.
  split; [vm_compute; reflexivity |]. split; [vm_compute; reflexivity |].
  destruct (AppFacts.uploads_are_cleaned_up unit unit unit unit host
              (OcrScenario.one_page_world OcrScenario.text_41)
              FormScenario.form_browser (Scenario.services (Ok "{}"))
              FormScenario.form_url true 20%Z passport_upload g28_upload initial
              eq_refl eq_refl)
    as (r & s' & calls & rest & E & F & Hall & _).
  exists r, s', calls. split; [exact E |].
  rewrite F, (Hall (fun _ _ => eq_refl) (fun _ _ => eq_refl)). reflexivity.
Defined.

(** A passport upload called just pdf. *)
Lemma dotless_name_is_accepted_then_unreadable_witness :
  validate_upload (Some dotless_passport) 20%Z = Ok tt
  /\ In ("." ++ lower "pdf") valid_extensions
  /\ exists s',
       process_documents dotless_passport g28_upload initial
       = (Ok (error_response "Failed to extract text from passport"
                (PStr "Please ensure the passport document is clear and readable")),
          s').
Proof.
  refine (AppFacts.dotless_name_is_accepted_then_unreadable unit unit unit unit host
            (OcrScenario.one_page_world OcrScenario.text_41)
            FormScenario.form_browser (Scenario.services (Ok "{}"))
            FormScenario.form_url true 20%Z dotless_passport g28_upload "pdf"
            initial _ _ eq_refl eq_refl eq_refl eq_refl _).
  vm_compute. reflexivity.
Defined.

End AppExamples.
